(** * Mass Assignment Radar: the scan engine, embedded and verified

    A shallow embedding of [packages/backend/src/index.ts]: the JSON body
    model ([getPrimitiveDeep], [setDeep], ...), the mutation generator
    ([buildMutations]), the raw request parser ([parseRawRequestSpec]),
    the scan orchestrator ([runScan]), the findings writer
    ([createFindings]) and the other entry points ([getRequestPreview],
    [getRequestSummary], [listJsonRequests], [saveRequestFromRaw]); and
    of the functions of [packages/frontend/src/views/App.vue] that build
    the scan configuration and the list of requests.

    Conventions of the embedding.
    - Strings are sequences of the code units U+0000..U+00FF (Rocq's
      [string]); every string function below is the ECMAScript one
      restricted to that alphabet.
    - Finite numbers are exact decimals [m * 10^-e]; IEEE rounding and the
      exponent notation that [String] uses for very large or very small
      magnitudes are outside the model.  NaN and the infinities are values
      of the type, as they are of the TypeScript type [number].
    - A JavaScript object is the list of its own properties in the order
      the engine enumerates them: the keys that are array indices first,
      in ascending order, then the other keys in the order of their
      creation.  The objects the code meets are plain: their prototype
      is [Object.prototype], whose members the operator [in] and a read
      [o[k]] see, and whose accessor [__proto__] takes a write
      [o["__proto__"] = v] for itself when [o] has no own property of
      that name.  An object is given by its own properties, which is
      what [JSON.stringify], [Object.entries] and a spread read; the
      prototype such a write may install is not part of it.
    - Host calls ([sdk.requests.get], [sdk.requests.send],
      [sdk.findings.create]) are oracles over an abstract world; every
      [await] is a point where a peer [stopScan] may run.  The answer of
      the host to a request query, and the readings [getCreatedAt] and
      [getHeaders] of its objects, are parameters of the functions that
      use them. *)

From Stdlib Require Import String Ascii List ZArith NArith Lia Bool.
Import ListNotations.
Local Open Scope string_scope.
Local Open Scope list_scope.
Local Open Scope Z_scope.

(** ** ECMAScript string primitives *)

Module JsString.

Definition code (c : ascii) : N := N_of_ascii c.

(** WhiteSpace and LineTerminator code points below U+0100. *)
Definition isWhiteSpace (c : ascii) : bool :=
  let n := code c in
  ((9 <=? n) && (n <=? 13) || (n =? 32) || (n =? 160))%N.

Definition isDigit (c : ascii) : bool :=
  let n := code c in ((48 <=? n) && (n <=? 57))%N.

Definition isEmpty (s : string) : bool :=
  match s with EmptyString => true | _ => false end.

Fixpoint trimStart (s : string) : string :=
  match s with
  | String c r => if isWhiteSpace c then trimStart r else s
  | EmptyString => EmptyString
  end.

Fixpoint trimEnd (s : string) : string :=
  match s with
  | String c r =>
      let r' := trimEnd r in
      if isWhiteSpace c && isEmpty r' then EmptyString else String c r'
  | EmptyString => EmptyString
  end.

Definition trim (s : string) : string := trimEnd (trimStart s).

(** [p] is a prefix of [s]. *)
Fixpoint isPrefix (p s : string) : bool :=
  match p, s with
  | EmptyString, _ => true
  | String a p', String b s' => Ascii.eqb a b && isPrefix p' s'
  | String _ _, EmptyString => false
  end.

Definition startsWith (s p : string) : bool := isPrefix p s.

Fixpoint endsWith (s p : string) : bool :=
  if String.eqb s p then true
  else match s with
       | String _ r => endsWith r p
       | EmptyString => false
       end.

Fixpoint includesChar (s : string) (c : ascii) : bool :=
  match s with
  | String d r => Ascii.eqb d c || includesChar r c
  | EmptyString => false
  end.

Fixpoint includes (s p : string) : bool :=
  if isPrefix p s then true
  else match s with
       | String _ r => includes r p
       | EmptyString => false
       end.

(** [s.indexOf(p)], [None] for -1. *)
Fixpoint indexOf (s p : string) : option nat :=
  if isPrefix p s then Some 0%nat
  else match s with
       | String _ r => option_map S (indexOf r p)
       | EmptyString => None
       end.

(** [s.split(sep)] for a one-character separator: never empty. *)
Fixpoint split (sep : ascii) (s : string) : list string :=
  match s with
  | EmptyString => [EmptyString]
  | String c r =>
      if Ascii.eqb c sep then EmptyString :: split sep r
      else match split sep r with
           | h :: t => String c h :: t
           | [] => [String c EmptyString]
           end
  end.

(** [s.split(/\s+/)]: the pieces between maximal runs of white space. *)
Fixpoint splitWsFrom (inRun : bool) (s : string) : list string :=
  match s with
  | EmptyString => [EmptyString]
  | String c r =>
      if isWhiteSpace c then
        if inRun then splitWsFrom true r
        else EmptyString :: splitWsFrom true r
      else match splitWsFrom false r with
           | h :: t => String c h :: t
           | [] => [String c EmptyString]
           end
  end.

Definition splitWs (s : string) : list string := splitWsFrom false s.

Definition lowerChar (c : ascii) : ascii :=
  let n := code c in
  if ((65 <=? n) && (n <=? 90)
      || (192 <=? n) && (n <=? 222) && negb (n =? 215))%N
  then ascii_of_N (n + 32) else c.

Fixpoint toLowerCase (s : string) : string :=
  match s with
  | String c r => String (lowerChar c) (toLowerCase r)
  | EmptyString => EmptyString
  end.

(** [s.slice(0, n)] and [s.slice(n)]. *)
Fixpoint take (n : nat) (s : string) : string :=
  match n, s with
  | S k, String c r => String c (take k r)
  | _, _ => EmptyString
  end.

Fixpoint drop (n : nat) (s : string) : string :=
  match n, s with
  | S k, String _ r => drop k r
  | _, _ => s
  end.

(** [s.replace(/\r\n/g, "\n")]. *)
Fixpoint replaceCrLf (s : string) : string :=
  match s with
  | String c r =>
      match r with
      | String d _ =>
          if Ascii.eqb c "013" && Ascii.eqb d "010" then replaceCrLf r
          else String c (replaceCrLf r)
      | EmptyString => s
      end
  | EmptyString => EmptyString
  end.

(** [parts.join(sep)]. *)
Fixpoint join (sep : string) (l : list string) : string :=
  match l with
  | [] => EmptyString
  | [x] => x
  | x :: r => x ++ sep ++ join sep r
  end.

End JsString.

(** ** ECMAScript numbers, as exact decimals *)

Module JsNumber.

(** [Finite m e] is the number [m * 10^-e]. *)
Inductive number : Type :=
| Finite (m : Z) (e : nat)
| NaN
| Infinity (negative : bool).

(** Canonical form: the scale is zero or the last digit is not. *)
Fixpoint normalize (m : Z) (e : nat) : Z * nat :=
  match e with
  | O => (m, O)
  | S e' => if m mod 10 =? 0 then normalize (m / 10) e' else (m, e)
  end.

Definition make (m : Z) (e : nat) : number :=
  let (m', e') := normalize m e in Finite m' e'.

Definition ofZ (z : Z) : number := Finite z 0.

Definition isFinite (n : number) : bool :=
  match n with Finite _ _ => true | _ => false end.

(** The binary [+] of two numbers. *)
Definition add (a b : number) : number :=
  match a, b with
  | NaN, _ | _, NaN => NaN
  | Infinity s, Infinity t => if Bool.eqb s t then a else NaN
  | Infinity _, _ => a
  | _, Infinity _ => b
  | Finite m1 e1, Finite m2 e2 =>
      let e := Nat.max e1 e2 in
      make (m1 * 10 ^ Z.of_nat (e - e1) + m2 * 10 ^ Z.of_nat (e - e2)) e
  end.

Definition digitChar (d : N) : ascii := ascii_of_N (48 + d).
Definition digitValue (c : ascii) : N := (N_of_ascii c - 48)%N.

Fixpoint digitsFuel (fuel : nat) (n : N) : string :=
  let last := String (digitChar (n mod 10)) EmptyString in
  match fuel with
  | O => last
  | S f => if (n <? 10)%N then last else digitsFuel f (n / 10) ++ last
  end.

(** The decimal digits of [n], most significant first. *)
Definition digits (n : N) : string := digitsFuel (N.to_nat (N.log2 n)) n.

Fixpoint valueFrom (acc : N) (s : string) : N :=
  match s with
  | String c r => valueFrom (10 * acc + digitValue c) r
  | EmptyString => acc
  end.

(** The number a string of decimal digits denotes. *)
Definition value (s : string) : N := valueFrom 0 s.

Fixpoint zeros (k : nat) : string :=
  match k with O => EmptyString | S k' => String "0" (zeros k') end.

(** [Number::toString] in plain decimal notation. *)
Definition toString (n : number) : string :=
  match n with
  | NaN => "NaN"
  | Infinity false => "Infinity"
  | Infinity true => "-Infinity"
  | Finite m0 e0 =>
      let (m, e) := normalize m0 e0 in
      let a := Z.to_N (Z.abs m) in
      let sign := if m <? 0 then "-" else EmptyString in
      match e with
      | O => sign ++ digits a
      | S _ =>
          let p := (10 ^ N.of_nat e)%N in
          let fp := digits (a mod p) in
          sign ++ digits (a / p) ++ "."
               ++ zeros (e - String.length fp) ++ fp
      end
  end.

(** The number denoted by sign, integer digits, fraction digits and a
    decimal exponent: the numeric value of a StrDecimalLiteral and of a
    JSON number token. *)
Definition ofParts (neg : bool) (ip fp : string) (ex : Z) : number :=
  let k := String.length fp in
  let a := Z.of_N (value ip * 10 ^ N.of_nat k + value fp) in
  let m := if neg then - a else a in
  let sc := Z.of_nat k - ex in
  if 0 <=? sc then make m (Z.to_nat sc) else make (m * 10 ^ (- sc)) 0.

(** The longest prefix of decimal digits, and what follows it. *)
Fixpoint spanDigits (s : string) : string * string :=
  match s with
  | String c r =>
      if JsString.isDigit c then
        let (d, rest) := spanDigits r in (String c d, rest)
      else (EmptyString, s)
  | EmptyString => (EmptyString, EmptyString)
  end.

(** [/^[0-9]+$/.test(s)]. *)
Definition isDigits (s : string) : bool :=
  match spanDigits s with
  | (String _ _, EmptyString) => true
  | _ => false
  end.

(** [/^-?\d+(\.\d+)?$/]: the sign, integer digits and fraction digits
    of a match. *)
Definition matchDecimal (s : string) : option (bool * string * string) :=
  let (neg, body) :=
    match s with
    | String "-" r => (true, r)
    | _ => (false, s)
    end in
  match spanDigits body with
  | (String c ip, EmptyString) => Some (neg, String c ip, EmptyString)
  | (String c ip, String "." r) =>
      if isDigits r then Some (neg, String c ip, r) else None
  | _ => None
  end.

End JsNumber.

(** ** JavaScript objects used as string-keyed maps *)

Module JsObject.

(** The names of the properties of [Object.prototype]. *)
Definition prototypeNames : list string :=
  ["constructor"; "__defineGetter__"; "__defineSetter__"; "hasOwnProperty";
   "__lookupGetter__"; "__lookupSetter__"; "isPrototypeOf";
   "propertyIsEnumerable"; "toString"; "valueOf"; "__proto__";
   "toLocaleString"].

(** [k in Object.prototype]. *)
Definition inherited (k : string) : bool :=
  existsb (String.eqb k) prototypeNames.

(** The array index a key is, if it is one: a canonical numeric string
    ([String(Number(k)) === k]) of an integer from 0 to 2^32 - 2. *)
Definition arrayIndex (k : string) : option N :=
  let n := JsNumber.value k in
  if JsNumber.isDigits k && String.eqb (JsNumber.digits n) k
     && (n <=? 4294967294)%N
  then Some n else None.

Section Props.
Context {V : Type}.

(** [Object.hasOwn(o, k)]. *)
Fixpoint has (k : string) (o : list (string * V)) : bool :=
  match o with
  | (k', _) :: r => String.eqb k k' || has k r
  | [] => false
  end.

(** The value of the own property [k], if there is one. *)
Fixpoint get (k : string) (o : list (string * V)) : option V :=
  match o with
  | (k', v) :: r => if String.eqb k k' then Some v else get k r
  | [] => None
  end.

(** [k in o]: an own property or a member of [Object.prototype]. *)
Definition isIn (k : string) (o : list (string * V)) : bool :=
  has k o || inherited k.

(** What [o[k]] reads: the value of an own property; else the object
    [Object.prototype] through the accessor [__proto__], or one of its
    methods; else [undefined]. *)
Inductive Read : Type :=
| Own (v : V)
| Prototype
| Method
| Missing.

Definition read (k : string) (o : list (string * V)) : Read :=
  match get k o with
  | Some v => Own v
  | None =>
      if String.eqb k "__proto__" then Prototype
      else if inherited k then Method
      else Missing
  end.

(** An existing property takes the value and keeps its place, a new
    one goes last. *)
Fixpoint set (k : string) (v : V) (o : list (string * V))
  : list (string * V) :=
  match o with
  | (k', v') :: r =>
      if String.eqb k k' then (k', v) :: r else (k', v') :: set k v r
  | [] => [(k, v)]
  end.

(** The place of a new array index [n]: before the first key that is
    not a smaller array index. *)
Fixpoint insertIndex (n : N) (k : string) (v : V) (o : list (string * V))
  : list (string * V) :=
  match o with
  | (k', v') :: r =>
      match arrayIndex k' with
      | Some n' =>
          if (n' <? n)%N then (k', v') :: insertIndex n k v r
          else (k, v) :: o
      | None => (k, v) :: o
      end
  | [] => [(k, v)]
  end.

(** CreateDataProperty, as [JSON.parse] and a spread do it: an own
    property takes the value and keeps its place; a new one is
    enumerated among the array indices if it is one, last if not. *)
Definition define (k : string) (v : V) (o : list (string * V))
  : list (string * V) :=
  if has k o then set k v o
  else match arrayIndex k with
       | Some n => insertIndex n k v o
       | None => set k v o
       end.

(** [o[k] = v] on a plain object.  A key [__proto__] that is not an own
    property reaches the accessor of [Object.prototype], which creates
    no own property. *)
Definition put (k : string) (v : V) (o : list (string * V))
  : list (string * V) :=
  if negb (has k o) && String.eqb k "__proto__" then o
  else define k v o.

(** [Object.assign(o, src)]. *)
Definition assign (o src : list (string * V)) : list (string * V) :=
  fold_left (fun acc kv => put (fst kv) (snd kv) acc) src o.

(** Own keys are pairwise distinct. *)
Fixpoint uniqueKeys (o : list (string * V)) : bool :=
  match o with
  | (k, _) :: r => negb (has k r) && uniqueKeys r
  | [] => true
  end.

(** No key is an array index. *)
Fixpoint noIndex (o : list (string * V)) : bool :=
  match o with
  | (k, _) :: r =>
      match arrayIndex k with Some _ => false | None => noIndex r end
  | [] => true
  end.

(** Every array index among the keys is larger than [n]. *)
Fixpoint above (n : N) (o : list (string * V)) : bool :=
  match o with
  | (k, _) :: r =>
      match arrayIndex k with
      | Some n' => (n <? n')%N && above n r
      | None => above n r
      end
  | [] => true
  end.

(** The keys are in the order of enumeration: the array indices first,
    ascending, then the others. *)
Fixpoint ordered (o : list (string * V)) : bool :=
  match o with
  | (k, _) :: r =>
      match arrayIndex k with
      | Some n => above n r && ordered r
      | None => noIndex r
      end
  | [] => true
  end.
End Props.
Arguments Read V : clear implicits.
End JsObject.

(** ** The JSON body model *)

Module Json.
Import JsNumber.

Unset Elimination Schemes.
Inductive JSONValue : Type :=
| JUndefined
| JNull
| JBool (b : bool)
| JNumber (n : number)
| JString (s : string)
| JArray (items : list JSONValue)
| JObject (props : list (string * JSONValue)).
Set Elimination Schemes.

Definition JSONObject : Type := list (string * JSONValue).

Inductive Result (T : Type) : Type :=
| Error (error : string)
| Ok (value : T).
Arguments Error {T} error.
Arguments Ok {T} value.

Definition isRecord (v : JSONValue) : bool :=
  match v with JObject _ => true | _ => false end.

(** [typeof v === "string" || typeof v === "number" ||
    typeof v === "boolean" || v === null]. *)
Definition isPrimitiveOrNull (v : JSONValue) : bool :=
  match v with
  | JString _ | JNumber _ | JBool _ | JNull => true
  | _ => false
  end.

(** [o[k]] as far as [typeof] tells a string, a number or a boolean:
    the value of an own property.  Without one the read gives
    [undefined], a method of [Object.prototype] or that object, and no
    test of [typeof] for a primitive tells these apart. *)
Definition prop (o : JSONObject) (k : string) : JSONValue :=
  match JsObject.get k o with Some v => v | None => JUndefined end.

(** [isRecord(o[k])]. *)
Definition isRecordRead (r : JsObject.Read JSONValue) : bool :=
  match r with
  | JsObject.Own v => isRecord v
  | JsObject.Prototype => true
  | _ => false
  end.

(** The own properties [{ ...o[k] }] copies: [Object.prototype] has
    none that is enumerable. *)
Definition spreadRead (r : JsObject.Read JSONValue) : JSONObject :=
  match r with
  | JsObject.Own (JObject o) => o
  | _ => []
  end.

(** [o[k]] when it is a string, a number, a boolean or [null]. *)
Definition primitiveRead (r : JsObject.Read JSONValue) : option JSONValue :=
  match r with
  | JsObject.Own v => if isPrimitiveOrNull v then Some v else None
  | _ => None
  end.

(** *** [JSON.stringify] *)

Definition dquote : ascii := "034"%char.

Definition hexChar (d : N) : ascii :=
  if (d <? 10)%N then ascii_of_N (48 + d) else ascii_of_N (87 + d).

(** One code unit inside a JSON string literal (QuoteJSONString). *)
Definition escapeChar (c : ascii) : string :=
  let n := N_of_ascii c in
  if (n =? 34)%N then String "\" (String dquote EmptyString)
  else if (n =? 92)%N then "\\"
  else if (n =? 8)%N then "\b"
  else if (n =? 9)%N then "\t"
  else if (n =? 10)%N then "\n"
  else if (n =? 12)%N then "\f"
  else if (n =? 13)%N then "\r"
  else if (n <? 32)%N then
    String "\" (String "u" (String "0" (String "0"
      (String (hexChar (n / 16))
              (String (hexChar (n mod 16)) EmptyString)))))
  else String c EmptyString.

Fixpoint quoteChars (s : string) : string :=
  match s with
  | String c r => escapeChar c ++ quoteChars r
  | EmptyString => EmptyString
  end.

Definition quote (s : string) : string :=
  String dquote (quoteChars s ++ String dquote EmptyString).

Definition isUndefined (v : JSONValue) : bool :=
  match v with JUndefined => true | _ => false end.

(** The text of a value inside an array or as a property value; an
    array hole of [undefined] and a non-finite number print as
    [null], a property whose value is [undefined] is left out. *)
Fixpoint stringifyValue (v : JSONValue) : string :=
  match v with
  | JUndefined | JNull => "null"
  | JBool true => "true"
  | JBool false => "false"
  | JNumber n => if isFinite n then toString n else "null"
  | JString s => quote s
  | JArray items =>
      "[" ++ JsString.join ","
               ((fix each (l : list JSONValue) : list string :=
                   match l with
                   | x :: r => stringifyValue x :: each r
                   | [] => []
                   end) items)
          ++ "]"
  | JObject props =>
      "{" ++ JsString.join ","
               ((fix each (l : list (string * JSONValue)) : list string :=
                   match l with
                   | (k, x) :: r =>
                       if isUndefined x then each r
                       else (quote k ++ ":" ++ stringifyValue x)%string
                              :: each r
                   | [] => []
                   end) props)
          ++ "}"
  end.

(** [JSON.stringify(v)]: [None] is the result [undefined]. *)
Definition JSON_stringify (v : JSONValue) : option string :=
  match v with
  | JUndefined => None
  | _ => Some (stringifyValue v)
  end.

(** [safeStringify] of the source. *)
Definition safeStringify (value : JSONValue) : string :=
  match value with
  | JUndefined => "undefined"
  | JString s => s
  | JNumber n => toString n
  | JBool true => "true"
  | JBool false => "false"
  | JNull => "null"
  | JArray _ | JObject _ => stringifyValue value
  end.

(** *** [JSON.parse] *)

Definition isJsonWs (c : ascii) : bool :=
  let n := N_of_ascii c in
  ((n =? 32) || (n =? 9) || (n =? 10) || (n =? 13))%N.

Fixpoint skipWs (s : string) : string :=
  match s with
  | String c r => if isJsonWs c then skipWs r else s
  | EmptyString => s
  end.

Definition hexValue (c : ascii) : option N :=
  let n := N_of_ascii c in
  if ((48 <=? n) && (n <=? 57))%N then Some (n - 48)%N
  else if ((97 <=? n) && (n <=? 102))%N then Some (n - 87)%N
  else if ((65 <=? n) && (n <=? 70))%N then Some (n - 55)%N
  else None.

Definition hex4 (a b c d : ascii) : option N :=
  match hexValue a, hexValue b, hexValue c, hexValue d with
  | Some x, Some y, Some z, Some w =>
      Some (((x * 16 + y) * 16 + z) * 16 + w)%N
  | _, _, _, _ => None
  end.

(** The code unit a one-letter escape stands for. *)
Definition unescape (e : ascii) : option ascii :=
  let n := N_of_ascii e in
  if ((n =? 34) || (n =? 92) || (n =? 47))%N then Some e
  else if (n =? 98)%N then Some "008"%char
  else if (n =? 102)%N then Some "012"%char
  else if (n =? 110)%N then Some "010"%char
  else if (n =? 114)%N then Some "013"%char
  else if (n =? 116)%N then Some "009"%char
  else None.

Definition consChar (c : ascii) (r : option (string * string))
  : option (string * string) :=
  match r with
  | Some (s, rest) => Some (String c s, rest)
  | None => None
  end.

(** The characters of a string literal after its opening quote, up to
    and including the closing one.  An escape for a code unit above
    U+00FF leaves the alphabet of the model and is refused. *)
Fixpoint parseChars (s : string) : option (string * string) :=
  match s with
  | EmptyString => None
  | String c r =>
      let n := N_of_ascii c in
      if (n =? 34)%N then Some (EmptyString, r)
      else if (n =? 92)%N then
        match r with
        | String e r2 =>
            match unescape e with
            | Some ch => consChar ch (parseChars r2)
            | None =>
                if (N_of_ascii e =? 117)%N then
                  match r2 with
                  | String h1 (String h2 (String h3 (String h4 r3))) =>
                      match hex4 h1 h2 h3 h4 with
                      | Some u =>
                          if (u <? 256)%N
                          then consChar (ascii_of_N u) (parseChars r3)
                          else None
                      | None => None
                      end
                  | _ => None
                  end
                else None
            end
        | EmptyString => None
        end
      else if (n <? 32)%N then None
      else consChar c (parseChars r)
  end.

Definition parseFraction (s : string) : option (string * string) :=
  match s with
  | String c r =>
      if Ascii.eqb c "." then
        match spanDigits r with
        | (String d fp, rest) => Some (String d fp, rest)
        | _ => None
        end
      else Some (EmptyString, s)
  | EmptyString => Some (EmptyString, s)
  end.

Definition parseExponent (s : string) : option (Z * string) :=
  match s with
  | String c r =>
      if Ascii.eqb c "e" || Ascii.eqb c "E" then
        let (neg, r1) :=
          match r with
          | String g r' =>
              if Ascii.eqb g "-" then (true, r')
              else if Ascii.eqb g "+" then (false, r')
              else (false, r)
          | EmptyString => (false, r)
          end in
        match spanDigits r1 with
        | (String d ds, rest) =>
            let x := Z.of_N (value (String d ds)) in
            Some (if neg then - x else x, rest)
        | _ => None
        end
      else Some (0, s)
  | EmptyString => Some (0, s)
  end.

(** A JSON number token: an optional minus sign, then 0 or a digit
    string that does not start with 0, then an optional fraction and an
    optional exponent. *)
Definition parseNumber (s : string) : option (number * string) :=
  let (neg, s1) :=
    match s with
    | String c r => if Ascii.eqb c "-" then (true, r) else (false, s)
    | EmptyString => (false, s)
    end in
  match s1 with
  | String c r =>
      if JsString.isDigit c then
        let (ip, s2) :=
          if Ascii.eqb c "0" then (String c EmptyString, r)
          else spanDigits s1 in
        match parseFraction s2 with
        | Some (fp, s3) =>
            match parseExponent s3 with
            | Some (ex, s4) => Some (ofParts neg ip fp ex, s4)
            | None => None
            end
        | None => None
        end
      else None
  | EmptyString => None
  end.

(** The object a sequence of members denotes: a repeated key keeps its
    first place and its last value. *)
Definition fromEntries (ms : list (string * JSONValue)) : JSONObject :=
  fold_left (fun acc kv => JsObject.define (fst kv) (snd kv) acc) ms [].

Definition literal (lit : string) (v : JSONValue) (s : string)
  : option (JSONValue * string) :=
  if JsString.isPrefix lit s
  then Some (v, JsString.drop (String.length lit) s)
  else None.

Fixpoint parseValue (fuel : nat) (s : string)
  : option (JSONValue * string) :=
  match fuel with
  | O => None
  | S f =>
      match s with
      | EmptyString => None
      | String c r =>
          if Ascii.eqb c dquote then
            match parseChars r with
            | Some (str, rest) => Some (JString str, rest)
            | None => None
            end
          else if Ascii.eqb c "[" then
            match skipWs r with
            | EmptyString => None
            | String d rest as r1 =>
                if Ascii.eqb d "]" then Some (JArray [], rest)
                else match parseElements f r1 with
                     | Some (items, rest') => Some (JArray items, rest')
                     | None => None
                     end
            end
          else if Ascii.eqb c "{" then
            match skipWs r with
            | EmptyString => None
            | String d rest as r1 =>
                if Ascii.eqb d "}" then Some (JObject [], rest)
                else match parseMembers f r1 with
                     | Some (ms, rest') =>
                         Some (JObject (fromEntries ms), rest')
                     | None => None
                     end
            end
          else if Ascii.eqb c "t" then literal "true" (JBool true) s
          else if Ascii.eqb c "f" then literal "false" (JBool false) s
          else if Ascii.eqb c "n" then literal "null" JNull s
          else match parseNumber s with
               | Some (num, rest) => Some (JNumber num, rest)
               | None => None
               end
      end
  end

with parseElements (fuel : nat) (s : string)
  : option (list JSONValue * string) :=
  match fuel with
  | O => None
  | S f =>
      match parseValue f s with
      | Some (v, r) =>
          match skipWs r with
          | String c r' =>
              if Ascii.eqb c "," then
                match parseElements f (skipWs r') with
                | Some (vs, rest) => Some (v :: vs, rest)
                | None => None
                end
              else if Ascii.eqb c "]" then Some ([v], r')
              else None
          | EmptyString => None
          end
      | None => None
      end
  end

with parseMembers (fuel : nat) (s : string)
  : option (list (string * JSONValue) * string) :=
  match fuel with
  | O => None
  | S f =>
      match s with
      | String q r =>
          if Ascii.eqb q dquote then
            match parseChars r with
            | Some (k, r1) =>
                match skipWs r1 with
                | String c r2 =>
                    if Ascii.eqb c ":" then
                      match parseValue f (skipWs r2) with
                      | Some (v, r3) =>
                          match skipWs r3 with
                          | String d r4 =>
                              if Ascii.eqb d "," then
                                match parseMembers f (skipWs r4) with
                                | Some (ms, rest) => Some ((k, v) :: ms, rest)
                                | None => None
                                end
                              else if Ascii.eqb d "}" then Some ([(k, v)], r4)
                              else None
                          | EmptyString => None
                          end
                      | None => None
                      end
                    else None
                | EmptyString => None
                end
            | None => None
            end
          else None
      | EmptyString => None
      end
  end.

(** [JSON.parse(text)]: [None] when it throws a SyntaxError. *)
Definition JSON_parse (text : string) : option JSONValue :=
  match parseValue (S (String.length text)) (skipWs text) with
  | Some (v, rest) => if JsString.isEmpty (skipWs rest) then Some v else None
  | None => None
  end.

(** [parseJsonValue] of the source. *)
Definition parseJsonValue (text : string) : Result JSONValue :=
  match JSON_parse text with
  | Some v => Ok v
  | None => Error "body is not valid JSON"
  end.

End Json.

(** ** Deep lookup, flattening and deep set over a JSON value *)

Module Body.
Import JsNumber Json.

(** The number of nodes of a value: a bound on the iterations of the
    stack loops below. *)
Fixpoint nodes (v : JSONValue) : nat :=
  match v with
  | JArray items =>
      S ((fix sum (l : list JSONValue) : nat :=
            match l with x :: r => (nodes x + sum r)%nat | [] => O end) items)
  | JObject props =>
      S ((fix sum (l : list (string * JSONValue)) : nat :=
            match l with
            | (_, x) :: r => (nodes x + sum r)%nat
            | [] => O
            end) props)
  | _ => 1%nat
  end.

(** [Object.values(o)]. *)
Definition values (o : JSONObject) : list JSONValue := map snd o.

(** The [while (stack.length > 0)] loop of [containsKeyDeep]; the head
    of the list is the top of the stack, so pushing [xs] in order puts
    [rev xs] in front. *)
Fixpoint containsKeyLoop (fuel : nat) (stack : list JSONValue)
         (key : string) : bool :=
  match fuel, stack with
  | S f, current :: rest =>
      match current with
      | JArray items => containsKeyLoop f (rev items ++ rest) key
      | JObject o =>
          if JsObject.isIn key o then true
          else containsKeyLoop f (rev (values o) ++ rest) key
      | _ => containsKeyLoop f rest key
      end
  | _, _ => false
  end.

Definition containsKeyDeep (value : JSONValue) (key : string) : bool :=
  containsKeyLoop (nodes value) [value] key.

(** What [current] is in the dotted branch of [getPrimitiveDeep]: a
    value of the body, the object [Object.prototype] or one of its
    methods. *)
Inductive Cursor : Type :=
| At (v : JSONValue)
| AtPrototype
| AtMethod.

(** One iteration of [for (const part of parts)]: [None] is the early
    [return undefined].  The prototype of [Object.prototype] is
    [null]. *)
Definition walkPart (current : Cursor) (part : string) : option Cursor :=
  match current with
  | At (JObject o) =>
      if JsObject.isIn part o then
        match JsObject.read part o with
        | JsObject.Own v => Some (At v)
        | JsObject.Prototype => Some AtPrototype
        | JsObject.Method => Some AtMethod
        | JsObject.Missing => Some (At JUndefined)
        end
      else None
  | AtPrototype =>
      if JsObject.inherited part then
        if String.eqb part "__proto__" then Some (At JNull)
        else Some AtMethod
      else None
  | _ => None
  end.

Fixpoint walkParts (current : Cursor) (parts : list string)
  : option Cursor :=
  match parts with
  | part :: rest =>
      match walkPart current part with
      | Some next => walkParts next rest
      | None => None
      end
  | [] => Some current
  end.

Fixpoint getPrimitiveLoop (fuel : nat) (stack : list JSONValue)
         (key : string) : JSONValue :=
  match fuel, stack with
  | S f, current :: rest =>
      match current with
      | JArray items => getPrimitiveLoop f (rev items ++ rest) key
      | JObject o =>
          match (if JsObject.isIn key o
                 then primitiveRead (JsObject.read key o) else None) with
          | Some v => v
          | None => getPrimitiveLoop f (rev (values o) ++ rest) key
          end
      | _ => getPrimitiveLoop f rest key
      end
  | _, _ => JUndefined
  end.

Definition getPrimitiveDeep (value : JSONValue) (key : string)
  : JSONValue :=
  if JsString.includesChar key "." then
    match walkParts (At value) (JsString.split "." key) with
    | Some (At current) =>
        if isPrimitiveOrNull current then current else JUndefined
    | _ => JUndefined
    end
  else getPrimitiveLoop (nodes value) [value] key.

(** [String(val)] for the primitives [getAllPrimitives] records. *)
Definition primitiveToString (val : JSONValue) : string :=
  safeStringify val.

Fixpoint getAllPrimitives (value : JSONValue) (prefix : string)
  : list (string * string) :=
  match value with
  | JArray items =>
      (fix each (l : list JSONValue) (i : nat)
           (result : list (string * string)) : list (string * string) :=
         match l with
         | x :: r =>
             each r (S i)
               (JsObject.assign result
                  (getAllPrimitives x
                     (prefix ++ "[" ++ digits (N.of_nat i) ++ "]")))
         | [] => result
         end) items O []
  | JObject props =>
      (fix each (l : list (string * JSONValue))
           (result : list (string * string)) : list (string * string) :=
         match l with
         | (key, val) :: r =>
             let path :=
               if JsString.isEmpty prefix then key
               else (prefix ++ "." ++ key)%string in
             each r
               (if isPrimitiveOrNull val
                then JsObject.put path (primitiveToString val) result
                else JsObject.assign result (getAllPrimitives val path))
         | [] => result
         end) props []
  | _ => []
  end.

(** The loop of [setDeep] over [parts], on the clone [current].  The
    object a write puts under [part] is the one the rest of the loop
    writes to.  A write to [__proto__] that finds no own property hands
    that object to the accessor of [Object.prototype]: what is written
    to it from then on is no own property of the result. *)
Fixpoint setParts (current : JSONObject) (parts : list string)
         (value : JSONValue) : JSONObject :=
  match parts with
  | [] => current
  | [lastPart] => JsObject.put lastPart value current
  | part :: rest =>
      let next := JsObject.read part current in
      let child :=
        if negb (JsObject.isIn part current) || negb (isRecordRead next)
        then []
        else spreadRead next in
      JsObject.put part (JObject (setParts child rest value)) current
  end.

(** [setDeep] of the source; the result is given by its own
    properties. *)
Definition setDeep (obj : JSONObject) (path : string) (value : JSONValue)
  : JSONObject :=
  setParts obj (JsString.split "." path) value.

End Body.

(** ** The mutation generator *)

Module Generator.
Import JsNumber Json Body.

Record ValueModes : Type := {
  booleanTrue : bool;
  stringAdmin : bool;
  numberOne : bool;
  numberPlusOne : bool;
  numberMinusOne : bool
}.

Inductive Verification : Type :=
| Disabled
| FollowUp (url method body : string) (delayMs : Z).

Record ScanConfig : Type := {
  maxMutations : Z;
  includeBuiltInCandidates : bool;
  candidateFields : list string;
  customValues : list string;
  mutateExistingFields : bool;
  valueModes : ValueModes;
  confirmPersistence : bool;
  persistenceDelayMs : Z;
  verification : Verification
}.

Inductive ValueCandidate : Type :=
| Fixed (value : JSONValue)
| NumericDelta (delta : Z).

Record Mutation : Type := {
  field : string;
  value : JSONValue;
  bodyText : string
}.

Definition builtInCandidates : list string :=
  ["isAdmin"; "admin"; "is_staff"; "isStaff"; "isSuperuser";
   "role"; "roles"; "permissions"; "tier"; "plan"].

Definition rawCandidates (config : ScanConfig) : list string :=
  (if includeBuiltInCandidates config then builtInCandidates else [])
    ++ candidateFields config.

(** The first loop: trim, drop the empty, keep first occurrences.  The
    pair is ([seen], [candidates]). *)
Definition addCandidate (st : list string * list string) (raw : string)
  : list string * list string :=
  let (seen, candidates) := st in
  let trimmed := JsString.trim raw in
  if JsString.isEmpty trimmed then st
  else if existsb (String.eqb trimmed) seen then st
  else (trimmed :: seen, candidates ++ [trimmed]).

Definition candidatesOf (config : ScanConfig) : list string :=
  snd (fold_left addCandidate (rawCandidates config) ([], [])).

(** [Number(s)] for a string the decimal pattern matches. *)
Definition numberOfMatch (m : bool * string * string) : number :=
  let '(neg, ip, fp) := m in ofParts neg ip fp 0.

(** The value a non-empty trimmed custom entry stands for. *)
Definition customValue (trimmed : string) : JSONValue :=
  if String.eqb trimmed "true" then JBool true
  else if String.eqb trimmed "false" then JBool false
  else if String.eqb trimmed "null" then JUndefined
  else match matchDecimal trimmed with
       | Some m =>
           let num := numberOfMatch m in
           if isFinite num then JNumber num else JString trimmed
       | None =>
           if JsString.startsWith trimmed "{" && JsString.endsWith trimmed "}"
              || JsString.startsWith trimmed "[" && JsString.endsWith trimmed "]"
           then match parseJsonValue trimmed with
                | Ok v => v
                | Error _ => JString trimmed
                end
           else JString trimmed
       end.

Definition addCustom (acc : list ValueCandidate) (custom : string)
  : list ValueCandidate :=
  let trimmed := JsString.trim custom in
  if JsString.isEmpty trimmed then acc
  else acc ++ [Fixed (customValue trimmed)].

Definition valueCandidatesOf (config : ScanConfig) : list ValueCandidate :=
  let modes := valueModes config in
  let values :=
    (if booleanTrue modes then [JBool true] else [])
      ++ (if stringAdmin modes then [JString "admin"] else [])
      ++ (if numberOne modes then [JNumber (ofZ 1)] else []) in
  let fixed := map Fixed values in
  let plus := if numberPlusOne modes then [NumericDelta 1] else [] in
  let minus := if numberMinusOne modes then [NumericDelta (-1)] else [] in
  let all := fold_left addCustom (customValues config) (fixed ++ plus ++ minus) in
  match all with
  | [] => [Fixed (JBool true)]
  | _ => all
  end.

(** The value a candidate resolves to at a field whose present value is
    [existingValue]; [JUndefined] means skip. *)
Definition resolve (candidate : ValueCandidate) (existingValue : JSONValue)
  : JSONValue :=
  match candidate with
  | Fixed v => v
  | NumericDelta delta =>
      match existingValue with
      | JNumber n => JNumber (add n (ofZ delta))
      | JString s =>
          if isDigits s
          then JString (toString (add (ofParts false s EmptyString 0)
                                      (ofZ delta)))
          else JUndefined
      | _ => JUndefined
      end
  end.

Definition isNonFiniteNumber (v : JSONValue) : bool :=
  match v with JNumber n => negb (isFinite n) | _ => false end.

(** [typeof v === "string" || typeof v === "number" ||
    typeof v === "boolean"]. *)
Definition isPrimitive (v : JSONValue) : bool :=
  match v with JString _ | JNumber _ | JBool _ => true | _ => false end.

Definition full (maxMutations : Z) (mutations : list Mutation) : bool :=
  Z.of_nat (length mutations) >=? maxMutations.

(** The inner loop, over the value candidates of one field. *)
Fixpoint eachCandidate (original : JSONObject) (maxMutations : Z)
         (config : ScanConfig) (field : string)
         (cands : list ValueCandidate) (mutations : list Mutation)
  : list Mutation :=
  match cands with
  | [] => mutations
  | candidate :: rest =>
      let continue_ :=
        eachCandidate original maxMutations config field rest in
      if full maxMutations mutations then mutations
      else
        let existingValue := prop original field in
        let value := resolve candidate existingValue in
        if isUndefined value then continue_ mutations
        else if isNonFiniteNumber value then continue_ mutations
        else if mutateExistingFields config
                && isPrimitive existingValue
                && String.eqb (safeStringify existingValue)
                              (safeStringify value)
        then continue_ mutations
        else
          let mutated := setDeep original field value in
          continue_
            (mutations ++
               [{| field := field; value := value;
                   bodyText := stringifyValue (JObject mutated) |}])
  end.

(** The outer loop, over the candidate fields. *)
Fixpoint eachField (original : JSONObject) (maxMutations : Z)
         (config : ScanConfig) (valueCandidates : list ValueCandidate)
         (fields : list string) (mutations : list Mutation)
  : list Mutation :=
  match fields with
  | [] => mutations
  | field :: rest =>
      let continue_ :=
        eachField original maxMutations config valueCandidates rest in
      if full maxMutations mutations then mutations
      else if negb (mutateExistingFields config)
              && JsObject.isIn field original
      then continue_ mutations
      else continue_
             (eachCandidate original maxMutations config field
                valueCandidates mutations)
  end.

Definition buildMutations (original : JSONObject) (maxMutations : Z)
           (config : ScanConfig) : list Mutation :=
  eachField original maxMutations config (valueCandidatesOf config)
    (candidatesOf config) [].

End Generator.

(** ** Requests, responses and the host SDK *)

Module Http.
Import JsNumber Json.

(** A header record: name to list of values, in insertion order. *)
Definition Headers : Type := list (string * list string).

Record Request : Type := {
  getId : string;
  getMethod : string;
  getUrl : string;
  getHeaders : Headers;
  (** [getBody()?.toText()] *)
  getBodyText : option string
}.

Record Response : Type := {
  getCode : Z;
  (** [getBody()?.toText()] *)
  respBodyText : option string
}.

Record RequestSpec : Type := {
  specUrl : string;
  specMethod : string;
  specHeaders : Headers;
  specBody : option string
}.

(** [new RequestSpec(url)] *)
Definition newRequestSpec (url : string) : RequestSpec :=
  {| specUrl := url; specMethod := "GET"; specHeaders := [];
     specBody := None |}.

Definition setMethod (method : string) (spec : RequestSpec) : RequestSpec :=
  {| specUrl := specUrl spec; specMethod := method;
     specHeaders := specHeaders spec; specBody := specBody spec |}.

Definition setHeader (name value : string) (spec : RequestSpec)
  : RequestSpec :=
  {| specUrl := specUrl spec; specMethod := specMethod spec;
     specHeaders := JsObject.set name [value] (specHeaders spec);
     specBody := specBody spec |}.

Definition setBody (body : string) (spec : RequestSpec) : RequestSpec :=
  {| specUrl := specUrl spec; specMethod := specMethod spec;
     specHeaders := specHeaders spec; specBody := Some body |}.

(** [request.toSpec()] *)
Definition toSpec (request : Request) : RequestSpec :=
  {| specUrl := getUrl request; specMethod := getMethod request;
     specHeaders := getHeaders request; specBody := getBodyText request |}.

(** [request.getHeader(name)?.[0]] *)
Definition firstHeader (request : Request) (name : string)
  : option string :=
  match JsObject.get name (getHeaders request) with
  | Some (v :: _) => Some v
  | _ => None
  end.

(** What [sdk.requests.get] resolves to. *)
Record Saved : Type := {
  savedRequest : Request;
  savedResponse : option Response
}.

(** What [sdk.requests.send] resolves to. *)
Record Sent : Type := {
  sentRequest : Request;
  sentResponse : option Response
}.

(** The argument of [sdk.findings.create]. *)
Record Issue : Type := {
  title : string;
  description : string;
  reporter : string;
  dedupeKey : string;
  request : Request
}.

(** The host: a world and what each call does to it and answers.
    [requests_send] answers [None] when the promise rejects;
    [findings_create] answers the error it throws, if any;
    [stopRequested] tells whether a peer [stopScan] ran while the
    caller was suspended; [builtinText] is the text the engine gives
    for the method of [Object.prototype] of a name, [String(f)]. *)
Record SDK : Type := {
  World : Type;
  requests_get : World -> string -> option Saved * World;
  requests_send : World -> RequestSpec -> option Sent * World;
  findings_create : World -> Issue -> option string * World;
  stopRequested : World -> bool;
  builtinText : string -> string
}.

Inductive Event : Type :=
| EvGet (id : string) (answer : option Saved)
| EvSend (spec : RequestSpec) (answer : option Sent)
| EvCreate (issue : Issue) (thrown : option string)
| EvSleep (ms : Z).

(** The module state: the [shouldStopScan] variable, the host world and
    the host calls made so far. *)
Record State (sdk : SDK) : Type := {
  shouldStopScan : bool;
  world : World sdk;
  trace : list Event
}.
Arguments shouldStopScan {sdk} _.
Arguments world {sdk} _.
Arguments trace {sdk} _.

Inductive Outcome (A : Type) : Type :=
| Return (a : A)
| Throw (e : string).
Arguments Return {A} a.
Arguments Throw {A} e.

Definition M (sdk : SDK) (A : Type) : Type :=
  State sdk -> Outcome A * State sdk.

Section Monad.
Context {sdk : SDK}.

Definition ret {A} (a : A) : M sdk A := fun st => (Return a, st).

Definition bind {A B} (m : M sdk A) (k : A -> M sdk B) : M sdk B :=
  fun st =>
    match m st with
    | (Return a, st') => k a st'
    | (Throw e, st') => (Throw e, st')
    end.

Definition throw {A} (e : string) : M sdk A := fun st => (Throw e, st).

Definition readStop : M sdk bool :=
  fun st => (Return (shouldStopScan st), st).

Definition writeStop (b : bool) : M sdk unit :=
  fun st =>
    (Return tt,
     {| shouldStopScan := b; world := world st; trace := trace st |}).

(** The state after an [await] that left the world at [w]. *)
Definition resumed (st : State sdk) (w : World sdk) (ev : Event)
  : State sdk :=
  {| shouldStopScan := shouldStopScan st || stopRequested sdk w;
     world := w;
     trace := trace st ++ [ev] |}.

(** [await sdk.requests.get(id)] *)
Definition get (id : string) : M sdk (option Saved) :=
  fun st =>
    let (answer, w) := requests_get sdk (world st) id in
    (Return answer, resumed st w (EvGet id answer)).

(** [await sdk.requests.send(spec)]; [None] is the rejection. *)
Definition send (spec : RequestSpec) : M sdk (option Sent) :=
  fun st =>
    let (answer, w) := requests_send sdk (world st) spec in
    (Return answer, resumed st w (EvSend spec answer)).

(** [await sdk.findings.create(issue)]; [Some e] is the error thrown. *)
Definition create (issue : Issue) : M sdk (option string) :=
  fun st =>
    let (thrown, w) := findings_create sdk (world st) issue in
    (Return thrown, resumed st w (EvCreate issue thrown)).

(** [sleep(ms)]: a busy wait, no suspension. *)
Definition sleep (ms : Z) : M sdk unit :=
  fun st =>
    (Return tt,
     {| shouldStopScan := shouldStopScan st; world := world st;
        trace := trace st ++ [EvSleep ms] |}).
End Monad.

Declare Scope scan_scope.
Delimit Scope scan_scope with scan.
Notation "x <- m ;; k" := (bind m (fun x => k))
  (at level 61, m at next level, right associativity) : scan_scope.
Notation "m ;;; k" := (bind m (fun _ => k))
  (at level 61, right associativity) : scan_scope.

End Http.

(** ** Request helpers and the raw request parser *)

Module Adapter.
Import JsNumber Json Http.
Local Open Scope string_scope.

Definition PluginMarkerHeader : string := "X-Mass-Assignment-Radar".

Definition getContentType (request : Request) : option string :=
  match firstHeader request "Content-Type" with
  | Some v => Some v
  | None => firstHeader request "content-type"
  end.

Definition isJsonRequest (request : Request) : bool :=
  let byType :=
    match getContentType request with
    | Some contentType =>
        JsString.includes (JsString.toLowerCase contentType)
                          "application/json"
    | None => false
    end in
  if byType then true
  else match getBodyText request with
       | None => false
       | Some bodyText =>
           if (1000000 <? Z.of_nat (String.length bodyText))%Z then false
           else
             let trimmed := JsString.trimStart bodyText in
             if negb (JsString.startsWith trimmed "{") then false
             else match parseJsonValue trimmed with
                  | Ok v => isRecord v
                  | Error _ => false
                  end
       end.

Definition responseToText (response : option Response) : option string :=
  match response with
  | None => None
  | Some r => respBodyText r
  end.

Definition truncateText (text : option string) (max : nat)
  : option string :=
  match text with
  | None => None
  | Some t =>
      if (String.length t <=? max)%nat then Some t
      else Some (JsString.take max t)
  end.

Definition isHopHeader (lower : string) : bool :=
  String.eqb lower "content-length"
  || String.eqb lower "transfer-encoding"
  || String.eqb lower "host".

Fixpoint headersToPairs (headers : Headers) : list (string * string) :=
  match headers with
  | [] => []
  | (name, values) :: rest =>
      if isHopHeader (JsString.toLowerCase name) then headersToPairs rest
      else map (fun v => (name, v)) values ++ headersToPairs rest
  end.

(** The length of the scheme and of [scheme://] when [s] starts, in any
    letter case, with [http://] or [https://]. *)
Definition schemeLength (s : string) : option nat :=
  if String.eqb (JsString.toLowerCase (JsString.take 8 s)) "https://"
  then Some 5%nat
  else if String.eqb (JsString.toLowerCase (JsString.take 7 s)) "http://"
  then Some 4%nat
  else None.

Fixpoint hasWhiteSpace (s : string) : bool :=
  match s with
  | String c r => JsString.isWhiteSpace c || hasWhiteSpace r
  | EmptyString => false
  end.

(** The match of the pattern for a full URL: a scheme, then one or more
    characters none of which is white space. *)
Definition isFullUrl (s : string) : bool :=
  match schemeLength s with
  | Some n =>
      let rest := JsString.drop (n + 3) s in
      negb (JsString.isEmpty rest) && negb (hasWhiteSpace rest)
  | None => false
  end.

Definition isAuthorityEnd (c : ascii) : bool :=
  Ascii.eqb c "/" || Ascii.eqb c "?" || Ascii.eqb c "#".

Fixpoint authority (s : string) : string :=
  match s with
  | String c r =>
      if isAuthorityEnd c then EmptyString else String c (authority r)
  | EmptyString => EmptyString
  end.

(** The groups of the pattern for the base URL: scheme and host:port. *)
Definition matchBase (baseUrl : string) : option (string * string) :=
  match schemeLength baseUrl with
  | Some n =>
      let hostPort := authority (JsString.drop (n + 3) baseUrl) in
      if JsString.isEmpty hostPort then None
      else Some (JsString.take n baseUrl, hostPort)
  | None => None
  end.

Definition resolveUrl (input baseUrl : string) : Result string :=
  let trimmed := JsString.trim input in
  if JsString.isEmpty trimmed then Error "verification url is required"
  else if isFullUrl trimmed then Ok trimmed
  else match matchBase baseUrl with
       | None => Error "baseline url is invalid"
       | Some (scheme, hostPort) =>
           let origin := scheme ++ "://" ++ hostPort in
           let path :=
             if JsString.startsWith trimmed "/" then trimmed
             else "/" ++ trimmed in
           Ok (origin ++ path)
       end.

End Adapter.

Module Raw.
Import JsNumber Json Http.
Local Open Scope string_scope.

Record SaveRawRequestInput : Type := {
  host : string;
  port : Z;
  isTls : bool;
  raw : string
}.

Definition newline : string := String "010"%char EmptyString.
Definition tab : string := String "009"%char EmptyString.

(** The variables of the header loop: [headerPairs], [currentName],
    [currentValue]. *)
Record HeaderLoop : Type := {
  headerPairs : list (string * string);
  currentName : option string;
  currentValue : string
}.

Definition flush (st : HeaderLoop) : HeaderLoop :=
  match currentName st with
  | None => st
  | Some name =>
      let nameLower := JsString.toLowerCase name in
      {| headerPairs :=
           if negb (String.eqb nameLower "content-length")
              && negb (String.eqb nameLower "transfer-encoding")
           then (headerPairs st ++ [(name, currentValue st)])%list
           else headerPairs st;
         currentName := None;
         currentValue := EmptyString |}
  end.

(** One iteration of [for (const line of headerLines.slice(1))]. *)
Definition headerLine (st : HeaderLoop) (line : string) : HeaderLoop :=
  if JsString.startsWith line " " || JsString.startsWith line tab then
    match currentName st with
    | Some _ =>
        {| headerPairs := headerPairs st;
           currentName := currentName st;
           currentValue :=
             JsString.trim (currentValue st ++ " " ++ JsString.trim line) |}
    | None => st
    end
  else
    let st' := flush st in
    match JsString.indexOf line ":" with
    | None | Some O => st'
    | Some idx =>
        let name := JsString.trim (JsString.take idx line) in
        let value := JsString.trim (JsString.drop (S idx) line) in
        if JsString.isEmpty name then st'
        else {| headerPairs := headerPairs st';
                currentName := Some name;
                currentValue := value |}
    end.

Definition parseHeaders (lines : list string) : list (string * string) :=
  headerPairs
    (flush (fold_left headerLine lines
              {| headerPairs := []; currentName := None;
                 currentValue := EmptyString |})).

Definition parseRawRequestSpec (input : SaveRawRequestInput)
  : Result RequestSpec :=
  let host := JsString.trim (host input) in
  if JsString.isEmpty host then Error "host is required"
  else if ((port input <? 1) || (port input >? 65535))%Z
  then Error "port is invalid"
  else
    let rawNormalized := JsString.replaceCrLf (raw input) in
    let splitIdx := JsString.indexOf rawNormalized (newline ++ newline) in
    let headerBlock :=
      match splitIdx with
      | None => rawNormalized
      | Some i => JsString.take i rawNormalized
      end in
    let bodyText :=
      match splitIdx with
      | None => EmptyString
      | Some i => JsString.drop (i + 2) rawNormalized
      end in
    let headerLines :=
      filter (fun line => negb (JsString.isEmpty line))
             (map JsString.trimEnd (JsString.split "010" headerBlock)) in
    match headerLines with
    | [] => Error "request is empty"
    | requestLine :: headerRest =>
        match JsString.splitWs requestLine with
        | methodRaw :: targetRaw :: _ =>
            let scheme := if isTls input then "https" else "http" in
            let base :=
              scheme ++ "://" ++ host ++ ":" ++ toString (ofZ (port input)) in
            let url :=
              if JsString.startsWith targetRaw "http://"
                 || JsString.startsWith targetRaw "https://"
              then targetRaw
              else if JsString.startsWith targetRaw "/"
              then base ++ targetRaw
              else base ++ "/" ++ targetRaw in
            let spec := setMethod (JsString.trim methodRaw)
                                  (newRequestSpec url) in
            let spec :=
              fold_left (fun sp nv => setHeader (fst nv) (snd nv) sp)
                        (parseHeaders headerRest) spec in
            Ok (setBody bodyText spec)
        | _ => Error "invalid request line"
        end
    end.

End Raw.

(** ** Findings *)

Module Finding.
Import JsNumber Json Http.
Local Open Scope string_scope.

Inductive Kind : Type :=
| Reflected
| Persisted
| CodeChanged
| StateChanged
| NonJsonResponse
| NoResponse.

Definition kindName (k : Kind) : string :=
  match k with
  | Reflected => "Reflected"
  | Persisted => "Persisted"
  | CodeChanged => "CodeChanged"
  | StateChanged => "StateChanged"
  | NonJsonResponse => "NonJsonResponse"
  | NoResponse => "NoResponse"
  end.

Definition kind_eqb (a b : Kind) : bool :=
  String.eqb (kindName a) (kindName b).

Record ScanFinding : Type := {
  id : string;
  requestId : string;
  field : string;
  value : string;
  kind : Kind;
  baselineCode : option Z;
  mutatedCode : option Z;
  persistedCode : option Z;
  mutatedRequestId : option string;
  persistedRequestId : option string;
  verifyBaselineRequestId : option string;
  verifyRequestId : option string;
  baselineBodySnippet : option string;
  mutatedBodySnippet : option string;
  persistedBodySnippet : option string;
  message : string
}.

(** The separator of the message: space, U+2014 (as UTF-8), space. *)
Definition dash : string :=
  String " " (String "226" (String "128" (String "148" " "))).

Definition makeFinding
           (requestId field : string) (value : JSONValue) (kind : Kind)
           (baselineResponse mutatedResponse persistedResponse
              : option Response)
           (mutatedRequestId persistedRequestId
              verifyBaselineRequestId verifyRequestId : option string)
           (baselineBodySnippet mutatedBodySnippet persistedBodySnippet
              : option string)
           (details : string) : ScanFinding :=
  {| id := requestId ++ ":" ++ kindName kind ++ ":" ++ field ++ ":"
                     ++ safeStringify value;
     requestId := requestId;
     field := field;
     value := safeStringify value;
     kind := kind;
     baselineCode := option_map getCode baselineResponse;
     mutatedCode := option_map getCode mutatedResponse;
     persistedCode := option_map getCode persistedResponse;
     mutatedRequestId := mutatedRequestId;
     persistedRequestId := persistedRequestId;
     verifyBaselineRequestId := verifyBaselineRequestId;
     verifyRequestId := verifyRequestId;
     baselineBodySnippet := baselineBodySnippet;
     mutatedBodySnippet := mutatedBodySnippet;
     persistedBodySnippet := persistedBodySnippet;
     message := field ++ "=" ++ safeStringify value ++ dash ++ details |}.

End Finding.

(** ** The scan orchestrator *)

Module Scan.
Import JsNumber Json Body Generator Http Adapter.
Local Open Scope string_scope.
Local Open Scope scan_scope.

Record ScanTarget : Type := { requestId : string }.

Record ScanResult : Type := {
  baselineRequestId : string;
  findings : list Finding.ScanFinding
}.

(** [stopScan] of the source. *)
Definition stopScan {sdk : SDK} : M sdk unit := writeStop true.

(** What the mutation loop closes over. *)
Record Context : Type := {
  config : ScanConfig;
  baseline : Request;
  baselineId : string;
  originalBodyText : string;
  baseHeaderPairs : list (string * string);
  baselineResponse : option Response;
  baselineBodySnippet : option string;
  baselineJson : option (Result JSONValue);
  verifyBaselineResponse : option Response;
  verifyBaselineJson : option JSONObject;
  verifyBaselineRequestId : option string;
  verifyUrlResolved : option string;
  verifyBaselineBodySnippet : option string
}.

Definition applyHeaders (spec : RequestSpec)
           (headers : list (string * string)) : RequestSpec :=
  fold_left (fun sp nv => setHeader (fst nv) (snd nv) sp) headers spec.

Definition makeSpec (request : Request) (bodyText marker : string)
  : RequestSpec :=
  setHeader PluginMarkerHeader marker (setBody bodyText (toSpec request)).

(** [s || fallback] on strings. *)
Definition orElse (s fallback : string) : string :=
  if JsString.isEmpty s then fallback else s.

Definition verifySpec (url method body : string)
           (headers : list (string * string)) (marker : string)
  : RequestSpec :=
  setBody (orElse body EmptyString)
    (setHeader PluginMarkerHeader marker
       (applyHeaders (setMethod (orElse method "GET") (newRequestSpec url))
                     headers)).

Definition noisyKeys : list string :=
  ["id"; "createdAt"; "updatedAt"; "timestamp"; "time"; "iat"; "exp";
   "nonce"; "imageUrl"].

Definition isNoisy (path : string) : bool :=
  existsb (fun k => String.eqb path k || JsString.endsWith path ("." ++ k))
          noisyKeys.

(** One line of the [changed] list. *)
Definition changeLine (path baselineText val : string) : string :=
  path ++ ": " ++ baselineText ++ " -> " ++ val.

(** The [changed] list of the follow-up diff.  [baselinePrimitives[path]]
    is the text of an own property, or a member of [Object.prototype],
    which is not [undefined] and is no string: a method, printed as
    [builtinText] has it, or the prototype itself, printed
    [[object Object]]. *)
Fixpoint changedPaths (builtinText : string -> string)
         (baselinePrimitives mutatedPrimitives : list (string * string))
  : list string :=
  match mutatedPrimitives with
  | [] => []
  | (path, val) :: rest =>
      let more := changedPaths builtinText baselinePrimitives rest in
      match JsObject.read path baselinePrimitives with
      | JsObject.Own baselineVal =>
          if negb (String.eqb baselineVal val) && negb (isNoisy path)
          then changeLine path baselineVal val :: more
          else more
      | JsObject.Method =>
          if negb (isNoisy path)
          then changeLine path (builtinText path) val :: more
          else more
      | JsObject.Prototype =>
          if negb (isNoisy path)
          then changeLine path "[object Object]" val :: more
          else more
      | JsObject.Missing => more
      end
  end.

Definition baselineHadKey (ctx : Context) (field : string) : bool :=
  match baselineJson ctx with
  | Some (Ok v) => containsKeyDeep v field
  | _ => false
  end.

Section WithSdk.
Variable sdk : SDK.

Definition numberText (code : Z) : string := toString (ofZ code).

(** The follow-up state diff of one mutation. *)
Definition followUp (ctx : Context) (mutation : Mutation)
           (mutatedRequestId : string)
           (findings : list Finding.ScanFinding)
  : M sdk (list Finding.ScanFinding) :=
  match verification (config ctx), verifyBaselineJson ctx,
        verifyUrlResolved ctx, verifyBaselineRequestId ctx with
  | FollowUp _ method body delayMs, Some baselineObject, Some url,
    Some baselineVerifyId =>
      (if (delayMs >? 0)%Z then sleep delayMs else ret tt) ;;;
      verifySent <- send (verifySpec url method body (baseHeaderPairs ctx)
                                     "verify-mutated") ;;
      match verifySent with
      | Some sent =>
          match sentResponse sent with
          | Some response =>
              match responseToText (Some response) with
              | Some verifyText =>
                  match parseJsonValue verifyText with
                  | Ok (JObject parsed) =>
                      let baselinePrimitives :=
                        getAllPrimitives (JObject baselineObject) EmptyString in
                      let mutatedPrimitives :=
                        getAllPrimitives (JObject parsed) EmptyString in
                      let changed :=
                        changedPaths (builtinText sdk) baselinePrimitives
                                     mutatedPrimitives in
                      match changed with
                      | [] => ret findings
                      | _ =>
                          ret (findings ++
                            [Finding.makeFinding
                               (baselineId ctx) (field mutation)
                               (value mutation) Finding.StateChanged
                               (verifyBaselineResponse ctx)
                               (Some response) None
                               (Some mutatedRequestId) None
                               (Some baselineVerifyId)
                               (Some (getId (sentRequest sent)))
                               (verifyBaselineBodySnippet ctx)
                               (truncateText (Some verifyText) 4000)
                               None
                               ("state changed via follow-up ("
                                  ++ JsString.join ", " changed ++ ")")])%list
                      end
                  | _ => ret findings
                  end
              | None => ret findings
              end
          | None => ret findings
          end
      | None => ret findings
      end
  | _, _, _, _ => ret findings
  end.

(** The persistence probe, run after a [Reflected] finding. *)
Definition persistenceProbe (ctx : Context) (mutation : Mutation)
           (mutatedResponse : Response) (mutatedRequestId : string)
           (mutatedBodySnippet : option string)
           (findings : list Finding.ScanFinding)
  : M sdk (list Finding.ScanFinding) :=
  (if (persistenceDelayMs (config ctx) >? 0)%Z
   then sleep (persistenceDelayMs (config ctx)) else ret tt) ;;;
  persistedSent <- send (makeSpec (baseline ctx) (originalBodyText ctx)
                                  "persisted") ;;
  match persistedSent with
  | None => ret findings
  | Some sent =>
      let persistedResponse := sentResponse sent in
      let persistedRequestId := getId (sentRequest sent) in
      let persistedText := responseToText persistedResponse in
      let persistedBodySnippet := truncateText persistedText 4000 in
      match persistedText with
      | None => ret findings
      | Some text =>
          match parseJsonValue text with
          | Error _ => ret findings
          | Ok persistedJson =>
              let persistedTop :=
                getPrimitiveDeep persistedJson (field mutation) in
              if negb (isUndefined persistedTop)
                 && String.eqb (safeStringify persistedTop)
                               (safeStringify (value mutation))
              then
                ret (findings ++
                  [Finding.makeFinding
                     (baselineId ctx) (field mutation) (value mutation)
                     Finding.Persisted
                     (baselineResponse ctx) (Some mutatedResponse)
                     persistedResponse
                     (Some mutatedRequestId) (Some persistedRequestId)
                     None None
                     (baselineBodySnippet ctx) mutatedBodySnippet
                     persistedBodySnippet
                     "injected value present after baseline replay"])%list
              else ret findings
          end
      end
  end.

(** The body diff on the mutated response. *)
Definition bodyDiff (ctx : Context) (mutation : Mutation)
           (mutatedResponse : Response) (mutatedRequestId : string)
           (findings : list Finding.ScanFinding)
  : M sdk (list Finding.ScanFinding) :=
  let mutatedText := responseToText (Some mutatedResponse) in
  let mutatedBodySnippet := truncateText mutatedText 4000 in
  match mutatedText with
  | None => ret findings
  | Some text =>
      match parseJsonValue text with
      | Error _ =>
          ret (findings ++
            [Finding.makeFinding
               (baselineId ctx) (field mutation) (value mutation)
               Finding.NonJsonResponse
               (baselineResponse ctx) (Some mutatedResponse) None
               (Some mutatedRequestId) None None None
               (baselineBodySnippet ctx) mutatedBodySnippet None
               "response is not JSON"])%list
      | Ok mutatedJson =>
          let mutatedTop := getPrimitiveDeep mutatedJson (field mutation) in
          let baselineTop :=
            match baselineJson ctx with
            | Some (Ok v) => getPrimitiveDeep v (field mutation)
            | _ => JUndefined
            end in
          if negb (isUndefined mutatedTop)
             && String.eqb (safeStringify mutatedTop)
                           (safeStringify (value mutation))
          then
            let isNewKey := negb (baselineHadKey ctx (field mutation)) in
            let valueChanged :=
              isUndefined baselineTop
              || negb (String.eqb (safeStringify baselineTop)
                                  (safeStringify (value mutation))) in
            let findings' :=
              (findings ++
                [Finding.makeFinding
                   (baselineId ctx) (field mutation) (value mutation)
                   Finding.Reflected
                   (baselineResponse ctx) (Some mutatedResponse) None
                   (Some mutatedRequestId) None None None
                   (baselineBodySnippet ctx) mutatedBodySnippet None
                   (if isNewKey then "response contains injected key"
                    else if valueChanged
                    then "response contains overridden value"
                    else "response echoed injected value")])%list in
            if confirmPersistence (config ctx)
            then persistenceProbe ctx mutation mutatedResponse
                   mutatedRequestId mutatedBodySnippet findings'
            else ret findings'
          else ret findings
      end
  end.

(** The body of [for (const mutation of mutations)], after the
    cancellation check; the result is the [findings] array after it. *)
Definition processMutation (ctx : Context) (mutation : Mutation)
           (findings : list Finding.ScanFinding)
  : M sdk (list Finding.ScanFinding) :=
  sent <- send (makeSpec (baseline ctx) (bodyText mutation) "mutated") ;;
  match sent with
  | None =>
      ret (findings ++
        [Finding.makeFinding
           (baselineId ctx) (field mutation) (value mutation)
           Finding.NoResponse
           (baselineResponse ctx) None None None None None None
           (baselineBodySnippet ctx) None None
           "failed to send request"])%list
  | Some s =>
      match sentResponse s with
      | None => throw "TypeError: mutatedResponse is undefined"
      | Some mutatedResponse =>
          let mutatedRequestId := getId (sentRequest s) in
          let mutatedCode := getCode mutatedResponse in
          let findings1 :=
            match option_map getCode (baselineResponse ctx) with
            | Some baselineCode =>
                if negb (mutatedCode =? baselineCode)%Z then
                  (findings ++
                    [Finding.makeFinding
                       (baselineId ctx) (field mutation) (value mutation)
                       Finding.CodeChanged
                       (baselineResponse ctx) (Some mutatedResponse) None
                       (Some mutatedRequestId) None None None
                       (baselineBodySnippet ctx) None None
                       ("status code changed " ++ numberText baselineCode
                          ++ " -> " ++ numberText mutatedCode)])%list
                else findings
            | None => findings
            end in
          findings2 <- followUp ctx mutation mutatedRequestId findings1 ;;
          bodyDiff ctx mutation mutatedResponse mutatedRequestId findings2
      end
  end.

Fixpoint mutationLoop (ctx : Context) (mutations : list Mutation)
         (findings : list Finding.ScanFinding)
  : M sdk (list Finding.ScanFinding) :=
  match mutations with
  | [] => ret findings
  | mutation :: rest =>
      stop <- readStop ;;
      if stop then ret findings
      else
        findings' <- processMutation ctx mutation findings ;;
        mutationLoop ctx rest findings'
  end.

(** The verification state captured before the mutation loop. *)
Record VerifyBaseline : Type := {
  vbResponse : option Response;
  vbJson : option JSONObject;
  vbRequestId : option string;
  vbUrlResolved : option string;
  vbBodySnippet : option string
}.

Definition noVerification : VerifyBaseline :=
  {| vbResponse := None; vbJson := None; vbRequestId := None;
     vbUrlResolved := None; vbBodySnippet := None |}.

(** The [if (config.verification.kind === "FollowUp")] block before
    the loop. *)
Definition verifyBaseline (config : ScanConfig) (baseUrl : string)
           (baseHeaderPairs : list (string * string))
  : M sdk (Result VerifyBaseline) :=
  match verification config with
  | Disabled => ret (Ok noVerification)
  | FollowUp url method body _ =>
      match resolveUrl url baseUrl with
      | Error e => ret (Error e)
      | Ok resolved =>
          verifySent <- send (verifySpec resolved method body
                                         baseHeaderPairs "verify-baseline") ;;
          match verifySent with
          | None => ret (Error "failed to send verification request")
          | Some sent =>
              match sentResponse sent with
              | None =>
                  ret (Error "verification request has no response")
              | Some response =>
                  let verifyText := responseToText (Some response) in
                  ret (Ok
                    {| vbResponse := Some response;
                       vbJson :=
                         match verifyText with
                         | Some text =>
                             match parseJsonValue text with
                             | Ok (JObject parsed) => Some parsed
                             | _ => None
                             end
                         | None => None
                         end;
                       vbRequestId := Some (getId (sentRequest sent));
                       vbUrlResolved := Some resolved;
                       vbBodySnippet := truncateText verifyText 4000 |})
              end
          end
      end
  end.

(** The bounds on the configuration, in the order the source tests
    them; [None] when all hold. *)
Definition configError (config : ScanConfig) : option string :=
  if (maxMutations config <? 1)%Z
  then Some "maxMutations must be >= 1"
  else if (maxMutations config >? 256)%Z
  then Some "maxMutations must be <= 256"
  else if (persistenceDelayMs config <? 0)%Z
  then Some "persistenceDelayMs must be >= 0"
  else if (persistenceDelayMs config >? 10000)%Z
  then Some "persistenceDelayMs must be <= 10000"
  else if (Z.of_nat (length (candidateFields config)) >? 5000)%Z
  then Some "candidateFields is too large"
  else match verification config with
       | FollowUp _ _ _ delayMs =>
           if (delayMs <? 0)%Z
           then Some "verification.delayMs must be >= 0"
           else if (delayMs >? 10000)%Z
           then Some "verification.delayMs must be <= 10000"
           else None
       | Disabled => None
       end.

(** The baseline response: the stored one, or the answer to a fresh
    send of the original body. *)
Definition ensureBaseline (request : Request) (originalBodyText : string)
           (stored : option Response)
  : M sdk (Result (option Response)) :=
  match stored with
  | Some r => ret (Ok (Some r))
  | None =>
      sent <- send (makeSpec request originalBodyText "baseline") ;;
      match sent with
      | Some s => ret (Ok (sentResponse s))
      | None => ret (Error "failed to send baseline request")
      end
  end.

Definition runScan (target : ScanTarget) (config : ScanConfig)
  : M sdk (Result ScanResult) :=
  writeStop false ;;;
  match configError config with
  | Some e => ret (Error e)
  | None =>
  let trimmedRequestId := JsString.trim (requestId target) in
  if JsString.isEmpty trimmedRequestId
  then ret (Error "requestId is required")
  else
  saved <- get trimmedRequestId ;;
  match saved with
  | None => ret (Error ("request " ++ trimmedRequestId ++ " not found"))
  | Some saved =>
  let request := savedRequest saved in
  let baseUrl := getUrl request in
  let baseHeaderPairs := headersToPairs (getHeaders request) in
  if negb (isJsonRequest request)
  then ret (Error "request Content-Type is not application/json")
  else
  match getBodyText request with
  | None => ret (Error "request body is empty")
  | Some bodyText =>
  match parseJsonValue bodyText with
  | Error e => ret (Error e)
  | Ok (JObject originalJson) =>
      ensured <- ensureBaseline request bodyText (savedResponse saved) ;;
      match ensured with
      | Error e => ret (Error e)
      | Ok baselineResponse =>
      let baselineText := responseToText baselineResponse in
      verified <- verifyBaseline config baseUrl baseHeaderPairs ;;
      match verified with
      | Error e => ret (Error e)
      | Ok vb =>
      let mutations :=
        buildMutations originalJson (maxMutations config) config in
      match mutations with
      | [] =>
          ret (Error
            "no mutations generated (all candidate fields already exist in request body)")
      | _ =>
          let ctx :=
            {| config := config;
               baseline := request;
               baselineId := trimmedRequestId;
               originalBodyText := bodyText;
               baseHeaderPairs := baseHeaderPairs;
               baselineResponse := baselineResponse;
               baselineBodySnippet := truncateText baselineText 4000;
               baselineJson := option_map parseJsonValue baselineText;
               verifyBaselineResponse := vbResponse vb;
               verifyBaselineJson := vbJson vb;
               verifyBaselineRequestId := vbRequestId vb;
               verifyUrlResolved := vbUrlResolved vb;
               verifyBaselineBodySnippet := vbBodySnippet vb |} in
          findings <- mutationLoop ctx mutations [] ;;
          ret (Ok {| baselineRequestId := trimmedRequestId;
                     findings := findings |})
      end
      end
      end
  | Ok _ => ret (Error "request JSON body must be an object")
  end
  end
  end
  end.

End WithSdk.
End Scan.

(** ** The findings writer *)

Module Sink.
Import Json Http.
Local Open Scope string_scope.
Local Open Scope scan_scope.

(** One element of [CreateFindingsInput.findings]. *)
Record FindingInput : Type := {
  field : string;
  value : string;
  kind : Finding.Kind;
  message : string;
  mutatedRequestId : option string;
  persistedRequestId : option string;
  verifyRequestId : option string
}.

Record CreateFindingsInput : Type := {
  requestId : string;
  findings : list FindingInput
}.

Record CreateFindingsResult : Type := { created : nat }.

Definition isDefined {A} (o : option A) : bool :=
  match o with Some _ => true | None => false end.

Definition describe (trimmedRequestId : string) (finding : FindingInput)
  : string :=
  let lines : list string :=
    ([message finding;
      ("Baseline ID: " ++ trimmedRequestId)%string;
      ("Value: " ++ value finding)%string]
     ++ match mutatedRequestId finding with
        | Some m => [("Mutated ID: " ++ m)%string]
        | None => []
        end
     ++ match persistedRequestId finding with
        | Some p => [("Persisted ID: " ++ p)%string]
        | None => []
        end)%list in
  JsString.join (String "010"%char EmptyString) lines.

Section WithSdk.
Variable sdk : SDK.

(** The lookup of one id, falling back to the request already held. *)
Definition lookupOr (requestToAttach : Request) (id : string)
  : M sdk Request :=
  found <- get id ;;
  match found with
  | Some s => ret (savedRequest s)
  | None => ret requestToAttach
  end.

(** The [if / else if / else if] that picks [requestToAttach]. *)
Definition attachRequest (saved : Saved) (finding : FindingInput)
  : M sdk Request :=
  let requestToAttach := savedRequest saved in
  if Finding.kind_eqb (kind finding) Finding.StateChanged
     && isDefined (verifyRequestId finding)
  then match verifyRequestId finding with
       | Some id => lookupOr requestToAttach id
       | None => ret requestToAttach
       end
  else if Finding.kind_eqb (kind finding) Finding.Persisted
          && isDefined (persistedRequestId finding)
  then match persistedRequestId finding with
       | Some id => lookupOr requestToAttach id
       | None => ret requestToAttach
       end
  else match mutatedRequestId finding with
       | Some id => lookupOr requestToAttach id
       | None => ret requestToAttach
       end.

(** One iteration of [for (const finding of input.findings)]; the
    answer is the error thrown by the sink, if any. *)
Definition createOne (trimmedRequestId : string) (saved : Saved)
           (finding : FindingInput) : M sdk (option string) :=
  let title :=
    "Mass Assignment Radar: " ++ Finding.kindName (kind finding)
      ++ " " ++ field finding in
  let description := describe trimmedRequestId finding in
  let dedupeKey :=
    trimmedRequestId ++ ":" ++ Finding.kindName (kind finding)
      ++ ":" ++ field finding in
  requestToAttach <- attachRequest saved finding ;;
  create {| title := title;
            description := description;
            reporter := "Mass Assignment Radar";
            dedupeKey := dedupeKey;
            request := requestToAttach |}.

Fixpoint createLoop (trimmedRequestId : string) (saved : Saved)
         (todo : list FindingInput) (created : nat)
  : M sdk (Result CreateFindingsResult) :=
  match todo with
  | [] => ret (Ok {| created := created |})
  | finding :: rest =>
      thrown <- createOne trimmedRequestId saved finding ;;
      match thrown with
      | Some e => ret (Error ("failed to create findings: " ++ e))
      | None => createLoop trimmedRequestId saved rest (S created)
      end
  end.

Definition createFindings (input : CreateFindingsInput)
  : M sdk (Result CreateFindingsResult) :=
  let trimmedRequestId := JsString.trim (requestId input) in
  if JsString.isEmpty trimmedRequestId
  then ret (Error "requestId is required")
  else match findings input with
       | [] => ret (Error "findings is empty")
       | _ =>
           if (200 <? length (findings input))%nat
           then ret (Error "too many findings")
           else
             saved <- get trimmedRequestId ;;
             match saved with
             | None =>
                 ret (Error ("request " ++ trimmedRequestId
                                        ++ " not found"))
             | Some saved =>
                 createLoop trimmedRequestId saved (findings input) O
             end
       end.
End WithSdk.
End Sink.

(** ** Configurations used as examples *)

Module GeneratorExamplesData.
Import JsNumber Json Body Generator.
Local Open Scope string_scope.

Definition noModes : ValueModes :=
  {| booleanTrue := false; stringAdmin := false; numberOne := false;
     numberPlusOne := false; numberMinusOne := false |}.

(** A configuration within bounds whose only value source is the list
    of custom values. *)
Definition customOnly (fields customs : list string) : ScanConfig :=
  {| maxMutations := 16;
     includeBuiltInCandidates := false;
     candidateFields := fields;
     customValues := customs;
     mutateExistingFields := false;
     valueModes := noModes;
     confirmPersistence := false;
     persistenceDelayMs := 0;
     verification := Disabled |}.

(** A configuration within bounds whose only value is the string
    [admin]. *)
Definition adminOnly (fields : list string) : ScanConfig :=
  {| maxMutations := 16;
     includeBuiltInCandidates := false;
     candidateFields := fields;
     customValues := [];
     mutateExistingFields := false;
     valueModes :=
       {| booleanTrue := false; stringAdmin := true; numberOne := false;
          numberPlusOne := false; numberMinusOne := false |};
     confirmPersistence := false;
     persistenceDelayMs := 0;
     verification := Disabled |}.

End GeneratorExamplesData.

(** ** Notions the properties are stated with *)

Module Props.
Import JsNumber Json Body Generator.


(** No part of a path is [__proto__]. *)
Definition plainParts (parts : list string) : bool :=
  forallb (fun part => negb (String.eqb part "__proto__")) parts.

(** A finite number in canonical form. *)
Definition normalized (n : number) : bool :=
  match n with
  | Finite _ O => true
  | Finite m (S _) => negb (m mod 10 =? 0)
  | _ => false
  end.

(** The values [JSON.parse] can return: no [undefined], finite numbers
    in canonical form, objects whose keys are pairwise distinct and in
    the order of enumeration. *)
Fixpoint isJson (v : JSONValue) : bool :=
  match v with
  | JUndefined => false
  | JNull | JBool _ | JString _ => true
  | JNumber n => normalized n
  | JArray items =>
      (fix all (l : list JSONValue) : bool :=
         match l with x :: r => isJson x && all r | [] => true end) items
  | JObject props =>
      JsObject.uniqueKeys props
      && JsObject.ordered props
      && (fix all (l : list (string * JSONValue)) : bool :=
            match l with
            | (_, x) :: r => isJson x && all r
            | [] => true
            end) props
  end.

(** The bounds of the data model on a configuration. *)
Definition inBounds (config : ScanConfig) : bool :=
  (1 <=? maxMutations config) && (maxMutations config <=? 256)
  && (0 <=? persistenceDelayMs config)
  && (persistenceDelayMs config <=? 10000)
  && (Z.of_nat (length (candidateFields config)) <=? 5000)
  && match verification config with
     | FollowUp _ _ _ delayMs => (0 <=? delayMs) && (delayMs <=? 10000)
     | Disabled => true
     end.

(** The body of [m] parses to an object in which [getPrimitiveDeep] at
    the field of [m] finds the value of [m], stringwise. *)
Definition bodyCarriesValue (m : Mutation) : Prop :=
  exists o,
    JSON_parse (bodyText m) = Some (JObject o)
    /\ safeStringify (getPrimitiveDeep (JObject o) (field m))
       = safeStringify (value m).

(** The body of [m] parses to an object; and when the value of [m] is a
    string, a number or a boolean and no part of its field is
    [__proto__], [getPrimitiveDeep] at the field finds in that object
    the value of [m], stringwise. *)
Definition bodyCarriesPlainValue (m : Mutation) : Prop :=
  exists o,
    JSON_parse (bodyText m) = Some (JObject o)
    /\ (Generator.isPrimitive (value m) = true ->
        plainParts (JsString.split "." (field m)) = true ->
        safeStringify (getPrimitiveDeep (JObject o) (field m))
        = safeStringify (value m)).

(** The validation strings of the bounds a scan request violates, in
the order of the error taxonomy. *)
Definition violations (target : Scan.ScanTarget) (config : ScanConfig)
  : list string :=
  (if maxMutations config <? 1
   then ["maxMutations must be >= 1"%string] else [])
  ++ (if 256 <? maxMutations config
      then ["maxMutations must be <= 256"%string] else [])
  ++ (if persistenceDelayMs config <? 0
      then ["persistenceDelayMs must be >= 0"%string] else [])
  ++ (if 10000 <? persistenceDelayMs config
      then ["persistenceDelayMs must be <= 10000"%string] else [])
  ++ (if 5000 <? Z.of_nat (length (candidateFields config))
      then ["candidateFields is too large"%string] else [])
  ++ match verification config with
     | FollowUp _ _ _ delayMs =>
         (if delayMs <? 0
          then ["verification.delayMs must be >= 0"%string] else [])
         ++ (if 10000 <? delayMs
             then ["verification.delayMs must be <= 10000"%string] else [])
     | Disabled => []
     end
  ++ (if JsString.isEmpty (JsString.trim (Scan.requestId target))
      then ["requestId is required"%string] else []).

(** The state in which [shouldStopScan] is false and nothing else has
    changed. *)
Definition cleared {sdk : Http.SDK} (st : Http.State sdk) : Http.State sdk :=
  {| Http.shouldStopScan := false;
     Http.world := Http.world st;
     Http.trace := Http.trace st |}.

(** The text of a built-in function in one engine. *)
Definition nativeText (name : string) : string :=
  ("function " ++ name ++ "() { [native code] }")%string.

(** A host that stores nothing and answers nothing. *)
Definition silentSdk : Http.SDK :=
  {| Http.World := unit;
     Http.requests_get := fun w _ => (None, w);
     Http.requests_send := fun w _ => (None, w);
     Http.findings_create := fun w _ => (None, w);
     Http.stopRequested := fun _ => false;
     Http.builtinText := nativeText |}.

Definition silentState (stop : bool) : Http.State silentSdk :=
  Http.Build_State silentSdk stop tt [].

(** The attachment rule as the interface description words it: the
    verify request when the kind is StateChanged and its id is present
    and resolves; else the persisted request when the kind is Persisted
    and its id is present and resolves; else the mutated request when its
    id is present and resolves; else the baseline request. *)
Definition claimedAttachment (lookup : string -> option Http.Saved)
           (baseline : Http.Request) (finding : Sink.FindingInput)
  : Http.Request :=
  let resolve (id : option string) : option Http.Saved :=
    match id with Some i => lookup i | None => None end in
  match (if Finding.kind_eqb (Sink.kind finding) Finding.StateChanged
         then resolve (Sink.verifyRequestId finding) else None) with
  | Some s => Http.savedRequest s
  | None =>
      match (if Finding.kind_eqb (Sink.kind finding) Finding.Persisted
             then resolve (Sink.persistedRequestId finding) else None) with
      | Some s => Http.savedRequest s
      | None =>
          match resolve (Sink.mutatedRequestId finding) with
          | Some s => Http.savedRequest s
          | None => baseline
          end
      end
  end.

(** The one id a finding makes the writer look up: which id is decided
    by the kind and by which ids are present, not by what resolves. *)
Definition chosenId (finding : Sink.FindingInput) : option string :=
  match Sink.kind finding, Sink.verifyRequestId finding,
        Sink.persistedRequestId finding with
  | Finding.StateChanged, Some id, _ => Some id
  | Finding.Persisted, _, Some id => Some id
  | _, _, _ => Sink.mutatedRequestId finding
  end.

(** What the writer does for the findings [todo], as host calls: for
    each finding in turn, the lookup of its chosen id, if it has one,
    then the creation of an issue whose dedupe key is
    [<requestId>:<kind>:<field>] and whose request is the one the
    lookup answered with, [baseline] when there was no lookup or no
    answer; the calls end with the first issue the sink throws on. *)
Fixpoint wrote (trimmedRequestId : string) (baseline : Http.Request)
         (todo : list Sink.FindingInput) (evs : list Http.Event) : Prop :=
  match todo with
  | [] => evs = []
  | finding :: rest =>
      exists found issue thrown more,
        evs = (match chosenId finding with
               | Some id => [Http.EvGet id found]
               | None => []
               end ++ Http.EvCreate issue thrown :: more)%list
        /\ Http.dedupeKey issue
           = (trimmedRequestId ++ ":"
                ++ Finding.kindName (Sink.kind finding)
                ++ ":" ++ Sink.field finding)%string
        /\ Http.request issue
           = match chosenId finding, found with
             | Some _, Some s => Http.savedRequest s
             | _, _ => baseline
             end
        /\ match thrown with
           | None => wrote trimmedRequestId baseline rest more
           | Some _ => more = []
           end
  end.

(** A host whose request store is fixed and whose sink accepts every
    issue. *)
Definition storeSdk (store : list (string * Http.Saved)) : Http.SDK :=
  {| Http.World := list Http.Issue;
     Http.requests_get := fun w id => (JsObject.get id store, w);
     Http.requests_send := fun w _ => (None, w);
     Http.findings_create := fun w issue => (None, issue :: w);
     Http.stopRequested := fun _ => false;
     Http.builtinText := nativeText |}.

Definition storedRequest (id : string) : Http.Request :=
  {| Http.getId := id;
     Http.getMethod := "POST";
     Http.getUrl := "http://example.test/profile";
     Http.getHeaders := [];
     Http.getBodyText := None |}.

Definition stored (id : string) : string * Http.Saved :=
  (id, {| Http.savedRequest := storedRequest id;
          Http.savedResponse := None |}).

(** What the trace shows about a Persisted finding [f]: a request
    stamped [persisted] was sent, its answer carried the persisted
    request id of [f] and a body that parses as JSON, and
    [getPrimitiveDeep] at the field of [f] in that body stringifies to
    the value of [f]. *)
Definition probeEvidence (tr : list Http.Event) (f : Finding.ScanFinding)
  : Prop :=
  exists spec sent response text parsed,
    In (Http.EvSend spec (Some sent)) tr
    /\ JsObject.get Adapter.PluginMarkerHeader (Http.specHeaders spec)
       = Some ["persisted"%string]
    /\ Finding.persistedRequestId f = Some (Http.getId (Http.sentRequest sent))
    /\ Http.sentResponse sent = Some response
    /\ Http.respBodyText response = Some text
    /\ parseJsonValue text = Ok parsed
    /\ getPrimitiveDeep parsed (Finding.field f) <> JUndefined
    /\ safeStringify (getPrimitiveDeep parsed (Finding.field f))
       = Finding.value f.

(** [f] is the Persisted finding of the mutation whose Reflected finding
    is [g]. *)
Definition persistedAfter (config : ScanConfig) (tr : list Http.Event)
           (g f : Finding.ScanFinding) : Prop :=
  confirmPersistence config = true
  /\ Finding.kind g = Finding.Reflected
  /\ Finding.field g = Finding.field f
  /\ Finding.value g = Finding.value f
  /\ Finding.mutatedRequestId g = Finding.mutatedRequestId f
  /\ probeEvidence tr f.

(** A small lab server.  It remembers the body of the last mutated
    request; it echoes a mutated request, answers a [persisted] or
    [baseline] replay with what it remembers (the replayed body when it
    remembers nothing), and answers a verification request with the plan
    [pro] once it remembers something, [free] before. *)
Definition planText (plan : string) : string :=
  stringifyValue (JObject [("plan"%string, JString plan)]).

Definition labAnswer (id : string) (spec : Http.RequestSpec)
           (body : option string) : option Http.Sent :=
  Some {| Http.sentRequest :=
            {| Http.getId := id;
               Http.getMethod := Http.specMethod spec;
               Http.getUrl := Http.specUrl spec;
               Http.getHeaders := Http.specHeaders spec;
               Http.getBodyText := Http.specBody spec |};
          Http.sentResponse :=
            Some {| Http.getCode := 200; Http.respBodyText := body |} |}.

Definition labSend (w : option string) (spec : Http.RequestSpec)
  : option Http.Sent * option string :=
  match JsObject.get Adapter.PluginMarkerHeader (Http.specHeaders spec) with
  | Some [marker] =>
      if String.eqb marker "mutated"
      then (labAnswer "mutated-1" spec (Http.specBody spec), Http.specBody spec)
      else if String.eqb marker "persisted" || String.eqb marker "baseline"
      then (labAnswer "replay-1" spec
              (match w with Some b => Some b | None => Http.specBody spec end),
            w)
      else (labAnswer "verify-1" spec
              (Some (planText (match w with
                               | Some _ => "pro"
                               | None => "free"
                               end)%string)),
            w)
  | _ => (None, w)
  end.

Definition labBody : string :=
  stringifyValue (JObject [("username"%string, JString "u")]).

Definition labBaseline : Http.Request :=
  {| Http.getId := "1";
     Http.getMethod := "POST";
     Http.getUrl := "http://lab.test:3001/users/profile";
     Http.getHeaders := [("Content-Type"%string, ["application/json"%string])];
     Http.getBodyText := Some labBody |}.

Definition labSdk : Http.SDK :=
  {| Http.World := option string;
     Http.requests_get :=
       fun w id =>
         (if String.eqb id "1"
          then Some {| Http.savedRequest := labBaseline;
                       Http.savedResponse :=
                         Some {| Http.getCode := 200;
                                 Http.respBodyText := Some labBody |} |}
          else None, w);
     Http.requests_send := labSend;
     Http.findings_create := fun w _ => (None, w);
     Http.stopRequested := fun _ => false;
     Http.builtinText := nativeText |}.

Definition labStart : Http.State labSdk :=
  Http.Build_State labSdk false None [].

Definition labModes : ValueModes :=
  {| booleanTrue := true; stringAdmin := false; numberOne := false;
     numberPlusOne := false; numberMinusOne := false |}.

(** Inject [isAdmin = true] and confirm persistence. *)
Definition labConfig : ScanConfig :=
  {| maxMutations := 4;
     includeBuiltInCandidates := false;
     candidateFields := ["isAdmin"%string];
     customValues := [];
     mutateExistingFields := false;
     valueModes := labModes;
     confirmPersistence := true;
     persistenceDelayMs := 0;
     verification := Disabled |}.

Definition labScan
  : Http.Outcome (Result Scan.ScanResult) * Http.State labSdk :=
  Scan.runScan labSdk {| Scan.requestId := " 1 " |} labConfig labStart.

Definition findingsOf {sdk : Http.SDK}
           (run : Http.Outcome (Result Scan.ScanResult) * Http.State sdk)
  : list Finding.ScanFinding :=
  match fst run with
  | Http.Return (Ok r) => Scan.findings r
  | _ => []
  end.

Definition noFinding : Finding.ScanFinding :=
  Finding.makeFinding EmptyString EmptyString JNull Finding.NoResponse
    None None None None None None None None None None EmptyString.

(** A loop context with follow-up verification against [/me], whose
    baseline answer was the plan [free]. *)
Definition labVerifyConfig : ScanConfig :=
  {| maxMutations := 4;
     includeBuiltInCandidates := false;
     candidateFields := ["plan"%string; "role"%string];
     customValues := ["pro"%string];
     mutateExistingFields := true;
     valueModes := GeneratorExamplesData.noModes;
     confirmPersistence := false;
     persistenceDelayMs := 0;
     verification := FollowUp "/me" "GET" EmptyString 0 |}.

Definition labContext : Scan.Context :=
  {| Scan.config := labVerifyConfig;
     Scan.baseline := labBaseline;
     Scan.baselineId := "1";
     Scan.originalBodyText := labBody;
     Scan.baseHeaderPairs := Adapter.headersToPairs (Http.getHeaders labBaseline);
     Scan.baselineResponse :=
       Some {| Http.getCode := 200; Http.respBodyText := Some labBody |};
     Scan.baselineBodySnippet := Some labBody;
     Scan.baselineJson := Some (parseJsonValue labBody);
     Scan.verifyBaselineResponse :=
       Some {| Http.getCode := 200;
               Http.respBodyText := Some (planText "free") |};
     Scan.verifyBaselineJson := Some [("plan"%string, JString "free")];
     Scan.verifyBaselineRequestId := Some "verify-0"%string;
     Scan.verifyUrlResolved := Some "http://lab.test:3001/me"%string;
     Scan.verifyBaselineBodySnippet := Some (planText "free") |}.

Definition labMutations : list Mutation :=
  buildMutations [("username"%string, JString "u")] 4 labVerifyConfig.

End Props.

(** ** Notions the proofs are carried out with *)

Module Notions.
Import JsNumber Json Body Generator Http Adapter Scan Props.
Local Open Scope string_scope.

(** [m] is the mutation of field [f] by one of the candidates. *)
Definition emittedAt (original : JSONObject) (cands : list ValueCandidate)
           (f : string) (m : Mutation) : Prop :=
  field m = f
  /\ (exists c, In c cands /\ value m = resolve c (prop original f))
  /\ isUndefined (value m) = false
  /\ isNonFiniteNumber (value m) = false
  /\ bodyText m = stringifyValue (JObject (setDeep original f (value m))).

(** A header name that is neither Content-Length nor Transfer-Encoding,
    in any letter case. *)
Definition kept (name : string) : Prop :=
  JsString.toLowerCase name <> "content-length"
  /\ JsString.toLowerCase name <> "transfer-encoding".

(** Every parsed header pair has a kept name. *)
Definition allKept (pairs : list (string * string)) : Prop :=
  Forall (fun nv => kept (fst nv)) pairs.

(** Every header of a request spec has a kept name. *)
Definition headersKept (headers : Headers) : Prop :=
  Forall (fun h => kept (fst h)) headers.

(** The host calls of [st'] continue those of [st]. *)
Definition extends {sdk : SDK} (st st' : State sdk) : Prop :=
  exists evs, trace st' = (trace st ++ evs)%list.

(** No finding of [l] is Persisted unless the finding just before it,
    [prev] for the first, is its Reflected finding. *)
Fixpoint paired (config : ScanConfig) (tr : list Event)
         (prev : option Finding.ScanFinding) (l : list Finding.ScanFinding)
  : Prop :=
  match l with
  | [] => True
  | f :: r =>
      (Finding.kind f = Finding.Persisted ->
       match prev with
       | Some g => persistedAfter config tr g f
       | None => False
       end)
      /\ paired config tr (Some f) r
  end.

(** The two mutations of the lab loop, and the loop after the first and
    after both. *)
Definition labFirst : list Mutation := firstn 1 labMutations.

Definition labSecond : Mutation :=
  nth 1 labMutations {| field := EmptyString; value := JNull;
                        bodyText := EmptyString |}.

Definition afterFirst
  : Outcome (list Finding.ScanFinding) * State labSdk :=
  mutationLoop labSdk labContext labFirst [] labStart.

Definition afterAll
  : Outcome (list Finding.ScanFinding) * State labSdk :=
  mutationLoop labSdk labContext (labFirst ++ [labSecond]) [] labStart.

(** The list a loop returned, empty if it threw. *)
Definition returned {A} (o : Outcome (list A)) : list A :=
  match o with Return l => l | Throw _ => [] end.

(** Every character of [s] is a decimal digit. *)
Fixpoint allDigits (s : string) : bool :=
  match s with
  | String c r => JsString.isDigit c && allDigits r
  | EmptyString => true
  end.

(** What may follow a value inside a JSON text. *)
Definition delimiter (c : ascii) : bool :=
  Ascii.eqb c "," || Ascii.eqb c "]" || Ascii.eqb c "}".

(** [rest] is empty or starts with a delimiter. *)
Definition delimited (rest : string) : bool :=
  match rest with
  | EmptyString => true
  | String c _ => delimiter c
  end.

(** The texts of the members of an object that are printed. *)
Fixpoint membersText (props : list (string * JSONValue)) : list string :=
  match props with
  | (k, x) :: r =>
      if isUndefined x then membersText r
      else (quote k ++ ":" ++ stringifyValue x) :: membersText r
  | [] => []
  end.

(** The characters a printed value can start with. *)
Definition startsValue (c : ascii) : bool :=
  Ascii.eqb c dquote || Ascii.eqb c "[" || Ascii.eqb c "{"
  || Ascii.eqb c "t" || Ascii.eqb c "f" || Ascii.eqb c "n"
  || Ascii.eqb c "-" || JsString.isDigit c.

(** The fuel [parseValue] uses on the text of [v]: one unit for the
    value and one for each slot of an array or object. *)
Fixpoint cost (v : JSONValue) : nat :=
  match v with
  | JArray items =>
      S ((fix sum (l : list JSONValue) : nat :=
            match l with
            | x :: r => S (cost x + sum r)
            | [] => O
            end) items)
  | JObject props =>
      S ((fix sum (l : list (string * JSONValue)) : nat :=
            match l with
            | (_, x) :: r => S (cost x + sum r)
            | [] => O
            end) props)
  | _ => 1%nat
  end.

(** The fuel [parseElements] and [parseMembers] use. *)
Fixpoint costItems (l : list JSONValue) : nat :=
  match l with
  | x :: r => S (cost x + costItems r)
  | [] => O
  end.

Fixpoint costProps (l : list (string * JSONValue)) : nat :=
  match l with
  | (_, x) :: r => S (cost x + costProps r)
  | [] => O
  end.

(** A value is read back from its text, whatever delimiter follows. *)
Definition readsBack (v : JSONValue) : Prop :=
  forall fuel rest,
    (cost v <= fuel)%nat ->
    delimited rest = true ->
    parseValue fuel (stringifyValue v ++ rest) = Some (v, rest).

(** The text of one member of an object. *)
Definition memberText (kv : string * JSONValue) : string :=
  quote (fst kv) ++ ":" ++ stringifyValue (snd kv).

(** A candidate whose fixed value, when it is defined and no
    non-finite number, is a JSON value. *)
Definition sound (c : ValueCandidate) : Prop :=
  match c with
  | Fixed v =>
      isUndefined v = false -> isNonFiniteNumber v = false ->
      isJson v = true
  | NumericDelta _ => True
  end.

(** The number of nodes on the stack: what is left to visit. *)
Fixpoint stackNodes (stack : list JSONValue) : nat :=
  match stack with
  | v :: r => (nodes v + stackNodes r)%nat
  | [] => O
  end.

End Notions.

(** ** The other entry points of the backend *)

Module Rpc.
Import JsNumber Json Http Adapter Raw.
Local Open Scope string_scope.
Local Open Scope scan_scope.

Record RequestSummary : Type := {
  id : string;
  method : string;
  url : string;
  createdAt : string;
  hasResponse : bool
}.

Record RequestPreview : Type := {
  requestId : string;
  requestText : string;
  responseText : option string
}.

Definition isPluginGeneratedRequest (request : Request) : bool :=
  match firstHeader request PluginMarkerHeader with
  | Some _ => true
  | None =>
      match firstHeader request (JsString.toLowerCase PluginMarkerHeader) with
      | Some _ => true
      | None => false
      end
  end.

Definition formatHeaders (headers : Headers) : string :=
  JsString.join newline
    (flat_map (fun nv => map (fun v => fst nv ++ ": " ++ v) (snd nv))
              headers).

(** The longest body text a preview shows. *)
Definition previewLimit : nat := N.to_nat 200000.

(** [text ?? ""]. *)
Definition orEmpty (text : option string) : string :=
  match text with Some t => t | None => EmptyString end.

Section WithSdk.
Variable sdk : SDK.

(** [request.getCreatedAt().toISOString()] and [response.getHeaders()],
    two readings of host objects. *)
Variable createdAtText : Request -> string.
Variable responseHeaders : Response -> Headers.

(** The summary both [getRequestSummary] and [listJsonRequests] build. *)
Definition summaryOf (request : Request) (response : bool)
  : RequestSummary :=
  {| id := getId request;
     method := getMethod request;
     url := getUrl request;
     createdAt := createdAtText request;
     hasResponse := response |}.

Definition buildRequestPreview (requestId : string)
  : M sdk (Result RequestPreview) :=
  let trimmed := JsString.trim requestId in
  if JsString.isEmpty trimmed then ret (Error "requestId is required")
  else
    saved <- get trimmed ;;
    match saved with
    | None => ret (Error ("request " ++ trimmed ++ " not found"))
    | Some saved =>
        let request := savedRequest saved in
        let requestBody := truncateText (getBodyText request) previewLimit in
        let requestText :=
          JsString.join newline
            [getMethod request ++ " " ++ getUrl request;
             formatHeaders (getHeaders request);
             EmptyString;
             orEmpty requestBody] in
        match savedResponse saved with
        | None =>
            ret (Ok {| requestId := trimmed;
                       requestText := requestText;
                       responseText := None |})
        | Some response =>
            let responseBody :=
              truncateText (respBodyText response) previewLimit in
            let responseText :=
              JsString.join newline
                ["HTTP " ++ toString (ofZ (getCode response));
                 formatHeaders (responseHeaders response);
                 EmptyString;
                 orEmpty responseBody] in
            ret (Ok {| requestId := trimmed;
                       requestText := requestText;
                       responseText := Some responseText |})
        end
    end.

Definition saveRequestFromRaw (input : SaveRawRequestInput)
  : M sdk (Result RequestSummary) :=
  let rawTrimmed := JsString.trim (raw input) in
  if JsString.isEmpty rawTrimmed then ret (Error "raw request is empty")
  else
    match parseRawRequestSpec
            {| host := host input; port := port input;
               isTls := isTls input; raw := rawTrimmed |} with
    | Error e => ret (Error e)
    | Ok spec =>
        sent <- send spec ;;
        match sent with
        | None => ret (Error "failed to send request")
        | Some sent =>
            ret (Ok (summaryOf (sentRequest sent)
                               (Sink.isDefined (sentResponse sent))))
        end
    end.

(** The [map] callback of [listJsonRequests]; [None] is [undefined]. *)
Definition listed (item : Saved) : option RequestSummary :=
  let request := savedRequest item in
  if isPluginGeneratedRequest request then None
  else if negb (isJsonRequest request) then None
  else Some (summaryOf request (Sink.isDefined (savedResponse item))).

(** [items.filter(item => item !== undefined)]. *)
Fixpoint defined {A} (l : list (option A)) : list A :=
  match l with
  | Some x :: r => x :: defined r
  | None :: r => defined r
  | [] => []
  end.

(** [listJsonRequests]; [execute] is the host's answer to the query
    built, given the filter expression if one was set: the items in
    descending order of creation, or the error thrown. *)
Definition listJsonRequests
           (execute : option string -> Result (list Saved))
           (filter : string) (limit : Z)
  : Result (list RequestSummary) :=
  if (limit <? 1)%Z then Error "limit must be >= 1"
  else if (limit >? 5000)%Z then Error "limit must be <= 5000"
  else
    let trimmedFilter := JsString.trim filter in
    let query :=
      if negb (JsString.isEmpty trimmedFilter) then Some trimmedFilter
      else None in
    match execute query with
    | Error error => Error ("failed to execute query: " ++ error)
    | Ok items =>
        Ok (firstn (Z.to_nat limit) (defined (map listed items)))
    end.

Definition getRequestSummary (requestId : string)
  : M sdk (Result RequestSummary) :=
  let trimmed := JsString.trim requestId in
  if JsString.isEmpty trimmed then ret (Error "requestId is required")
  else
    saved <- get trimmed ;;
    match saved with
    | None => ret (Error ("request " ++ trimmed ++ " not found"))
    | Some saved =>
        ret (Ok (summaryOf (savedRequest saved)
                           (Sink.isDefined (savedResponse saved))))
    end.

End WithSdk.
End Rpc.

(** ** The form of the frontend that feeds the scan configuration *)

Module Frontend.
Local Open Scope string_scope.

(** [s.split(re)] for a pattern that matches one character of a
    class: never empty. *)
Fixpoint splitOn (isSep : ascii -> bool) (s : string) : list string :=
  match s with
  | EmptyString => [EmptyString]
  | String c r =>
      if isSep c then EmptyString :: splitOn isSep r
      else match splitOn isSep r with
           | h :: t => String c h :: t
           | [] => [String c EmptyString]
           end
  end.

(** The class of the pattern of [parseCandidateFields]: a comma or a
    line feed. *)
Definition isFieldSeparator (c : ascii) : bool :=
  Ascii.eqb c "," || Ascii.eqb c "010".

(** One iteration of the loop over [parts]; the pair is ([seen],
    [result]). *)
Definition pushUnseen (st : list string * list string) (item : string)
  : list string * list string :=
  let (seen, result) := st in
  if existsb (String.eqb item) seen then st
  else (item :: seen, (result ++ [item])%list).

Definition parseCandidateFields (text : string) : list string :=
  let parts :=
    filter (fun item => negb (JsString.isEmpty item))
           (map JsString.trim (splitOn isFieldSeparator text)) in
  snd (fold_left pushUnseen parts ([], [])).

(** One iteration of the loop of [displayedRequests]. *)
Definition mergeUnseen (st : list string * list Rpc.RequestSummary)
           (item : Rpc.RequestSummary)
  : list string * list Rpc.RequestSummary :=
  let (seen, merged) := st in
  if existsb (String.eqb (Rpc.id item)) seen then st
  else (Rpc.id item :: seen, (merged ++ [item])%list).

Definition displayedRequests (pinnedRequests requests : list Rpc.RequestSummary)
  : list Rpc.RequestSummary :=
  snd (fold_left mergeUnseen (pinnedRequests ++ requests)%list ([], [])).

(** The new value of [pinnedRequests]. *)
Definition upsertPinnedRequest (summary : Rpc.RequestSummary)
           (pinnedRequests : list Rpc.RequestSummary)
  : list Rpc.RequestSummary :=
  summary
    :: filter (fun r => negb (String.eqb (Rpc.id r) (Rpc.id summary)))
              pinnedRequests.

End Frontend.

(** ** Notions the further properties are stated with *)

Module Terms.
Import JsNumber Json Body Generator Http Adapter Scan.
Local Open Scope string_scope.

(** Some object inside [v], [v] included, has [key] as an own key or
    inherits it from [Object.prototype]. *)
Fixpoint keyInside (key : string) (v : JSONValue) : bool :=
  match v with
  | JArray items =>
      (fix any (l : list JSONValue) : bool :=
         match l with x :: r => keyInside key x || any r | [] => false end)
        items
  | JObject props =>
      JsObject.isIn key props
      || (fix any (l : list (string * JSONValue)) : bool :=
            match l with
            | (_, x) :: r => keyInside key x || any r
            | [] => false
            end) props
  | _ => false
  end.

(** A mutation worth sending: its value is not undefined, not a
    non-finite number and, when existing fields are mutated, not the
    text of the primitive already there. *)
Definition sendable (original : JSONObject) (config : ScanConfig)
           (m : Mutation) : bool :=
  negb (isUndefined (value m))
  && negb (isNonFiniteNumber (value m))
  && negb (mutateExistingFields config
           && Generator.isPrimitive (prop original (field m))
           && String.eqb (safeStringify (prop original (field m)))
                         (safeStringify (value m))).

(** A custom value that is empty once trimmed. *)
Definition blank (custom : string) : bool :=
  JsString.isEmpty (JsString.trim custom).

(** [Object.keys(o)]. *)
Definition keys {V} (o : list (string * V)) : list string := map fst o.

(** The keys once the new key [k], the array index [n], is among
    them: before the first key that is not a smaller array index. *)
Fixpoint placedAt (n : N) (k : string) (ks : list string) : list string :=
  match ks with
  | k' :: r =>
      match JsObject.arrayIndex k' with
      | Some n' => if (n' <? n)%N then k' :: placedAt n k r else k :: ks
      | None => k :: ks
      end
  | [] => [k]
  end.

(** The keys once the new key [k] is among them: an array index takes
    its place among the array indices, any other key goes last. *)
Definition placed (k : string) (ks : list string) : list string :=
  match JsObject.arrayIndex k with
  | Some n => placedAt n k ks
  | None => (ks ++ [k])%list
  end.

(** No character of [s] is a slash, a question mark or a hash. *)
Fixpoint authorityOnly (s : string) : bool :=
  match s with
  | String c r => negb (isAuthorityEnd c) && authorityOnly r
  | EmptyString => true
  end.

(** [s] is empty or starts with a slash, a question mark or a hash. *)
Definition afterAuthority (s : string) : bool :=
  match s with
  | String c _ => isAuthorityEnd c
  | EmptyString => true
  end.

(** The first part of a dotted path. *)
Definition firstPart (path : string) : string :=
  hd EmptyString (JsString.split "." path).

(** The values of the marker header the scan stamps its requests
    with. *)
Definition markers : list string :=
  ["baseline"; "verify-baseline"; "mutated"; "verify-mutated"; "persisted"].

(** The marker a request spec carries, if it carries exactly one. *)
Definition markerOf (spec : RequestSpec) : option string :=
  match JsObject.get PluginMarkerHeader (specHeaders spec) with
  | Some [marker] => Some marker
  | _ => None
  end.

Definition marked (spec : RequestSpec) : bool :=
  match markerOf spec with
  | Some marker => existsb (String.eqb marker) markers
  | None => false
  end.

(** The request specs a trace sent, in order. *)
Fixpoint sentSpecs (tr : list Event) : list RequestSpec :=
  match tr with
  | EvSend spec _ :: r => spec :: sentSpecs r
  | _ :: r => sentSpecs r
  | [] => []
  end.

(** The issues a trace handed to the sink, in order. *)
Fixpoint createdIssues (tr : list Event) : list Issue :=
  match tr with
  | EvCreate issue _ :: r => issue :: createdIssues r
  | _ :: r => createdIssues r
  | [] => []
  end.

(** The ids a trace looked up, in order. *)
Fixpoint lookedUp (tr : list Event) : list string :=
  match tr with
  | EvGet id _ :: r => id :: lookedUp r
  | _ :: r => lookedUp r
  | [] => []
  end.

Definition isMutated (spec : RequestSpec) : bool :=
  match markerOf spec with
  | Some marker => String.eqb marker "mutated"
  | None => false
  end.

(** The number of requests stamped [mutated] a trace sent. *)
Definition mutatedSends (tr : list Event) : nat :=
  length (filter isMutated (sentSpecs tr)).

(** A request as the host stores a spec it sent. *)
Definition requestOf (id : string) (spec : RequestSpec) : Request :=
  {| getId := id;
     getMethod := specMethod spec;
     getUrl := specUrl spec;
     getHeaders := specHeaders spec;
     getBodyText := specBody spec |}.

(** From [st] to [st'] the trace grew by sends of marked requests only,
    at most [n] of them stamped [mutated]. *)
Definition tally {sdk : SDK} (n : nat) (st st' : State sdk) : Prop :=
  exists evs,
    trace st' = (trace st ++ evs)%list
    /\ forallb marked (sentSpecs evs) = true
    /\ (mutatedSends evs <= n)%nat.

(** Whatever the state it starts in, [m] sends marked requests only, at
    most [n] of them stamped [mutated], and what it returns satisfies
    [Q]. *)
Definition sends {sdk : SDK} {A} (n : nat) (Q : A -> Prop) (m : M sdk A)
  : Prop :=
  forall st,
    tally n st (snd (m st))
    /\ match fst (m st) with Return a => Q a | Throw _ => True end.

(** A request saved from [spec] is left out by [listJsonRequests]. *)
Definition hidden (spec : RequestSpec) : Prop :=
  forall createdAtText id response,
    Rpc.listed createdAtText
               {| savedRequest := requestOf id spec;
                  savedResponse := response |} = None.

(** The finding [f] is attributed to the request [baselineId] and to
    one of [mutations], and its id is made of its own fields. *)
Definition attributed (baselineId : string) (mutations : list Mutation)
           (f : Finding.ScanFinding) : Prop :=
  Finding.requestId f = baselineId
  /\ (exists m, In m mutations
                /\ Finding.field f = field m
                /\ Finding.value f = safeStringify (value m))
  /\ Finding.id f
     = baselineId ++ ":" ++ Finding.kindName (Finding.kind f) ++ ":"
         ++ Finding.field f ++ ":" ++ Finding.value f.

(** What [runScan] answers with, when it answers [Ok]: the trimmed id
    of the target and findings attributed to mutations of the body. *)
Definition scanned (target : ScanTarget) (config : ScanConfig)
           (answer : Result ScanResult) : Prop :=
  match answer with
  | Ok r =>
      baselineRequestId r = JsString.trim (requestId target)
      /\ exists original,
           Forall (attributed (JsString.trim (requestId target))
                     (buildMutations original (maxMutations config) config))
                  (findings r)
  | Error _ => True
  end.

(** The budget of a configuration as a count. *)
Definition budget (config : ScanConfig) : nat :=
  Z.to_nat (Z.max 0 (maxMutations config)).

(** The object the body of a request parses to, if it does. *)
Definition bodyObject (request : Request) : option JSONObject :=
  match getBodyText request with
  | Some text =>
      match parseJsonValue text with
      | Ok (JObject o) => Some o
      | _ => None
      end
  | None => None
  end.

(** The title of the issue created for a finding. *)
Definition issueTitle (finding : Sink.FindingInput) : string :=
  "Mass Assignment Radar: " ++ Finding.kindName (Sink.kind finding)
    ++ " " ++ Sink.field finding.

(** A host that rejects every send and on which a peer asks to stop
    during every call. *)
Definition hastySdk : SDK :=
  {| World := unit;
     requests_get := fun w _ => (None, w);
     requests_send := fun w _ => (None, w);
     findings_create := fun w _ => (None, w);
     stopRequested := fun _ => true;
     builtinText := Props.nativeText |}.

(** The event is the send of a request stamped [marker]. *)
Definition stamped (marker : string) (ev : Event) : bool :=
  match ev with
  | EvSend spec _ =>
      match markerOf spec with
      | Some m => String.eqb m marker
      | None => false
      end
  | _ => false
  end.

(** No event is the send of a verification request. *)
Definition calm (evs : list Event) : bool :=
  forallb (fun ev => negb (stamped "verify-baseline" ev)
                     && negb (stamped "verify-mutated" ev)) evs.

(** The object the answer to a send parses to, if it does. *)
Definition answerObject (sent : Sent) : option JSONObject :=
  match sentResponse sent with
  | Some response =>
      match respBodyText response with
      | Some text =>
          match parseJsonValue text with
          | Ok (JObject o) => Some o
          | _ => None
          end
      | None => None
      end
  | None => None
  end.

(** Two flattenings differ at a path of both that is not noisy. *)
Definition differ (baselinePrimitives mutatedPrimitives
                     : list (string * string)) : Prop :=
  exists path old new,
    JsObject.get path baselinePrimitives = Some old
    /\ In (path, new) mutatedPrimitives
    /\ old <> new
    /\ isNoisy path = false.

(** If the event is a follow-up request whose answer differs from the
    verification baseline [baselineObject], a StateChanged finding of
    [findings] names that follow-up request and the baseline request
    [baselineId]. *)
Definition reported (baselineObject : option JSONObject)
           (baselineId : option string)
           (findings : list Finding.ScanFinding) (ev : Event) : Prop :=
  match ev with
  | EvSend spec (Some sent) =>
      markerOf spec = Some "verify-mutated" ->
      forall base parsed,
        baselineObject = Some base ->
        answerObject sent = Some parsed ->
        differ (getAllPrimitives (JObject base) EmptyString)
               (getAllPrimitives (JObject parsed) EmptyString) ->
        exists f,
          In f findings
          /\ Finding.kind f = Finding.StateChanged
          /\ Finding.verifyRequestId f = Some (getId (sentRequest sent))
          /\ Finding.verifyBaselineRequestId f = baselineId
  | _ => True
  end.

(** The events hold no capture of the verification baseline, no
    follow-up request when there is no baseline object, and every
    follow-up answer among them that differs from the baseline object
    is reported in [findings]. *)
Definition steady (baselineObject : option JSONObject)
           (baselineId : option string)
           (findings : list Finding.ScanFinding) (evs : list Event) : Prop :=
  existsb (stamped "verify-baseline") evs = false
  /\ (baselineObject = None ->
      existsb (stamped "verify-mutated") evs = false)
  /\ Forall (reported baselineObject baselineId findings) evs.

(** Whenever [m] returns, the findings [out] of what it returns
    include [fs], and the events it added are steady with respect to
    them. *)
Definition compares {sdk : SDK} {A} (baselineObject : option JSONObject)
           (baselineId : option string) (fs : list Finding.ScanFinding)
           (out : A -> list Finding.ScanFinding) (m : M sdk A) : Prop :=
  forall st a st',
    m st = (Return a, st') ->
    incl fs (out a)
    /\ exists evs,
         trace st' = (trace st ++ evs)%list
         /\ steady baselineObject baselineId (out a) evs.


(** The lab scan with the follow-up verification. *)
Definition labVerifyScan
  : Outcome (Result ScanResult) * State Props.labSdk :=
  runScan Props.labSdk {| requestId := "1" |} Props.labVerifyConfig
          Props.labStart.

(** A host on which every send is rejected and nobody asks to stop. *)
Definition unreachable (sdk : SDK) : Prop :=
  (forall w spec, fst (requests_send sdk w spec) = None)
  /\ (forall w, stopRequested sdk w = false).

End Terms.

(** * Properties *)

(** ** Objects as maps *)

Module JsObjectFacts.
Import Notions.
Import JsObject.
Section Props.
Context {V : Type}.
Implicit Types (o : list (string * V)) (k : string) (v : V).

Lemma has_set_same k v o : has k (set k v o) = true.
Proof.
  induction o as [|[k' v'] o IH]; simpl.
  - now rewrite String.eqb_refl.
  - destruct (String.eqb k k') eqn:E; simpl; rewrite E; auto.
Qed.

Lemma get_set_same k v o : get k (set k v o) = Some v.
Proof.
  induction o as [|[k' v'] o IH]; simpl.
  - now rewrite String.eqb_refl.
  - destruct (String.eqb k k') eqn:E; simpl; rewrite E; auto.
Qed.

Lemma get_set_other k k' v o :
  k <> k' -> get k' (set k v o) = get k' o.
Proof.
  intros neq. induction o as [|[k0 v0] o IH]; simpl.
  - destruct (String.eqb_spec k' k); congruence.
  - destruct (String.eqb_spec k k0) as [->|]; simpl.
    + destruct (String.eqb_spec k' k0); congruence.
    + now rewrite IH.
Qed.

Lemma has_get k o : has k o = true <-> get k o <> None.
Proof.
  induction o as [|[k' v'] o IH]; simpl.
  - split; congruence.
  - destruct (String.eqb k k'); simpl; [split; congruence | exact IH].
Qed.

Lemma has_set k k' v o :
  has k' (set k v o) = String.eqb k' k || has k' o.
Proof.
  induction o as [|[k0 v0] o IH]; simpl.
  - now rewrite orb_false_r.
  - destruct (String.eqb_spec k k0) as [->|]; simpl.
    + now destruct (String.eqb k' k0).
    + rewrite IH. now destruct (String.eqb k' k0), (String.eqb k' k).
Qed.

Lemma has_isIn k o : has k o = true -> isIn k o = true.
Proof. unfold isIn. now intros ->. Qed.

Lemma isIn_has k o : isIn k o = false -> has k o = false.
Proof. unfold isIn. now destruct (has k o). Qed.

Lemma read_own k o v : get k o = Some v -> read k o = Own v.
Proof. unfold read. now intros ->. Qed.

Lemma read_is_own k o v : read k o = Own v -> get k o = Some v.
Proof.
  unfold read. destruct (get k o); [congruence|].
  destruct (String.eqb k "__proto__"); [discriminate|].
  destruct (inherited k); discriminate.
Qed.

Lemma has_insertIndex n k k' v o :
  has k' (insertIndex n k v o) = String.eqb k' k || has k' o.
Proof.
  induction o as [|[k0 v0] o IH]; cbn [insertIndex has];
    [reflexivity|].
  destruct (arrayIndex k0) as [n0|]; [|reflexivity].
  destruct (n0 <? n)%N; [|reflexivity].
  cbn [has]. rewrite IH.
  now destruct (String.eqb k' k0), (String.eqb k' k).
Qed.

Lemma get_insertIndex_same n k v o :
  has k o = false -> get k (insertIndex n k v o) = Some v.
Proof.
  induction o as [|[k0 v0] o IH]; cbn [insertIndex has get].
  - now rewrite String.eqb_refl.
  - intros H. apply orb_false_iff in H as [Hk Ho].
    destruct (arrayIndex k0) as [n0|];
      [destruct (n0 <? n)%N|]; cbn [get];
      rewrite ?String.eqb_refl, ?Hk; auto.
Qed.

Lemma get_insertIndex_other n k k' v o :
  k <> k' -> get k' (insertIndex n k v o) = get k' o.
Proof.
  intros Hneq.
  assert (Hk : String.eqb k' k = false)
    by (apply String.eqb_neq; congruence).
  induction o as [|[k0 v0] o IH]; cbn [insertIndex get].
  - now rewrite Hk.
  - destruct (arrayIndex k0) as [n0|];
      [destruct (n0 <? n)%N|]; cbn [get]; rewrite ?Hk, ?IH; reflexivity.
Qed.

Lemma has_define k k' v o :
  has k' (define k v o) = String.eqb k' k || has k' o.
Proof.
  unfold define. destruct (has k o) eqn:Hk; [apply has_set|].
  destruct (arrayIndex k); [apply has_insertIndex | apply has_set].
Qed.

Lemma get_define_same k v o : get k (define k v o) = Some v.
Proof.
  unfold define. destruct (has k o) eqn:Hk; [apply get_set_same|].
  destruct (arrayIndex k);
    [now apply get_insertIndex_same | apply get_set_same].
Qed.

Lemma get_define_other k k' v o :
  k <> k' -> get k' (define k v o) = get k' o.
Proof.
  intros Hneq. unfold define.
  destruct (has k o); [now apply get_set_other|].
  destruct (arrayIndex k);
    [now apply get_insertIndex_other | now apply get_set_other].
Qed.

(** A write to a key other than [__proto__] creates or updates an own
    property. *)
Lemma put_plain k v o :
  String.eqb k "__proto__" = false -> put k v o = define k v o.
Proof. unfold put. intros ->. now rewrite andb_false_r. Qed.

(** A write to an own property updates it, whatever its name. *)
Lemma put_own k v o : has k o = true -> put k v o = define k v o.
Proof. unfold put. now intros ->. Qed.

(** A write to [__proto__] on an object without such an own property
    leaves the own properties as they are. *)
Lemma put_proto v o :
  has "__proto__" o = false -> put "__proto__" v o = o.
Proof. unfold put. now intros ->. Qed.

Lemma put_cases k v o : put k v o = o \/ put k v o = define k v o.
Proof.
  unfold put. destruct (negb (has k o) && String.eqb k "__proto__"); auto.
Qed.

(** *** Keys stay distinct and in the order of enumeration *)

Lemma set_fresh k v o : has k o = false -> set k v o = (o ++ [(k, v)])%list.
Proof.
  induction o as [|[k' v'] o IH]; simpl; [reflexivity|].
  intros H. apply orb_false_iff in H as [Hk Ho].
  now rewrite Hk, (IH Ho).
Qed.

Lemma has_app k (a b : list (string * V)) :
  has k (a ++ b)%list = has k a || has k b.
Proof.
  induction a as [|[k' v'] a IH]; simpl; [reflexivity|].
  now rewrite IH, orb_assoc.
Qed.

Lemma arrayIndex_canonical k n :
  arrayIndex k = Some n -> k = JsNumber.digits n.
Proof.
  unfold arrayIndex. destruct (JsNumber.isDigits k); [|discriminate].
  destruct (String.eqb_spec (JsNumber.digits (JsNumber.value k)) k)
    as [Heq|]; [|discriminate].
  cbn [andb]. destruct (_ <=? _)%N; [|discriminate].
  intros [= <-]. now rewrite Heq.
Qed.

Lemma arrayIndex_inj a b n :
  arrayIndex a = Some n -> arrayIndex b = Some n -> a = b.
Proof.
  intros Ha Hb. apply arrayIndex_canonical in Ha, Hb. congruence.
Qed.

Lemma uniqueKeys_set k v o :
  uniqueKeys o = true -> uniqueKeys (set k v o) = true.
Proof.
  induction o as [|[k' v'] o IH]; simpl; [reflexivity|].
  intros H. apply andb_true_iff in H as [Hk Ho].
  destruct (String.eqb_spec k k') as [->|Hneq]; simpl.
  - now rewrite Hk, Ho.
  - rewrite has_set, (IH Ho), andb_true_r.
    apply negb_true_iff in Hk. rewrite Hk, orb_false_r.
    apply negb_true_iff, String.eqb_neq. congruence.
Qed.

Lemma uniqueKeys_insertIndex n k v o :
  has k o = false -> uniqueKeys o = true ->
  uniqueKeys (insertIndex n k v o) = true.
Proof.
  induction o as [|[k' v'] o IH]; cbn [insertIndex has uniqueKeys];
    [reflexivity|].
  intros Hk Hu. apply orb_false_iff in Hk as [Hneq Hk].
  apply andb_true_iff in Hu as [Hk' Hu].
  assert (Hnew : uniqueKeys ((k, v) :: (k', v') :: o) = true).
  { cbn [uniqueKeys has]. now rewrite Hneq, Hk, Hk', Hu. }
  destruct (arrayIndex k') as [n'|]; [|exact Hnew].
  destruct (n' <? n)%N; [|exact Hnew].
  cbn [uniqueKeys]. rewrite has_insertIndex, (IH Hk Hu), andb_true_r.
  apply negb_true_iff in Hk'. rewrite Hk', orb_false_r.
  apply negb_true_iff. rewrite String.eqb_sym. exact Hneq.
Qed.

Lemma uniqueKeys_define k v o :
  uniqueKeys o = true -> uniqueKeys (define k v o) = true.
Proof.
  intros Hu. unfold define. destruct (has k o) eqn:Hk;
    [now apply uniqueKeys_set|].
  destruct (arrayIndex k);
    [now apply uniqueKeys_insertIndex | now apply uniqueKeys_set].
Qed.

Lemma uniqueKeys_put k v o :
  uniqueKeys o = true -> uniqueKeys (put k v o) = true.
Proof.
  intros Hu. destruct (put_cases k v o) as [->| ->];
    [exact Hu | now apply uniqueKeys_define].
Qed.

Lemma Forall_set (P : V -> Prop) k v o :
  P v -> Forall (fun kv => P (snd kv)) o ->
  Forall (fun kv => P (snd kv)) (set k v o).
Proof.
  intros Hv. induction 1 as [|[k' v'] o Hx Ho IH]; simpl.
  - constructor; [exact Hv | constructor].
  - destruct (String.eqb k k'); constructor; auto.
Qed.

Lemma Forall_insertIndex (P : V -> Prop) n k v o :
  P v -> Forall (fun kv => P (snd kv)) o ->
  Forall (fun kv => P (snd kv)) (insertIndex n k v o).
Proof.
  intros Hv. induction 1 as [|[k' v'] o Hx Ho IH]; cbn [insertIndex].
  - constructor; [exact Hv | constructor].
  - destruct (arrayIndex k') as [n'|];
      [destruct (n' <? n)%N|]; repeat constructor; auto.
Qed.

Lemma Forall_define (P : V -> Prop) k v o :
  P v -> Forall (fun kv => P (snd kv)) o ->
  Forall (fun kv => P (snd kv)) (define k v o).
Proof.
  intros Hv Ho. unfold define. destruct (has k o);
    [now apply Forall_set|].
  destruct (arrayIndex k);
    [now apply Forall_insertIndex | now apply Forall_set].
Qed.

Lemma Forall_put (P : V -> Prop) k v o :
  P v -> Forall (fun kv => P (snd kv)) o ->
  Forall (fun kv => P (snd kv)) (put k v o).
Proof.
  intros Hv Ho. destruct (put_cases k v o) as [->| ->];
    [exact Ho | now apply Forall_define].
Qed.

Lemma noIndex_above n o : noIndex o = true -> above n o = true.
Proof.
  induction o as [|[k v] o IH]; cbn [noIndex above]; [reflexivity|].
  destruct (arrayIndex k); [discriminate | exact IH].
Qed.

Lemma above_mono m n o :
  (m <= n)%N -> above n o = true -> above m o = true.
Proof.
  intros Hle. induction o as [|[k v] o IH]; cbn [above]; [reflexivity|].
  destruct (arrayIndex k) as [n'|]; [|exact IH].
  intros H. apply andb_true_iff in H as [Hn Ho].
  apply N.ltb_lt in Hn. rewrite (IH Ho), andb_true_r.
  apply N.ltb_lt. lia.
Qed.

Lemma noIndex_app (a b : list (string * V)) :
  noIndex (a ++ b)%list = noIndex a && noIndex b.
Proof.
  induction a as [|[k v] a IH]; cbn [app noIndex]; [reflexivity|].
  destruct (arrayIndex k); [reflexivity | exact IH].
Qed.

Lemma above_app n (a b : list (string * V)) :
  above n (a ++ b)%list = above n a && above n b.
Proof.
  induction a as [|[k v] a IH]; cbn [app above]; [reflexivity|].
  destruct (arrayIndex k); [|exact IH]. now rewrite IH, andb_assoc.
Qed.

(** What comes first in an ordered list is ordered. *)
Lemma ordered_prefix (a b : list (string * V)) :
  ordered (a ++ b)%list = true -> ordered a = true.
Proof.
  induction a as [|[k v] a IH]; cbn [app ordered]; [reflexivity|].
  destruct (arrayIndex k).
  - rewrite above_app. intros H.
    apply andb_true_iff in H as [Ha Ho].
    apply andb_true_iff in Ha as [Ha _]. now rewrite Ha, (IH Ho).
  - rewrite noIndex_app. intros H. now apply andb_true_iff in H as [Ha _].
Qed.

(** Replacing a value moves no key. *)
Lemma keys_set_own k v o :
  has k o = true -> map fst (set k v o) = map fst o.
Proof.
  induction o as [|[k' v'] o IH]; cbn [has set map fst]; [discriminate|].
  destruct (String.eqb k k'); cbn [map fst orb]; [reflexivity|].
  intros H. now rewrite (IH H).
Qed.

Lemma noIndex_keys (a b : list (string * V)) :
  map fst a = map fst b -> noIndex a = noIndex b.
Proof.
  revert b. induction a as [|[k v] a IH]; intros [|[k' v'] b];
    cbn [map fst noIndex]; try discriminate; [reflexivity|].
  intros [= -> H]. destruct (arrayIndex k'); [reflexivity | now apply IH].
Qed.

Lemma above_keys n (a b : list (string * V)) :
  map fst a = map fst b -> above n a = above n b.
Proof.
  revert b. induction a as [|[k v] a IH]; intros [|[k' v'] b];
    cbn [map fst above]; try discriminate; [reflexivity|].
  intros [= -> H]. rewrite (IH _ H). reflexivity.
Qed.

Lemma ordered_keys (a b : list (string * V)) :
  map fst a = map fst b -> ordered a = ordered b.
Proof.
  revert b. induction a as [|[k v] a IH]; intros [|[k' v'] b];
    cbn [map fst ordered]; try discriminate; [reflexivity|].
  intros [= -> H]. destruct (arrayIndex k').
  - now rewrite (above_keys _ _ _ H), (IH _ H).
  - now apply noIndex_keys.
Qed.

Lemma above_insertIndex m n k v o :
  arrayIndex k = Some n ->
  above m (insertIndex n k v o) = (m <? n)%N && above m o.
Proof.
  intros Hk. induction o as [|[k' v'] o IH]; cbn [insertIndex above].
  - now rewrite Hk.
  - destruct (arrayIndex k') as [n'|] eqn:Hk'.
    + destruct (n' <? n)%N; cbn [above]; rewrite ?Hk, ?Hk', ?IH.
      * now destruct (m <? n')%N, (m <? n)%N.
      * reflexivity.
    + cbn [above]. now rewrite Hk, Hk'.
Qed.

Lemma ordered_insertIndex n k v o :
  arrayIndex k = Some n -> has k o = false -> ordered o = true ->
  ordered (insertIndex n k v o) = true.
Proof.
  intros Hk. induction o as [|[k' v'] o IH];
    cbn [insertIndex has ordered].
  - intros _ _. now rewrite Hk.
  - intros Hfresh Ho. apply orb_false_iff in Hfresh as [Hneq Hfresh].
    destruct (arrayIndex k') as [n'|] eqn:Hk'.
    + apply andb_true_iff in Ho as [Habove Ho].
      destruct (N.ltb_spec n' n) as [Hlt|Hge].
      * cbn [ordered]. rewrite Hk', (above_insertIndex _ _ _ _ _ Hk),
          Habove, (IH Hfresh Ho), !andb_true_r.
        now apply N.ltb_lt.
      * assert (n <> n').
        { intros ->. apply String.eqb_neq in Hneq. apply Hneq.
          exact (arrayIndex_inj _ _ _ Hk Hk'). }
        cbn [ordered above]. rewrite Hk, Hk', Habove, Ho, !andb_true_r.
        rewrite (above_mono n n') by (lia || exact Habove).
        rewrite andb_true_r. apply N.ltb_lt. lia.
    + cbn [ordered above]. rewrite Hk, Hk', Ho.
      now rewrite (noIndex_above _ _ Ho).
Qed.

Lemma ordered_append k v o :
  arrayIndex k = None -> ordered o = true ->
  ordered (o ++ [(k, v)])%list = true.
Proof.
  intros Hk. induction o as [|[k' v'] o IH]; cbn [app ordered].
  - now rewrite Hk.
  - destruct (arrayIndex k').
    + intros H. apply andb_true_iff in H as [Ha Ho].
      rewrite above_app, Ha, (IH Ho). cbn [above]. now rewrite Hk.
    + intros H. rewrite noIndex_app, H. cbn [noIndex]. now rewrite Hk.
Qed.

Lemma ordered_define k v o :
  ordered o = true -> ordered (define k v o) = true.
Proof.
  intros Ho. unfold define. destruct (has k o) eqn:Hk.
  - now rewrite (ordered_keys _ _ (keys_set_own k v o Hk)).
  - destruct (arrayIndex k) eqn:Hi; [now apply ordered_insertIndex|].
    rewrite set_fresh by exact Hk. now apply ordered_append.
Qed.

Lemma ordered_put k v o :
  ordered o = true -> ordered (put k v o) = true.
Proof.
  intros Ho. destruct (put_cases k v o) as [->| ->];
    [exact Ho | now apply ordered_define].
Qed.

(** A key that is enumerated last is created last. *)
Lemma define_last k v o :
  has k o = false -> ordered (o ++ [(k, v)])%list = true ->
  define k v o = (o ++ [(k, v)])%list.
Proof.
  intros Hk Ho. unfold define. rewrite Hk.
  destruct (arrayIndex k) as [n|] eqn:Hi; [|now apply set_fresh].
  clear Hk. induction o as [|[k' v'] o IH]; [reflexivity|].
  cbn [app ordered insertIndex] in *.
  destruct (arrayIndex k') as [n'|].
  - apply andb_true_iff in Ho as [Habove Ho].
    rewrite above_app in Habove. apply andb_true_iff in Habove as [_ Hn].
    cbn [above] in Hn. rewrite Hi, andb_true_r in Hn.
    rewrite Hn. now rewrite (IH Ho).
  - rewrite noIndex_app in Ho. apply andb_true_iff in Ho as [_ Ho].
    cbn [noIndex] in Ho. now rewrite Hi in Ho.
Qed.

Lemma uniqueKeys_app_fresh k v (a b : list (string * V)) :
  uniqueKeys (a ++ (k, v) :: b)%list = true -> has k a = false.
Proof.
  induction a as [|[k' v'] a IH]; cbn [app uniqueKeys has]; [reflexivity|].
  intros H. apply andb_true_iff in H as [Hk' Hu].
  rewrite (IH Hu), orb_false_r.
  apply negb_true_iff in Hk'. rewrite has_app in Hk'.
  apply orb_false_iff in Hk' as [_ Hk']. cbn [has] in Hk'.
  apply orb_false_iff in Hk' as [Hk' _]. now rewrite String.eqb_sym.
Qed.

(** Creating the properties of an ordered list with distinct keys one
    by one gives that list. *)
Lemma define_all (props acc : list (string * V)) :
  uniqueKeys (acc ++ props)%list = true ->
  ordered (acc ++ props)%list = true ->
  fold_left (fun o kv => define (fst kv) (snd kv) o) props acc
  = (acc ++ props)%list.
Proof.
  revert acc. induction props as [|[k v] r IH]; intros acc Hu Ho;
    cbn [fold_left fst snd]; [now rewrite app_nil_r|].
  assert (Hcut : (acc ++ (k, v) :: r = (acc ++ [(k, v)]) ++ r)%list)
    by now rewrite <- app_assoc.
  rewrite define_last.
  - rewrite IH; [now rewrite <- app_assoc | |]; now rewrite <- Hcut.
  - exact (uniqueKeys_app_fresh _ _ _ _ Hu).
  - rewrite Hcut in Ho. exact (ordered_prefix _ _ Ho).
Qed.
End Props.
End JsObjectFacts.

(** ** Deep set, then deep get *)

Module BodyFacts.
Import Notions.
Import JsNumber Json Body Props JsObjectFacts.

Lemma split_not_nil sep s : JsString.split sep s <> [].
Proof.
  destruct s as [|c r]; simpl; [discriminate|].
  destruct (Ascii.eqb c sep); [discriminate|].
  destruct (JsString.split sep r); discriminate.
Qed.

Lemma split_without sep s :
  JsString.includesChar s sep = false -> JsString.split sep s = [s].
Proof.
  induction s as [|c r IH]; simpl; [reflexivity|].
  intros H. apply orb_false_iff in H as [Hc Hr].
  rewrite Hc, (IH Hr). reflexivity.
Qed.

Lemma prop_set_same k v (o : JSONObject) : prop (JsObject.set k v o) k = v.
Proof. unfold prop. now rewrite get_set_same. Qed.

(** The first part of a path, when it is not [__proto__], is an own
    property of what the deep set returns. *)
Lemma setParts_cons part rest (o : JSONObject) v :
  String.eqb part "__proto__" = false ->
  exists x,
    setParts o (part :: rest) v = JsObject.define part x o
    /\ match rest with
       | [] => x = v
       | _ =>
           exists child, x = JObject (setParts child rest v)
       end.
Proof.
  intros Hplain. destruct rest as [|part' rest'].
  - exists v. cbn [setParts]. now rewrite put_plain.
  - eexists. cbn [setParts]. rewrite put_plain by exact Hplain.
    split; [reflexivity|]. eexists. reflexivity.
Qed.

(** One step down a part that is an own property. *)
Lemma walkPart_own (o : JSONObject) part x :
  JsObject.get part o = Some x ->
  walkPart (At (JObject o)) part = Some (At x).
Proof.
  intros Hget. cbn [walkPart].
  rewrite has_isIn by (apply has_get; congruence).
  now rewrite (read_own _ _ _ Hget).
Qed.

(** Walking the parts of a path just set ends at the value set, when no
    part is [__proto__]. *)
Lemma walkParts_setParts parts :
  parts <> [] ->
  plainParts parts = true ->
  forall (o : JSONObject) v,
    walkParts (At (JObject (setParts o parts v))) parts = Some (At v).
Proof.
  induction parts as [|part rest IH]; [congruence|]. intros _ Hplain o v.
  cbn [plainParts forallb] in Hplain.
  apply andb_true_iff in Hplain as [Hpart Hrest].
  apply negb_true_iff in Hpart.
  destruct (setParts_cons part rest o v Hpart) as (x & -> & Hx).
  cbn [walkParts]. rewrite (walkPart_own _ _ x) by apply get_define_same.
  destruct rest as [|part' rest'].
  - now subst x.
  - destruct Hx as [child ->]. apply IH; [discriminate | exact Hrest].
Qed.

(** [setDeep] followed by [getPrimitiveDeep] at the same path returns
    the value set, for every object, every primitive value and every
    path none of whose parts is [__proto__]. *)
Lemma getPrimitiveDeep_setDeep (o : JSONObject) (path : string) v :
  isPrimitiveOrNull v = true ->
  plainParts (JsString.split "." path) = true ->
  getPrimitiveDeep (JObject (setDeep o path v)) path = v.
Proof.
  intros Hv Hplain. unfold getPrimitiveDeep, setDeep.
  destruct (JsString.includesChar path ".") eqn:Hdot.
  - rewrite walkParts_setParts by (apply split_not_nil || exact Hplain).
    now rewrite Hv.
  - rewrite (split_without _ _ Hdot) in *.
    cbn [plainParts forallb] in Hplain. rewrite andb_true_r in Hplain.
    apply negb_true_iff in Hplain.
    cbn [setParts]. rewrite put_plain by exact Hplain.
    cbn [nodes getPrimitiveLoop].
    rewrite has_isIn by (rewrite has_define; now rewrite String.eqb_refl).
    rewrite (read_own _ _ v) by apply get_define_same.
    cbn [primitiveRead]. now rewrite Hv.
Qed.




End BodyFacts.

(** ** The mutation generator *)

Module GeneratorFacts.
Import Notions.
Import JsNumber Json Body Generator Props JsObjectFacts.

Lemma emittedAt_cons original c cands f m :
  emittedAt original cands f m -> emittedAt original (c :: cands) f m.
Proof.
  intros (?&(c'&?&?)&?). split; [assumption|]. split; [|assumption].
  exists c'. split; [now right | assumption].
Qed.

(** What the inner loop adds is a mutation of its field, with the value
    a candidate resolves to and the serialized deep set as body. *)
Lemma eachCandidate_In original maxM config f cands :
  forall mutations m,
    In m (eachCandidate original maxM config f cands mutations) ->
    In m mutations \/ emittedAt original cands f m.
Proof.
  induction cands as [|c rest IH]; intros mutations m; simpl; [auto|].
  destruct (full maxM mutations); [auto|].
  destruct (isUndefined (resolve c (prop original f))) eqn:Hu.
  { intros H. apply IH in H as [H|H]; auto using emittedAt_cons. }
  destruct (isNonFiniteNumber (resolve c (prop original f))) eqn:Hn.
  { intros H. apply IH in H as [H|H]; auto using emittedAt_cons. }
  match goal with |- context [if ?b then _ else _] => destruct b end.
  { intros H. apply IH in H as [H|H]; auto using emittedAt_cons. }
  intros H. apply IH in H as [H|H]; [|auto using emittedAt_cons].
  apply in_app_or in H as [H|[<-|[]]]; [auto|].
  right. repeat split; simpl; eauto.
Qed.

(** What the outer loop adds comes from the inner loop at a field it
    did not skip. *)
Lemma eachField_In original maxM config cands fields :
  forall mutations m,
    In m (eachField original maxM config cands fields mutations) ->
    In m mutations
    \/ (exists f,
           In f fields
           /\ negb (mutateExistingFields config)
              && JsObject.isIn f original = false
           /\ emittedAt original cands f m).
Proof.
  induction fields as [|f rest IH]; intros mutations m; simpl; [auto|].
  destruct (full maxM mutations); [auto|].
  destruct (negb (mutateExistingFields config) && JsObject.isIn f original)
    eqn:Hskip.
  - intros H. apply IH in H as [H|(f'&?&?&?)]; [auto|].
    right. exists f'. auto.
  - intros H. apply IH in H as [H|(f'&?&?&?)].
    + apply eachCandidate_In in H as [H|H]; [auto|].
      right. exists f. auto.
    + right. exists f'. auto.
Qed.

(** Every mutation of [buildMutations] is the mutation of a field the
    outer loop did not skip by a value candidate of the configuration. *)
Lemma buildMutations_In original maxM config m :
  In m (buildMutations original maxM config) ->
  exists f,
    In f (candidatesOf config)
    /\ negb (mutateExistingFields config) && JsObject.isIn f original = false
    /\ emittedAt original (valueCandidatesOf config) f m.
Proof.
  intros H. apply eachField_In in H as [[]|H]. exact H.
Qed.

(** C4: for every baseline object and every configuration with
    [mutateExistingFields = false], no emitted mutation has a field
    that is an own key of the baseline object. *)
Theorem no_existing_field_mutated original config m :
  mutateExistingFields config = false ->
  In m (buildMutations original (maxMutations config) config) ->
  JsObject.has (field m) original = false.
Proof.
  intros Hoff H.
  apply buildMutations_In in H as (f & _ & Hskip & Hf & _).
  rewrite Hoff in Hskip. simpl in Hskip. rewrite Hf.
  now apply isIn_has.
Qed.

End GeneratorFacts.

(** ** The generator on concrete configurations *)

Module GeneratorExamples.
Import Notions.
Import JsNumber Json Body Generator Props GeneratorFacts GeneratorExamplesData.
Local Open Scope string_scope.

Lemma no_existing_field_mutated_witness :
  JsObject.has "role" [("plan", JString "free")] = false.
Proof.
  apply (no_existing_field_mutated
           [("plan", JString "free")] (adminOnly ["plan"; "role"])
           {| field := "role"; value := JString "admin";
              bodyText :=
                stringifyValue
                  (JObject [("plan", JString "free");
                            ("role", JString "admin")]) |}).
  - reflexivity.
  - vm_compute. left. reflexivity.
Defined.

(** The custom entry [null] becomes the candidate [Fixed undefined]. *)
Lemma null_entry_candidate :
  valueCandidatesOf (customOnly ["x"] ["null"]) = [Fixed JUndefined].
Proof. reflexivity. Qed.

(** C2, on the code: with the custom value [null] as only value source
    and the eligible candidate field [x], no mutation is emitted. *)
Theorem null_custom_value_emits_nothing :
  inBounds (customOnly ["x"] ["null"]) = true
  /\ JsObject.has "x" ([] : JSONObject) = false
  /\ buildMutations [] 16 (customOnly ["x"] ["null"]) = [].
Proof. repeat split. Qed.

(** C1 fails for a custom value that parses as a JSON object: the body
    parses, but [getPrimitiveDeep] at the field finds nothing.  It fails
    as well for a field with a part [__proto__]: the write reaches the
    accessor of [Object.prototype], the body does not hold the value,
    and the read finds [Object.prototype]. *)
Lemma value_not_carried :
  (inBounds (customOnly ["x"] ["{}"]) = true
   /\ ~ (forall m,
            In m (buildMutations [] 16 (customOnly ["x"] ["{}"])) ->
            bodyCarriesValue m))
  /\ (inBounds (adminOnly ["a.__proto__"]) = true
      /\ ~ (forall m,
               In m (buildMutations [] 16 (adminOnly ["a.__proto__"])) ->
               bodyCarriesValue m)).
Proof.
  split; (split; [reflexivity|]); intros H.
  - destruct (H {| field := "x"; value := JObject [];
                   bodyText := stringifyValue (JObject [("x", JObject [])]) |})
      as (o & Hparse & Hget).
    + vm_compute. left. reflexivity.
    + vm_compute in Hparse. injection Hparse as <-.
      vm_compute in Hget. discriminate.
  - destruct (H {| field := "a.__proto__"; value := JString "admin";
                   bodyText := stringifyValue (JObject [("a", JObject [])]) |})
      as (o & Hparse & Hget).
    + vm_compute. left. reflexivity.
    + vm_compute in Hparse. injection Hparse as <-.
      vm_compute in Hget. discriminate.
Qed.

End GeneratorExamples.

(** ** The raw request parser *)

Module RawFacts.
Import Notions.
Import JsNumber Json Http Raw.
Local Open Scope string_scope.

Lemma flush_kept st : allKept (headerPairs st) -> allKept (headerPairs (flush st)).
Proof.
  intros H. unfold flush. destruct (currentName st) as [name|]; [|exact H].
  simpl.
  destruct (String.eqb_spec (JsString.toLowerCase name) "content-length");
    [exact H|].
  destruct (String.eqb_spec (JsString.toLowerCase name) "transfer-encoding");
    [exact H|].
  simpl. apply Forall_app. split; [exact H|].
  constructor; [split; assumption | constructor].
Qed.

Lemma headerLine_kept st line :
  allKept (headerPairs st) -> allKept (headerPairs (headerLine st line)).
Proof.
  intros H. unfold headerLine.
  destruct (JsString.startsWith line " " || JsString.startsWith line tab).
  - destruct (currentName st); exact H.
  - pose proof (flush_kept st H) as H'.
    destruct (JsString.indexOf line ":") as [[|idx]|]; try exact H'.
    destruct (JsString.isEmpty _); exact H'.
Qed.

Lemma parseHeaders_kept lines : allKept (parseHeaders lines).
Proof.
  unfold parseHeaders. apply flush_kept.
  assert (G : forall st, allKept (headerPairs st) ->
                         allKept (headerPairs (fold_left headerLine lines st))).
  { induction lines as [|l r IH]; intros st H; simpl; [exact H|].
    apply IH, headerLine_kept, H. }
  apply G. constructor.
Qed.

Lemma set_kept name (values : list string) (headers : Headers) :
  kept name -> headersKept headers ->
  headersKept (JsObject.set name values headers).
Proof.
  intros Hn H. induction H as [|[k v] r Hk Hr IH]; simpl.
  - constructor; [exact Hn | constructor].
  - destruct (String.eqb name k); constructor; assumption.
Qed.

Lemma setHeaders_kept pairs :
  allKept pairs ->
  forall spec,
    headersKept (specHeaders spec) ->
    headersKept
      (specHeaders
         (fold_left (fun sp nv => setHeader (fst nv) (snd nv) sp) pairs spec)).
Proof.
  induction 1 as [|[n v] r Hn Hr IH]; intros spec H; simpl; [exact H|].
  apply IH. simpl. apply set_kept; assumption.
Qed.

(** The claim of C8 fails where the host is blank and the port is out of
    range: the answer is the host error, not the port error. *)
Lemma blank_host_hides_port_error :
  let input := {| host := " "; port := 0; isTls := false;
                  raw := "GET / HTTP/1.1" |} in
  (port input < 1 \/ 65535 < port input)
  /\ parseRawRequestSpec input <> Error "port is invalid".
Proof. split; [left; reflexivity | discriminate]. Qed.

(** C8, amended: [parseRawRequestSpec] answers [host is required] exactly
    when the host trims to empty; when it does not, every port outside
    1..65535 gives [port is invalid]; and a returned request spec has no
    Content-Length and no Transfer-Encoding header, in any letter case. *)
Theorem parseRawRequestSpec_errors_and_headers (input : SaveRawRequestInput) :
  (parseRawRequestSpec input = Error "host is required"
   <-> JsString.isEmpty (JsString.trim (host input)) = true)
  /\ (JsString.isEmpty (JsString.trim (host input)) = false ->
      port input < 1 \/ 65535 < port input ->
      parseRawRequestSpec input = Error "port is invalid")
  /\ (forall spec,
         parseRawRequestSpec input = Ok spec ->
         headersKept (specHeaders spec)).
Proof.
  unfold parseRawRequestSpec.
  destruct (JsString.isEmpty (JsString.trim (host input))) eqn:Hhost.
  { repeat split; intros; congruence. }
  destruct ((port input <? 1)%Z || (port input >? 65535)%Z) eqn:Hport.
  { split; [split; intros; congruence|]. split; intros; congruence. }
  assert (Hin : ~ (port input < 1 \/ 65535 < port input)).
  { apply orb_false_iff in Hport as [H1 H2].
    apply Z.ltb_ge in H1. rewrite Z.gtb_ltb in H2. apply Z.ltb_ge in H2. lia. }
  cbv zeta.
  destruct (filter _ _) as [|requestLine headerRest].
  { split; [split; intros; congruence|]. split; [tauto | intros; congruence]. }
  destruct (JsString.splitWs requestLine) as [|methodRaw [|targetRaw ?]].
  1, 2: split; [split; intros; congruence|];
        (split; [tauto | intros; congruence]).
  split; [split; intros; congruence|]. split; [tauto|].
  intros spec [= <-]. simpl.
  apply setHeaders_kept; [apply parseHeaders_kept | constructor].
Qed.

Lemma parseRawRequestSpec_errors_and_headers_witness :
  parseRawRequestSpec
    {| host := "example.com"; port := 70000; isTls := true;
       raw := "GET / HTTP/1.1" |}
  = Error "port is invalid".
Proof.
  apply (proj1 (proj2 (parseRawRequestSpec_errors_and_headers
                         {| host := "example.com"; port := 70000;
                            isTls := true; raw := "GET / HTTP/1.1" |}))).
  - reflexivity.
  - right. reflexivity.
Defined.

End RawFacts.

(** ** Validation and the cancellation flag *)

Module ScanFacts.
Import Notions.
Import JsNumber Json Body Generator Http Adapter Scan Props.
Local Open Scope string_scope.

Section WithSdk.
Variable sdk : SDK.
Implicit Types (st : State sdk) (config : ScanConfig) (target : ScanTarget).

(** The first failing test of the source is the first violation. *)
Lemma configError_first_violation target config :
  match configError config with
  | Some e => exists rest, violations target config = e :: rest
  | None =>
      violations target config
      = if JsString.isEmpty (JsString.trim (requestId target))
        then ["requestId is required"] else []
  end.
Proof.
  unfold configError, violations.
  rewrite !Z.gtb_ltb.
  destruct (maxMutations config <? 1)%Z; [simpl; eauto|].
  destruct (256 <? maxMutations config)%Z; [simpl; eauto|].
  destruct (persistenceDelayMs config <? 0)%Z; [simpl; eauto|].
  destruct (10000 <? persistenceDelayMs config)%Z; [simpl; eauto|].
  destruct (5000 <? Z.of_nat (length (candidateFields config)))%Z;
    [simpl; eauto|].
  destruct (verification config) as [|url method body delayMs];
    [reflexivity|].
  rewrite !Z.gtb_ltb.
  destruct (delayMs <? 0)%Z; [simpl; eauto|].
  destruct (10000 <? delayMs)%Z; [simpl; eauto|].
  reflexivity.
Qed.

(** [runScan] starts by clearing the flag, whatever it was. *)
Lemma runScan_from_cleared target config st :
  runScan sdk target config st = runScan sdk target config (cleared st).
Proof. reflexivity. Qed.

(** What [runScan] does when a test of the source fails before the
    target is resolved. *)
Lemma runScan_rejects target config st :
  match configError config with
  | Some e => runScan sdk target config st = (Return (Error e), cleared st)
  | None =>
      JsString.isEmpty (JsString.trim (requestId target)) = true ->
      runScan sdk target config st
      = (Return (Error "requestId is required"), cleared st)
  end.
Proof.
  unfold runScan, bind, writeStop.
  destruct (configError config); [reflexivity|].
  intros ->. reflexivity.
Qed.

(** The answer to a request with a violated bound. *)
Lemma violation_rejected target config st e rest :
  violations target config = e :: rest ->
  runScan sdk target config st = (Return (Error e), cleared st).
Proof.
  intros Hv.
  pose proof (configError_first_violation target config) as H.
  pose proof (runScan_rejects target config st) as Hrun.
  destruct (configError config) as [e'|].
  - destruct H as [rest' H]. rewrite H in Hv. now injection Hv as -> _.
  - rewrite H in Hv.
    destruct (JsString.isEmpty (JsString.trim (requestId target)));
      [|discriminate].
    injection Hv as <- _. now apply Hrun.
Qed.

(** C6: when a bound on the configuration or the target is violated,
    [runScan] answers [Error] with the validation string of the first
    violated bound, without any host call (no request is sent) and so
    without findings. *)
Theorem runScan_validates_first target config st e rest :
  violations target config = e :: rest ->
  fst (runScan sdk target config st) = Return (Error e)
  /\ trace (snd (runScan sdk target config st)) = trace st
  /\ world (snd (runScan sdk target config st)) = world st.
Proof.
  intros Hv. rewrite (violation_rejected _ _ _ _ _ Hv). repeat split.
Qed.

(** C10: [runScan] sets [shouldStopScan] to false before anything else:
    a [stopScan] issued before the call does not change what the scan
    does, and a call that fails validation leaves the flag cleared. *)
Theorem runScan_clears_stop_first target config st :
  runScan sdk target config (snd (stopScan st))
  = runScan sdk target config st
  /\ (exists k : M sdk (Result ScanResult),
         forall st', runScan sdk target config st'
                     = bind (writeStop false) (fun _ => k) st')
  /\ match violations target config with
     | e :: _ =>
         runScan sdk target config (snd (stopScan st))
         = (Return (Error e), cleared st)
         /\ shouldStopScan
              (snd (runScan sdk target config (snd (stopScan st)))) = false
     | [] => True
     end.
Proof.
  split; [reflexivity|]. split.
  { eexists. intros st'. unfold runScan. reflexivity. }
  destruct (violations target config) as [|e rest] eqn:Hv; [exact I|].
  rewrite (violation_rejected target config _ e rest Hv).
  split; reflexivity.
Qed.

End WithSdk.

Lemma runScan_validates_first_witness :
  let run :=
    runScan silentSdk {| requestId := "42" |}
            {| maxMutations := 0;
               includeBuiltInCandidates := true;
               candidateFields := [];
               customValues := [];
               mutateExistingFields := false;
               valueModes := GeneratorExamplesData.noModes;
               confirmPersistence := false;
               persistenceDelayMs := 20000;
               verification := Disabled |}
            (silentState true) in
  fst run = Return (Error "maxMutations must be >= 1")
  /\ trace (snd run) = []
  /\ world (snd run) = tt.
Proof.
  apply (runScan_validates_first silentSdk {| requestId := "42" |} _
           (silentState true) "maxMutations must be >= 1"
           ["persistenceDelayMs must be <= 10000"]).
  reflexivity.
Defined.

End ScanFacts.

(** ** The request attached to a created issue *)

Module SinkFacts.
Import Notions.
Import JsNumber Json Http Sink Props.
Local Open Scope string_scope.

(** The claim of C7 fails for a StateChanged finding whose verify id
    does not resolve while its mutated id does: the writer attaches the
    baseline request, the claimed rule the mutated one. *)
Lemma unresolved_verify_attaches_baseline :
  let store := [stored "base"; stored "mut"] in
  let finding :=
    {| field := "role"; value := "admin"; kind := Finding.StateChanged;
       message := "role=admin";
       mutatedRequestId := Some "mut";
       persistedRequestId := None;
       verifyRequestId := Some "gone" |} in
  let run :=
    createFindings (storeSdk store)
      {| requestId := "base"; findings := [finding] |}
      (Build_State (storeSdk store) false [] []) in
  fst run = Return (Ok {| created := 1 |})
  /\ map request (world (snd run)) = [storedRequest "base"]
  /\ claimedAttachment (fun id => JsObject.get id store)
                       (storedRequest "base") finding
     = storedRequest "mut"
  /\ storedRequest "mut" <> storedRequest "base".
Proof. repeat split. discriminate. Qed.

Section WithSdk.
Variable sdk : SDK.

Lemma lookupOr_run (fallback : Request) (id : string) (st : State sdk) :
  lookupOr sdk fallback id st
  = (Return match fst (requests_get sdk (world st) id) with
            | Some s => savedRequest s
            | None => fallback
            end,
     resumed st (snd (requests_get sdk (world st) id))
             (EvGet id (fst (requests_get sdk (world st) id)))).
Proof.
  unfold lookupOr, bind, get.
  destruct (requests_get sdk (world st) id) as [[found|] w]; reflexivity.
Qed.

(** The three branches look up one id, chosen by kind and presence. *)
Lemma attachRequest_run (saved : Saved) (finding : FindingInput)
      (st : State sdk) :
  attachRequest sdk saved finding st
  = match chosenId finding with
    | Some id => lookupOr sdk (savedRequest saved) id st
    | None => (Return (savedRequest saved), st)
    end.
Proof.
  unfold attachRequest, chosenId.
  destruct (kind finding), (verifyRequestId finding),
    (persistedRequestId finding), (mutatedRequestId finding); reflexivity.
Qed.

(** One iteration: the lookup of the chosen id, if any, then the
    creation of the issue. *)
Lemma createOne_run (trimmedRequestId : string) (saved : Saved)
      (finding : FindingInput) (st : State sdk) :
  let lookup := fun id => fst (requests_get sdk (world st) id) in
  exists thrown st' issue,
    createOne sdk trimmedRequestId saved finding st = (Return thrown, st')
    /\ trace st'
       = (trace st
          ++ match chosenId finding with
             | Some id => [EvGet id (lookup id)]
             | None => []
             end
          ++ [EvCreate issue thrown])%list
    /\ dedupeKey issue
       = trimmedRequestId ++ ":" ++ Finding.kindName (kind finding)
                          ++ ":" ++ field finding
    /\ request issue
       = match chosenId finding with
         | Some id =>
             match lookup id with
             | Some s => savedRequest s
             | None => savedRequest saved
             end
         | None => savedRequest saved
         end.
Proof.
  unfold createOne, bind. cbv zeta. rewrite attachRequest_run.
  destruct (chosenId finding) as [id|].
  - rewrite lookupOr_run. unfold create.
    destruct (findings_create sdk _ _) as [thrown w'] eqn:Hc.
    eexists _, _, _. split; [reflexivity|]. simpl.
    rewrite <- app_assoc. repeat split.
  - unfold create.
    destruct (findings_create sdk _ _) as [thrown w'] eqn:Hc.
    eexists _, _, _. split; [reflexivity|]. simpl. repeat split.
Qed.

(** The loop handles the findings in turn, up to the first issue the
    sink throws on. *)
Lemma createLoop_wrote (trimmedRequestId : string) (saved : Saved)
      (todo : list FindingInput) :
  forall (n : nat) (st : State sdk),
    exists evs,
      trace (snd (createLoop sdk trimmedRequestId saved todo n st))
      = (trace st ++ evs)%list
      /\ wrote trimmedRequestId (savedRequest saved) todo evs.
Proof.
  induction todo as [|finding rest IH]; intros n st.
  - exists []. cbn [createLoop ret snd wrote]. now rewrite app_nil_r.
  - cbn [createLoop]. unfold bind.
    destruct (createOne_run trimmedRequestId saved finding st)
      as (thrown & st1 & issue & Hrun & Htrace & Hkey & Hrequest).
    rewrite Hrun.
    set (found := match chosenId finding with
                  | Some id => fst (requests_get sdk (world st) id)
                  | None => None
                  end).
    assert (Hevs : (match chosenId finding with
                    | Some id => [EvGet id (fst (requests_get sdk (world st) id))]
                    | None => []
                    end
                    = match chosenId finding with
                      | Some id => [EvGet id found]
                      | None => []
                      end)%list)
      by (subst found; now destruct (chosenId finding)).
    assert (Hattached : request issue
                        = match chosenId finding, found with
                          | Some _, Some s => savedRequest s
                          | _, _ => savedRequest saved
                          end)
      by (rewrite Hrequest; subst found; now destruct (chosenId finding)).
    rewrite Hevs in Htrace. destruct thrown as [e|].
    + eexists. cbn [ret snd]. split; [exact Htrace|].
      cbn [wrote]. exists found, issue, (Some e), [].
      split; [reflexivity|]. split; [exact Hkey|]. now split.
    + destruct (IH (S n) st1) as (evs & Ht & Hwrote).
      eexists. split.
      * rewrite Ht, Htrace, <- !app_assoc. reflexivity.
      * cbn [wrote]. exists found, issue, None, evs.
        cbn [app]. split; [reflexivity|]. split; [exact Hkey|]. now split.
Qed.

(** C7, amended: given a request id that is not blank, between 1 and
    200 findings and a baseline request that the trimmed id resolves
    to, [createFindings] looks the trimmed id up and then, for each
    finding in turn, looks up at most one id: the verify id when the
    kind is StateChanged and that id is present, else the persisted id
    when the kind is Persisted and that id is present, else the mutated
    id when present.  The issue it creates carries the request that id
    resolves to, the baseline request when there is no such id or it
    does not resolve, and the dedupe key [<requestId>:<kind>:<field>]
    made of the trimmed request id.  It stops at the first issue the
    sink throws on. *)
Theorem createFindings_attaches (input : CreateFindingsInput)
        (st : State sdk) (saved : Saved) :
  JsString.isEmpty (JsString.trim (requestId input)) = false ->
  (1 <= length (findings input) <= 200)%nat ->
  fst (requests_get sdk (world st) (JsString.trim (requestId input)))
  = Some saved ->
  exists evs,
    trace (snd (createFindings sdk input st))
    = (trace st
       ++ EvGet (JsString.trim (requestId input)) (Some saved) :: evs)%list
    /\ wrote (JsString.trim (requestId input)) (savedRequest saved)
             (findings input) evs.
Proof.
  intros Hid [Hsome Hmost] Hsaved. unfold createFindings. rewrite Hid.
  destruct (findings input) as [|f rest] eqn:Hf; [simpl in Hsome; lia|].
  rewrite <- Hf in *.
  destruct (Nat.ltb_spec 200 (length (findings input))) as [Hlt|_]; [lia|].
  unfold bind, get.
  destruct (requests_get sdk (world st) _) as [found w].
  cbn [fst] in Hsaved. subst found.
  match goal with
  | |- context [createLoop sdk ?i ?s ?t ?n ?s0] =>
      destruct (createLoop_wrote i s t n s0) as (evs & Ht & Hwrote)
  end.
  exists evs. split; [|exact Hwrote].
  rewrite Ht. cbn [trace resumed]. now rewrite <- app_assoc.
Qed.

End WithSdk.

Lemma createFindings_attaches_witness :
  let store := [stored "base"; stored "mut"; stored "check"] in
  let input :=
    {| requestId := " base ";
       findings :=
         [{| field := "role"; value := "admin"; kind := Finding.StateChanged;
             message := "role=admin";
             mutatedRequestId := Some "mut";
             persistedRequestId := None;
             verifyRequestId := Some "check" |};
          {| field := "plan"; value := "pro"; kind := Finding.Reflected;
             message := "plan=pro";
             mutatedRequestId := Some "gone";
             persistedRequestId := None;
             verifyRequestId := None |}] |} in
  let st := Build_State (storeSdk store) false [] [] in
  exists evs,
    trace (snd (createFindings (storeSdk store) input st))
    = (trace st ++ EvGet "base" (Some (snd (stored "base"))) :: evs)%list
    /\ wrote "base" (storedRequest "base") (findings input) evs.
Proof.
  cbv zeta.
  apply (createFindings_attaches
           (storeSdk [stored "base"; stored "mut"; stored "check"])
           {| requestId := " base ";
              findings :=
                [{| field := "role"; value := "admin";
                    kind := Finding.StateChanged;
                    message := "role=admin";
                    mutatedRequestId := Some "mut";
                    persistedRequestId := None;
                    verifyRequestId := Some "check" |};
                 {| field := "plan"; value := "pro";
                    kind := Finding.Reflected;
                    message := "plan=pro";
                    mutatedRequestId := Some "gone";
                    persistedRequestId := None;
                    verifyRequestId := None |}] |}
           (Build_State
              (storeSdk [stored "base"; stored "mut"; stored "check"])
              false [] [])
           (snd (stored "base")));
    [reflexivity | simpl; lia | reflexivity].
Defined.

(** The issues of that run: the first carries the verify request, the
    second, whose mutated id does not resolve, the baseline request. *)
Example createFindings_attached :
  map (fun issue => (dedupeKey issue, getId (request issue)))
      (rev (world (snd (createFindings
                          (storeSdk [stored "base"; stored "mut";
                                     stored "check"])
                          {| requestId := " base ";
                             findings :=
                               [{| field := "role"; value := "admin";
                                   kind := Finding.StateChanged;
                                   message := "role=admin";
                                   mutatedRequestId := Some "mut";
                                   persistedRequestId := None;
                                   verifyRequestId := Some "check" |};
                                {| field := "plan"; value := "pro";
                                   kind := Finding.Reflected;
                                   message := "plan=pro";
                                   mutatedRequestId := Some "gone";
                                   persistedRequestId := None;
                                   verifyRequestId := None |}] |}
                          (Build_State
              (storeSdk [stored "base"; stored "mut"; stored "check"])
              false [] [])))))
  = [("base:StateChanged:role", "check"); ("base:Reflected:plan", "base")].
Proof. vm_compute. reflexivity. Qed.

End SinkFacts.

(** ** The mutation loop *)

Module LoopFacts.
Import Notions Terms.
Import JsNumber Json Body Generator Http Adapter Scan Props.
Local Open Scope string_scope.

Section WithSdk.
Variable sdk : SDK.
Implicit Types (st : State sdk) (ctx : Context) (m : Mutation).

Local Arguments truncateText : simpl never.
Local Arguments safeStringify : simpl never.
Local Arguments getPrimitiveDeep : simpl never.

Lemma extends_refl st : extends st st.
Proof. exists []. now rewrite app_nil_r. Qed.

Lemma extends_trans st1 st2 st3 :
  extends st1 st2 -> extends st2 st3 -> extends st1 st3.
Proof.
  intros [e1 H1] [e2 H2]. exists (e1 ++ e2)%list.
  now rewrite H2, H1, app_assoc.
Qed.

Lemma extends_In st st' ev : extends st st' -> In ev (trace st) -> In ev (trace st').
Proof. intros [evs ->] H. apply in_or_app. now left. Qed.

Ltac grown :=
  unfold extends, resumed; simpl; rewrite <- ?app_assoc;
  eexists; reflexivity.

Ltac nothing_new :=
  exists []; eexists; rewrite app_nil_r;
  split; [reflexivity|]; split; [grown | left; reflexivity].

(** The probe adds nothing or one Persisted finding, with its evidence
    in the trace. *)
Lemma persistenceProbe_spec ctx m response mutatedId snippet findings st :
  exists new st',
    persistenceProbe sdk ctx m response mutatedId snippet findings st
    = (Return (findings ++ new)%list, st')
    /\ extends st st'
    /\ (new = []
        \/ exists f,
             new = [f]
             /\ Finding.kind f = Finding.Persisted
             /\ Finding.field f = field m
             /\ Finding.value f = safeStringify (value m)
             /\ Finding.mutatedRequestId f = Some mutatedId
             /\ probeEvidence (trace st') f).
Proof.
  unfold persistenceProbe, bind.
  set (st1 := snd ((if (persistenceDelayMs (config ctx) >? 0)%Z
                    then sleep (persistenceDelayMs (config ctx))
                    else ret tt) st)).
  assert (E1 : extends st st1).
  { subst st1. destruct (_ >? _)%Z; [grown | apply extends_refl]. }
  replace ((if (persistenceDelayMs (config ctx) >? 0)%Z
            then sleep (persistenceDelayMs (config ctx))
            else ret tt) st) with (Return tt, st1)
    by (subst st1; destruct (_ >? _)%Z; reflexivity).
  unfold send.
  destruct (requests_send sdk (world st1) _) as [[sent|] w] eqn:Hsend.
  2:{ exists []; eexists. rewrite app_nil_r. split; [reflexivity|].
      split; [|now left]. eapply extends_trans; [exact E1 | grown]. }
  unfold responseToText, ret.
  destruct (sentResponse sent) as [presp|] eqn:Hresp.
  2:{ exists []; eexists. rewrite app_nil_r. split; [reflexivity|].
      split; [|now left]. eapply extends_trans; [exact E1 | grown]. }
  destruct (respBodyText presp) as [text|] eqn:Htext.
  2:{ exists []; eexists. rewrite app_nil_r. split; [reflexivity|].
      split; [|now left]. eapply extends_trans; [exact E1 | grown]. }
  destruct (parseJsonValue text) as [e|parsed] eqn:Hparse.
  { exists []; eexists. rewrite app_nil_r. split; [reflexivity|].
    split; [|now left]. eapply extends_trans; [exact E1 | grown]. }
  destruct (negb (isUndefined (getPrimitiveDeep parsed (field m)))
            && String.eqb (safeStringify (getPrimitiveDeep parsed (field m)))
                          (safeStringify (value m))) eqn:Hfound.
  2:{ exists []; eexists. rewrite app_nil_r. split; [reflexivity|].
      split; [|now left]. eapply extends_trans; [exact E1 | grown]. }
  eexists [_], _. split; [reflexivity|].
  split; [eapply extends_trans; [exact E1 | grown]|].
  right. eexists. split; [reflexivity|].
  unfold Finding.makeFinding, probeEvidence.
  cbn [Finding.kind Finding.field Finding.value Finding.mutatedRequestId
       Finding.persistedRequestId].
  repeat (split; [reflexivity|]).
  apply andb_true_iff in Hfound as [Hdef Heq].
  apply String.eqb_eq in Heq.
  exists (makeSpec (baseline ctx) (originalBodyText ctx) "persisted"),
    sent, presp, text, parsed.
  repeat split; try assumption.
  - cbn [trace resumed]. apply in_or_app. right. now left.
  - unfold makeSpec. cbn [specHeaders setHeader].
    apply JsObjectFacts.get_set_same.
  - intros Hu. rewrite Hu in Hdef. discriminate.
Qed.

Lemma persistedAfter_grows config tr tr' g f :
  (forall ev, In ev tr -> In ev tr') ->
  persistedAfter config tr g f -> persistedAfter config tr' g f.
Proof.
  intros Hsub (?&?&?&?&?&(spec&sent&resp&text&parsed&Hin&?)).
  repeat (split; [assumption|]).
  exists spec, sent, resp, text, parsed. split; [auto | assumption].
Qed.

Lemma paired_grows config tr tr' prev l :
  (forall ev, In ev tr -> In ev tr') ->
  paired config tr prev l -> paired config tr' prev l.
Proof.
  intros Hsub. revert prev.
  induction l as [|f r IH]; intros prev; simpl; [auto|].
  intros [Hf Hr]. split; [|auto].
  intros Hk. specialize (Hf Hk). destruct prev; [|exact Hf].
  eapply persistedAfter_grows; eassumption.
Qed.

Lemma paired_weaken config tr prev l :
  paired config tr None l -> paired config tr prev l.
Proof.
  destruct l as [|f r]; simpl; [auto|].
  intros [Hf Hr]. split; [|exact Hr]. intros Hk. destruct (Hf Hk).
Qed.

Lemma paired_app config tr prev a b :
  paired config tr prev a -> paired config tr None b ->
  paired config tr prev (a ++ b).
Proof.
  revert prev. induction a as [|f r IH]; intros prev; simpl.
  - intros _. apply paired_weaken.
  - intros [Hf Hr] Hb. split; [exact Hf | auto].
Qed.

(** In a paired list, the finding just before a Persisted one is its
    Reflected finding. *)
Lemma paired_before config tr pre :
  forall prev f post,
    paired config tr prev (pre ++ f :: post) ->
    Finding.kind f = Finding.Persisted ->
    exists g,
      persistedAfter config tr g f
      /\ ((pre = [] /\ prev = Some g) \/ exists pre', pre = (pre' ++ [g])%list).
Proof.
  induction pre as [|a pre IH]; intros prev f post; simpl.
  - intros [Hf _] Hk. specialize (Hf Hk).
    destruct prev as [g|]; [|contradiction]. exists g. auto.
  - intros [_ Hr] Hk. destruct (IH _ _ _ Hr Hk) as (g & Hg & Hpos).
    exists g. split; [exact Hg|]. right.
    destruct Hpos as [[-> [= ->]]|[pre' ->]].
    + now exists [].
    + now exists (a :: pre').
Qed.

(** The body diff adds findings among which a Persisted one only
    follows its Reflected one. *)
Lemma bodyDiff_spec ctx m response mutatedId findings st :
  exists new st',
    bodyDiff sdk ctx m response mutatedId findings st
    = (Return (findings ++ new)%list, st')
    /\ extends st st'
    /\ paired (config ctx) (trace st') None new.
Proof.
  unfold bodyDiff, responseToText, ret.
  destruct (respBodyText response) as [text|].
  2:{ exists []; eexists. rewrite app_nil_r.
      repeat split. apply extends_refl. }
  destruct (parseJsonValue text) as [e|mutatedJson].
  { eexists [_], _. repeat split; [apply extends_refl | discriminate]. }
  destruct (negb (isUndefined (getPrimitiveDeep mutatedJson (field m)))
            && String.eqb _ _).
  2:{ exists []; eexists. rewrite app_nil_r.
      repeat split. apply extends_refl. }
  destruct (confirmPersistence (config ctx)) eqn:Hconfirm.
  2:{ eexists [_], _. repeat split; [apply extends_refl | discriminate]. }
  match goal with
  | |- context [persistenceProbe sdk ctx m response mutatedId ?snip ?fs st] =>
      destruct (persistenceProbe_spec ctx m response mutatedId snip fs st)
        as (new & st' & Hrun & Hext & Hnew)
  end.
  rewrite Hrun, <- app_assoc.
  eexists _, st'. split; [reflexivity|]. split; [exact Hext|].
  cbn [app paired]. split; [discriminate|].
  destruct Hnew as [->|(f & -> & Hk & Hfield & Hvalue & Hid & Hev)];
    [exact I|].
  cbn [paired]. split; [|exact I]. intros _.
  unfold persistedAfter, Finding.makeFinding.
  cbn [Finding.kind Finding.field Finding.value Finding.mutatedRequestId].
  repeat split; auto.
Qed.

(** The follow-up diff adds nothing or one StateChanged finding. *)
Lemma followUp_spec ctx m mutatedId findings st :
  exists new st',
    followUp sdk ctx m mutatedId findings st
    = (Return (findings ++ new)%list, st')
    /\ extends st st'
    /\ Forall (fun f => Finding.kind f = Finding.StateChanged) new.
Proof.
  unfold followUp.
  destruct (verification (config ctx)) as [|url method body delayMs].
  { exists []; eexists. rewrite app_nil_r.
    repeat split; [apply extends_refl | constructor]. }
  destruct (verifyBaselineJson ctx) as [baselineObject|],
    (verifyUrlResolved ctx) as [resolved|],
    (verifyBaselineRequestId ctx) as [verifyId|];
    try (exists []; eexists; rewrite app_nil_r;
         repeat split; [apply extends_refl | constructor]).
  unfold bind.
  set (st1 := snd ((if (delayMs >? 0)%Z then sleep delayMs else ret tt) st)).
  assert (E1 : extends st st1).
  { subst st1. destruct (_ >? _)%Z; [grown | apply extends_refl]. }
  replace ((if (delayMs >? 0)%Z then sleep delayMs else ret tt) st)
    with (Return tt, st1)
    by (subst st1; destruct (_ >? _)%Z; reflexivity).
  unfold send, ret, responseToText.
  destruct (requests_send sdk (world st1) _) as [[sent|] w].
  2:{ exists []; eexists. rewrite app_nil_r. split; [reflexivity|].
      split; [|constructor]. eapply extends_trans; [exact E1 | grown]. }
  destruct (sentResponse sent) as [resp|].
  2:{ exists []; eexists. rewrite app_nil_r. split; [reflexivity|].
      split; [|constructor]. eapply extends_trans; [exact E1 | grown]. }
  destruct (respBodyText resp) as [text|].
  2:{ exists []; eexists. rewrite app_nil_r. split; [reflexivity|].
      split; [|constructor]. eapply extends_trans; [exact E1 | grown]. }
  destruct (parseJsonValue text) as [e|[| | | | | |parsed]];
    try (exists []; eexists; rewrite app_nil_r; split; [reflexivity|];
         split; [|constructor]; eapply extends_trans; [exact E1 | grown]).
  destruct (changedPaths _ _) as [|c changed].
  { exists []; eexists. rewrite app_nil_r. split; [reflexivity|].
    split; [|constructor]. eapply extends_trans; [exact E1 | grown]. }
  eexists [_], _. split; [reflexivity|].
  split; [eapply extends_trans; [exact E1 | grown]|].
  constructor; [reflexivity | constructor].
Qed.

Lemma paired_clean config tr prev a b :
  Forall (fun f => Finding.kind f <> Finding.Persisted) a ->
  paired config tr None b -> paired config tr prev (a ++ b).
Proof.
  intros Ha Hb. apply paired_app; [|exact Hb]. clear Hb. revert prev.
  induction Ha as [|f r Hf Hr IH]; intros prev; simpl; [exact I|].
  split; [intros Hk; contradiction | apply IH].
Qed.

(** One iteration of the loop keeps the findings it was given and adds
    findings in which Persisted only follows its Reflected. *)
Lemma processMutation_spec ctx m findings st out st' :
  processMutation sdk ctx m findings st = (out, st') ->
  extends st st'
  /\ match out with
     | Return findings' =>
         exists new,
           findings' = (findings ++ new)%list
           /\ paired (config ctx) (trace st') None new
     | Throw _ => True
     end.
Proof.
  unfold processMutation, bind, send.
  destruct (requests_send sdk (world st) _) as [[sent|] w].
  2:{ intros [= <- <-]. split; [grown|].
      eexists [_]. repeat split. discriminate. }
  destruct (sentResponse sent) as [response|].
  2:{ intros [= <- <-]. split; [grown | exact I]. }
  set (st1 := resumed st w _).
  assert (E1 : extends st st1) by (subst st1; grown).
  set (findings1 := match option_map getCode (baselineResponse ctx) with
                    | Some _ => _ | None => _ end).
  assert (H1 : exists new1,
             findings1 = (findings ++ new1)%list
             /\ Forall (fun f => Finding.kind f <> Finding.Persisted) new1).
  { subst findings1.
    destruct (option_map getCode (baselineResponse ctx)) as [code|].
    - destruct (negb _).
      + eexists [_]. split; [reflexivity|].
        constructor; [discriminate | constructor].
      + exists []. now rewrite app_nil_r.
    - exists []. now rewrite app_nil_r. }
  destruct H1 as (new1 & -> & Hclean1).
  destruct (followUp_spec ctx m (getId (sentRequest sent))
              (findings ++ new1)%list st1)
    as (new2 & st2 & -> & E2 & Hclean2).
  destruct (bodyDiff_spec ctx m response (getId (sentRequest sent))
              ((findings ++ new1) ++ new2)%list st2)
    as (new3 & st3 & -> & E3 & Hpaired).
  intros [= <- <-].
  split; [eauto using extends_trans|].
  exists (new1 ++ new2 ++ new3)%list. split; [now rewrite !app_assoc|].
  apply paired_clean; [exact Hclean1|].
  apply paired_clean; [|exact Hpaired].
  eapply Forall_impl; [|exact Hclean2]. simpl. intros f ->. discriminate.
Qed.

(** The loop keeps the pairing of the findings it was given. *)
Lemma mutationLoop_paired ctx mutations :
  forall findings st findings' st',
    mutationLoop sdk ctx mutations findings st = (Return findings', st') ->
    paired (config ctx) (trace st) None findings ->
    extends st st'
    /\ (exists new, findings' = (findings ++ new)%list)
    /\ paired (config ctx) (trace st') None findings'.
Proof.
  induction mutations as [|m rest IH]; intros findings st findings' st'.
  - simpl. intros [= <- <-] H. split; [apply extends_refl|].
    split; [exists []; now rewrite app_nil_r | exact H].
  - simpl. unfold bind at 1, readStop.
    destruct (shouldStopScan st).
    { intros [= <- <-] H. split; [apply extends_refl|].
      split; [exists []; now rewrite app_nil_r | exact H]. }
    unfold bind.
    destruct (processMutation sdk ctx m findings st) as [[mid|e] st1] eqn:Hstep;
      [|discriminate].
    apply processMutation_spec in Hstep as [E1 (new & -> & Hnew)].
    intros Hloop Hpaired.
    apply IH in Hloop as (E2 & (new' & ->) & Hfinal).
    + split; [eauto using extends_trans|].
      split; [exists (new ++ new')%list; now rewrite app_assoc | exact Hfinal].
    + apply paired_app; [|exact Hnew].
      eapply paired_grows; [|exact Hpaired].
      intros ev. now apply extends_In.
Qed.

(** A scan that answers [Ok] ran the mutation loop once, from no
    findings, with a context built before the loop from its
    configuration and from the one verification baseline. *)
Lemma runScan_Ok_loop target config st result st' :
  runScan sdk target config st = (Return (Ok result), st') ->
  exists ctx mutations st0 verified,
    Scan.config ctx = config
    /\ verifyBaselineJson ctx = vbJson verified
    /\ mutationLoop sdk ctx mutations [] st0
       = (Return (findings result), st').
Proof.
  unfold runScan, bind at 1, writeStop.
  destruct (configError config); [discriminate|].
  destruct (JsString.isEmpty _); [discriminate|].
  unfold bind at 1, get.
  destruct (requests_get sdk _ _) as [[saved|] w]; [|discriminate].
  destruct (negb (isJsonRequest (savedRequest saved))); [discriminate|].
  destruct (getBodyText (savedRequest saved)) as [bodyText|]; [|discriminate].
  destruct (parseJsonValue bodyText) as [e|[| | | | | |originalJson]];
    try discriminate.
  unfold bind at 1.
  destruct (ensureBaseline sdk _ _ _ _) as [[[e|baselineResponse]|e] st1];
    try discriminate.
  unfold bind at 1.
  destruct (verifyBaseline sdk _ _ _ _) as [[[e|verified]|e] st2];
    try discriminate.
  destruct (buildMutations originalJson (maxMutations config) config)
    as [|m0 ms]; [discriminate|].
  unfold bind.
  match goal with
  | |- context [mutationLoop sdk ?c ?l [] st2] =>
      destruct (mutationLoop sdk c l [] st2) as [[fs|e] st3] eqn:Hloop;
      [|discriminate];
      intros [= <- <-]; exists c, l, st2, verified
  end.
  repeat split. exact Hloop.
Qed.

(** C5: in the findings of a scan, a Persisted finding occurs only when
    [confirmPersistence] is set, directly after the Reflected finding of
    the same mutation (same field, value and mutated request), and only
    when [getPrimitiveDeep] at the field of the parsed answer to the
    [persisted] replay exists and stringifies to the injected value. *)
Theorem persisted_only_after_reflected
        target config st result st' pre f post :
  runScan sdk target config st = (Return (Ok result), st') ->
  findings result = (pre ++ f :: post)%list ->
  Finding.kind f = Finding.Persisted ->
  exists pre' g,
    pre = (pre' ++ [g])%list /\ persistedAfter config (trace st') g f.
Proof.
  intros Hrun Hsplit Hk.
  apply runScan_Ok_loop in Hrun as (ctx & ms & st0 & vb & <- & _ & Hloop).
  apply mutationLoop_paired in Hloop as (_ & _ & Hpaired); [|exact I].
  rewrite Hsplit in Hpaired.
  destruct (paired_before _ _ _ _ _ _ Hpaired Hk) as (g & Hg & Hpos).
  destruct Hpos as [[_ [=]]|[pre' ->]]. now exists pre', g.
Qed.


End WithSdk.
End LoopFacts.

(** ** The loop on the lab server *)

Module LoopExamples.
Import Notions.
Import JsNumber Json Body Generator Http Adapter Scan Props LoopFacts.
Local Open Scope string_scope.

(** The lab scan reports the injected [isAdmin] as Reflected, then as
    Persisted. *)
Example labScan_kinds :
  map Finding.kind (findingsOf labScan)
  = [Finding.Reflected; Finding.Persisted].
Proof. vm_compute. reflexivity. Qed.

Lemma persisted_only_after_reflected_witness :
  exists pre' g,
    firstn 1 (findingsOf labScan) = (pre' ++ [g])%list
    /\ persistedAfter labConfig (trace (snd labScan)) g
                      (nth 1 (findingsOf labScan) noFinding).
Proof.
  apply (persisted_only_after_reflected labSdk
           {| requestId := " 1 " |} labConfig labStart
           {| baselineRequestId := "1"; findings := findingsOf labScan |}
           (snd labScan)
           (firstn 1 (findingsOf labScan))
           (nth 1 (findingsOf labScan) noFinding)
           []);
    vm_compute; reflexivity.
Defined.

(** On the lab server the first mutation changes the plan for good; the
    second, which does not touch the plan, is reported as StateChanged
    all the same. *)
Example labLoop_kinds :
  match fst (mutationLoop labSdk labContext labMutations [] labStart) with
  | Return l => map (fun f => (Finding.kind f, Finding.field f)) l
  | Throw _ => []
  end
  = [(Finding.StateChanged, "plan"); (Finding.Reflected, "plan");
     (Finding.StateChanged, "role"); (Finding.Reflected, "role")].
Proof. vm_compute. reflexivity. Qed.

End LoopExamples.

(** ** Printing and reading decimal digits *)

Module DigitFacts.
Import Notions.
Import JsNumber.
Local Open Scope N_scope.

Lemma digit_roundtrip d : d < 10 -> digitValue (digitChar d) = d.
Proof.
  intros H. unfold digitValue, digitChar.
  rewrite N_ascii_embedding by lia. lia.
Qed.

Lemma digitChar_isDigit d : d < 10 -> JsString.isDigit (digitChar d) = true.
Proof.
  intros H. unfold JsString.isDigit, JsString.code, digitChar.
  rewrite N_ascii_embedding by lia.
  apply andb_true_iff. split; apply N.leb_le; lia.
Qed.

Lemma digitChar_zero d : d < 10 -> digitChar d = "0"%char -> d = 0.
Proof.
  intros H E. apply (f_equal digitValue) in E.
  rewrite digit_roundtrip in E by exact H. exact E.
Qed.

Lemma valueFrom_app acc a b :
  valueFrom acc (a ++ b) = valueFrom (valueFrom acc a) b.
Proof. revert acc. induction a as [|c a IH]; intros acc; simpl; auto. Qed.

Lemma valueFrom_shift acc s :
  valueFrom acc s = acc * 10 ^ N.of_nat (String.length s) + valueFrom 0 s.
Proof.
  revert acc. induction s as [|c s IH]; intros acc.
  - simpl. lia.
  - cbn [valueFrom String.length]. rewrite IH, (IH (10 * 0 + digitValue c)).
    rewrite Nat2N.inj_succ, N.pow_succ_r'. lia.
Qed.

Lemma value_app a b :
  value (a ++ b) = value a * 10 ^ N.of_nat (String.length b) + value b.
Proof. unfold value. now rewrite valueFrom_app, valueFrom_shift. Qed.

Lemma value_zeros k s : value (zeros k ++ s) = value s.
Proof.
  induction k as [|k IH]; [reflexivity|].
  unfold value in *. exact IH.
Qed.

Lemma length_app (a b : string) :
  String.length (a ++ b) = (String.length a + String.length b)%nat.
Proof. induction a as [|c a IH]; simpl; auto. Qed.

Lemma length_zeros k : String.length (zeros k) = k.
Proof. induction k; simpl; auto. Qed.

Lemma allDigits_app a b : allDigits (a ++ b) = allDigits a && allDigits b.
Proof.
  induction a as [|c a IH]; simpl; [reflexivity|].
  now rewrite IH, andb_assoc.
Qed.

Lemma allDigits_zeros k : allDigits (zeros k) = true.
Proof. induction k; simpl; auto. Qed.

(** What the digits of [n] are, whatever the fuel, once it is enough. *)
Lemma digitsFuel_spec fuel :
  forall n,
    n < 2 ^ N.of_nat (S fuel) ->
    value (digitsFuel fuel n) = n
    /\ allDigits (digitsFuel fuel n) = true
    /\ (forall k, n < 10 ^ N.of_nat (S k) ->
                  (String.length (digitsFuel fuel n) <= S k)%nat)
    /\ exists c r,
         digitsFuel fuel n = String c r
         /\ (c = "0"%char -> n = 0 /\ r = EmptyString).
Proof.
  induction fuel as [|fuel IH]; intros n Hn.
  - assert (n < 10) by (simpl in Hn; lia).
    cbn [digitsFuel]. rewrite N.mod_small by lia.
    repeat split.
    + unfold value. simpl. rewrite digit_roundtrip; lia.
    + simpl. now rewrite digitChar_isDigit.
    + intros k _. simpl. lia.
    + eexists _, _. split; [reflexivity|].
      intros E. apply digitChar_zero in E; auto.
  - cbn [digitsFuel]. destruct (N.ltb_spec n 10) as [Hs|Hl].
    + rewrite N.mod_small by lia. repeat split.
      * unfold value. simpl. rewrite digit_roundtrip; lia.
      * simpl. now rewrite digitChar_isDigit.
      * intros k _. simpl. lia.
      * eexists _, _. split; [reflexivity|].
        intros E. apply digitChar_zero in E; auto.
    + assert (Hq : n / 10 < 2 ^ N.of_nat (S fuel)).
      { rewrite Nat2N.inj_succ, N.pow_succ_r' in Hn.
        apply N.Div0.div_lt_upper_bound. lia. }
      destruct (IH _ Hq) as (Hval & Hall & Hlen & c & r & Heq & Hzero).
      assert (Hmod : n mod 10 < 10) by (apply N.mod_lt; lia).
      repeat split.
      * rewrite value_app, Hval. unfold value. simpl.
        rewrite digit_roundtrip by exact Hmod.
        pose proof (N.div_mod n 10). lia.
      * rewrite allDigits_app, Hall. simpl. now rewrite digitChar_isDigit.
      * intros k Hk. rewrite length_app. simpl.
        destruct k as [|k].
        { simpl in Hk. lia. }
        assert (n / 10 < 10 ^ N.of_nat (S k)).
        { rewrite (Nat2N.inj_succ (S k)), N.pow_succ_r' in Hk.
          apply N.Div0.div_lt_upper_bound. lia. }
        specialize (Hlen k H). lia.
      * rewrite Heq. eexists _, _. split; [reflexivity|].
        intros E. destruct (Hzero E) as [Hz _].
        assert (n / 10 <> 0).
        { intros Hd. apply N.div_small_iff in Hd; lia. }
        contradiction.
Qed.

Lemma digits_fuel n : n < 2 ^ N.of_nat (S (N.to_nat (N.log2 n))).
Proof.
  rewrite Nat2N.inj_succ, N2Nat.id.
  destruct n as [|p]; [reflexivity|].
  apply N.log2_spec. lia.
Qed.

Lemma value_digits n : value (digits n) = n.
Proof. apply digitsFuel_spec, digits_fuel. Qed.

Lemma allDigits_digits n : allDigits (digits n) = true.
Proof. apply digitsFuel_spec, digits_fuel. Qed.

Lemma length_digits n k :
  n < 10 ^ N.of_nat (S k) -> (String.length (digits n) <= S k)%nat.
Proof. apply digitsFuel_spec, digits_fuel. Qed.

Lemma digits_head n :
  exists c r,
    digits n = String c r
    /\ JsString.isDigit c = true
    /\ allDigits r = true
    /\ (c = "0"%char -> n = 0 /\ r = EmptyString).
Proof.
  destruct (digitsFuel_spec _ n (digits_fuel n))
    as (_ & Hall & _ & c & r & Heq & Hz).
  exists c, r. unfold digits. rewrite Heq in *. simpl in Hall.
  apply andb_true_iff in Hall as [? ?]. auto.
Qed.

End DigitFacts.

(** ** A printed number reads back *)

Module NumberFacts.
Import Notions.
Import JsNumber Json Props DigitFacts.
Local Open Scope string_scope.

Lemma append_assoc (a b c : string) : (a ++ b) ++ c = a ++ b ++ c.
Proof. induction a as [|x a IH]; simpl; [reflexivity | now rewrite IH]. Qed.

Lemma append_nil_r (a : string) : a ++ EmptyString = a.
Proof. induction a as [|x a IH]; simpl; [reflexivity | now rewrite IH]. Qed.

Lemma delimiter_cases c :
  delimiter c = true -> c = ","%char \/ c = "]"%char \/ c = "}"%char.
Proof.
  unfold delimiter. intros H.
  apply orb_true_iff in H as [H|H]; [apply orb_true_iff in H as [H|H]|];
    apply Ascii.eqb_eq in H; auto.
Qed.

Lemma spanDigits_app ds rest :
  allDigits ds = true ->
  delimited rest = true ->
  spanDigits (ds ++ rest) = (ds, rest).
Proof.
  intros Hds Hrest. induction ds as [|c ds IH]; simpl.
  - destruct rest as [|c r]; [reflexivity|]. simpl in Hrest.
    destruct (delimiter_cases _ Hrest) as [->|[->| ->]]; reflexivity.
  - simpl in Hds. apply andb_true_iff in Hds as [Hc Hds].
    now rewrite Hc, (IH Hds).
Qed.

Lemma spanDigits_dot ds rest :
  allDigits ds = true ->
  spanDigits (ds ++ String "." rest) = (ds, String "." rest).
Proof.
  intros Hds. induction ds as [|c ds IH]; simpl; [reflexivity|].
  simpl in Hds. apply andb_true_iff in Hds as [Hc Hds].
  now rewrite Hc, (IH Hds).
Qed.

Lemma parseFraction_none rest :
  delimited rest = true -> parseFraction rest = Some (EmptyString, rest).
Proof.
  destruct rest as [|c r]; [reflexivity|]. simpl. intros H.
  destruct (delimiter_cases _ H) as [->|[->| ->]]; reflexivity.
Qed.

Lemma parseExponent_none rest :
  delimited rest = true -> parseExponent rest = Some (0%Z, rest).
Proof.
  destruct rest as [|c r]; [reflexivity|]. simpl. intros H.
  destruct (delimiter_cases _ H) as [->|[->| ->]]; reflexivity.
Qed.

Lemma digit_not_minus c : JsString.isDigit c = true -> Ascii.eqb c "-" = false.
Proof.
  intros H. apply Ascii.eqb_neq. intros ->. discriminate.
Qed.

(** The integer part of a printed number is read back whole. *)
Lemma parseNumber_digits (neg : bool) (n : N) (tail : string) :
  (delimited tail = true \/ exists r, tail = String "." r) ->
  parseNumber ((if neg then "-" else EmptyString) ++ digits n ++ tail)
  = match parseFraction tail with
    | Some (fp, s3) =>
        match parseExponent s3 with
        | Some (ex, s4) => Some (ofParts neg (digits n) fp ex, s4)
        | None => None
        end
    | None => None
    end.
Proof.
  intros Htail.
  destruct (digits_head n) as (c & r & Heq & Hc & Hr & Hzero).
  assert (Hspan : spanDigits (String c r ++ tail) = (String c r, tail)).
  { destruct Htail as [Ht|[t ->]].
    - apply spanDigits_app; [simpl; now rewrite Hc, Hr | exact Ht].
    - apply spanDigits_dot. simpl. now rewrite Hc, Hr. }
  assert (Hbody :
            (let (ip, s2) :=
               if Ascii.eqb c "0" then (String c EmptyString, r ++ tail)
               else spanDigits (String c (r ++ tail)) in
             match parseFraction s2 with
             | Some (fp, s3) =>
                 match parseExponent s3 with
                 | Some (ex, s4) => Some (ofParts neg ip fp ex, s4)
                 | None => None
                 end
             | None => None
             end)
            = match parseFraction tail with
              | Some (fp, s3) =>
                  match parseExponent s3 with
                  | Some (ex, s4) => Some (ofParts neg (String c r) fp ex, s4)
                  | None => None
                  end
              | None => None
              end).
  { destruct (Ascii.eqb_spec c "0") as [E|_].
    - destruct (Hzero E) as [_ ->]. reflexivity.
    - change (String c (r ++ tail)) with (String c r ++ tail).
      now rewrite Hspan. }
  rewrite Heq. unfold parseNumber.
  destruct neg; cbn [append].
  - change (Ascii.eqb "-" "-") with true. cbv iota. rewrite Hc. exact Hbody.
  - rewrite (digit_not_minus _ Hc), Hc. exact Hbody.
Qed.

Lemma normalize_normalized m e :
  normalized (Finite m e) = true -> normalize m e = (m, e).
Proof.
  destruct e as [|e]; simpl; [reflexivity|].
  intros H. apply negb_true_iff in H. now rewrite H.
Qed.

Lemma normalized_normalize m e :
  normalized (Finite (fst (normalize m e)) (snd (normalize m e))) = true.
Proof.
  revert m. induction e as [|e IH]; intros m; simpl; [reflexivity|].
  destruct (m mod 10 =? 0)%Z eqn:E; [apply IH|]. simpl. now rewrite E.
Qed.

Lemma normalized_make m e : normalized (make m e) = true.
Proof.
  unfold make. pose proof (normalized_normalize m e) as H.
  now destruct (normalize m e).
Qed.

Lemma signed_abs m :
  (if (m <? 0)%Z then (- Z.of_N (Z.to_N (Z.abs m)))%Z
   else Z.of_N (Z.to_N (Z.abs m))) = m.
Proof. destruct (Z.ltb_spec m 0); lia. Qed.

(** A finite number in canonical form, printed and followed by a
    delimiter, reads back as itself. *)
Lemma parseNumber_toString m e rest :
  normalized (Finite m e) = true ->
  delimited rest = true ->
  parseNumber (toString (Finite m e) ++ rest) = Some (Finite m e, rest).
Proof.
  intros Hnorm Hrest. unfold toString.
  rewrite (normalize_normalized _ _ Hnorm).
  set (a := Z.to_N (Z.abs m)).
  destruct e as [|e'].
  - rewrite append_assoc, parseNumber_digits by (now left).
    rewrite (parseFraction_none _ Hrest), (parseExponent_none _ Hrest).
    unfold ofParts. cbn [String.length].
    rewrite value_digits. change (value EmptyString) with 0%N.
    change (10 ^ N.of_nat 0)%N with 1%N. rewrite N.mul_1_r, N.add_0_r.
    subst a. rewrite signed_abs. reflexivity.
  - set (e := S e') in *.
    set (p := (10 ^ N.of_nat e)%N).
    set (fp0 := digits (a mod p)).
    set (F := zeros (e - String.length fp0) ++ fp0).
    assert (Hp : (0 < p)%N) by (subst p; apply N.neq_0_lt_0, N.pow_nonzero; lia).
    assert (Hlen0 : (String.length fp0 <= e)%nat).
    { subst fp0 e. apply length_digits. apply N.mod_lt. lia. }
    assert (HlenF : String.length F = e).
    { subst F. rewrite length_app, length_zeros. lia. }
    assert (HallF : allDigits F = true).
    { subst F fp0.
      now rewrite allDigits_app, allDigits_zeros, allDigits_digits. }
    assert (HvalF : value F = (a mod p)%N).
    { subst F fp0. now rewrite value_zeros, value_digits. }
    replace (((if (m <? 0)%Z then "-" else EmptyString)
              ++ digits (a / p) ++ "." ++ F) ++ rest)
      with ((if (m <? 0)%Z then "-" else EmptyString)
            ++ digits (a / p) ++ String "." (F ++ rest))
      by (now rewrite !append_assoc).
    rewrite parseNumber_digits by (right; eauto).
    unfold parseFraction. change (Ascii.eqb "." ".") with true. cbv iota.
    rewrite (spanDigits_app _ _ HallF Hrest).
    destruct F as [|d F'] eqn:HF; [simpl in HlenF; subst e; discriminate|].
    rewrite <- HF in *.
    rewrite (parseExponent_none _ Hrest).
    unfold ofParts. rewrite HlenF, value_digits, HvalF.
    fold p. replace (a / p * p + a mod p)%N with a
      by (rewrite N.mul_comm; apply N.div_mod; lia).
    subst a. rewrite signed_abs, Z.sub_0_r.
    destruct (Z.leb_spec 0 (Z.of_nat e)) as [_|]; [|lia].
    rewrite Nat2Z.id. unfold make.
    now rewrite (normalize_normalized _ _ Hnorm).
Qed.

(** The text of a finite number starts with a minus sign or a digit. *)
Lemma toString_head m e :
  exists c r,
    toString (Finite m e) = String c r
    /\ (c = "-"%char \/ JsString.isDigit c = true).
Proof.
  unfold toString. destruct (normalize m e) as [m' e'].
  destruct (m' <? 0)%Z.
  - destruct e'; eexists _, _; (split; [reflexivity | now left]).
  - destruct (digits_head (Z.to_N (Z.abs m'))) as (c & r & Heq & Hc & _).
    destruct e' as [|e''].
    + rewrite Heq. eexists _, _. split; [reflexivity | now right].
    + destruct (digits_head
                  (Z.to_N (Z.abs m') / 10 ^ N.of_nat (S e'')))
        as (c' & r' & Heq' & Hc' & _).
      rewrite Heq'. eexists _, _. split; [reflexivity | now right].
Qed.

End NumberFacts.

(** ** A printed JSON text reads back *)

Module RoundTrip.
Import Notions.
Import JsNumber Json Body Props DigitFacts NumberFacts.
Local Open Scope string_scope.

(** An induction principle that reaches the elements of arrays and the
    values of objects. *)
Lemma JSONValue_deep_ind (P : JSONValue -> Prop) :
  P JUndefined -> P JNull -> (forall b, P (JBool b)) ->
  (forall n, P (JNumber n)) -> (forall s, P (JString s)) ->
  (forall items, Forall P items -> P (JArray items)) ->
  (forall props, Forall (fun kv => P (snd kv)) props -> P (JObject props)) ->
  forall v, P v.
Proof.
  intros Hu Hn Hb Hnum Hs Ha Ho.
  fix IH 1. intros [| |b|n|s|items|props].
  - exact Hu.
  - exact Hn.
  - apply Hb.
  - apply Hnum.
  - apply Hs.
  - apply Ha. induction items as [|x r IHr]; constructor.
    + apply IH.
    + exact IHr.
  - apply Ho. induction props as [|[k x] r IHr]; constructor.
    + apply IH.
    + exact IHr.
Qed.

Lemma stringify_array items :
  stringifyValue (JArray items)
  = "[" ++ JsString.join "," (map stringifyValue items) ++ "]".
Proof.
  reflexivity.
Qed.

Lemma stringify_object props :
  stringifyValue (JObject props)
  = "{" ++ JsString.join "," (membersText props) ++ "}".
Proof.
  reflexivity.
Qed.

Lemma isJson_array items :
  isJson (JArray items) = true -> Forall (fun x => isJson x = true) items.
Proof.
  cbn [isJson]. induction items as [|x r IH]; [constructor|].
  intros H. apply andb_true_iff in H as [Hx Hr]. constructor; auto.
Qed.

Lemma isJson_object props :
  isJson (JObject props) = true ->
  JsObject.uniqueKeys props = true
  /\ Forall (fun kv => isJson (snd kv) = true) props.
Proof.
  cbn [isJson]. intros H. apply andb_true_iff in H as [Hu Hall].
  apply andb_true_iff in Hu as [Hu _].
  split; [exact Hu|]. clear Hu.
  induction props as [|[k x] r IH]; [constructor|].
  apply andb_true_iff in Hall as [Hx Hr]. constructor; auto.
Qed.

Lemma isJson_ordered props :
  isJson (JObject props) = true -> JsObject.ordered props = true.
Proof.
  cbn [isJson]. intros H. apply andb_true_iff in H as [Hu _].
  now apply andb_true_iff in Hu as [_ Ho].
Qed.

Lemma isJson_object_intro props :
  JsObject.uniqueKeys props = true ->
  JsObject.ordered props = true ->
  Forall (fun kv => isJson (snd kv) = true) props ->
  isJson (JObject props) = true.
Proof.
  intros Hu Ho Hall. cbn [isJson]. rewrite Hu, Ho. cbn [andb].
  clear Hu Ho.
  induction Hall as [|[k x] r Hx Hr IH]; [reflexivity|].
  cbn [snd] in Hx. now rewrite Hx.
Qed.

(** In a JSON value every member of an object is printed. *)
Lemma membersText_json props :
  Forall (fun kv => isJson (snd kv) = true) props ->
  membersText props
  = map (fun kv => quote (fst kv) ++ ":" ++ stringifyValue (snd kv)) props.
Proof.
  induction 1 as [|[k x] r Hx Hr IH]; [reflexivity|].
  cbn [membersText map fst snd]. rewrite IH.
  destruct x; try reflexivity. discriminate.
Qed.

(** *** String literals *)

Lemma parseChars_escapeChar c rest :
  parseChars (escapeChar c ++ rest) = consChar c (parseChars rest).
Proof.
  destruct c as [[] [] [] [] [] [] [] []]; reflexivity.
Qed.

Lemma parseChars_quoteChars s rest :
  parseChars (quoteChars s ++ String dquote rest) = Some (s, rest).
Proof.
  induction s as [|c s IH]; [reflexivity|].
  cbn [quoteChars]. rewrite append_assoc, parseChars_escapeChar, IH.
  reflexivity.
Qed.

Lemma quote_append s rest :
  quote s ++ rest = String dquote (quoteChars s ++ String dquote rest).
Proof. unfold quote. cbn [append]. now rewrite append_assoc. Qed.

(** *** The first character of a printed value *)

Lemma stringify_head v :
  exists c r, stringifyValue v = String c r /\ startsValue c = true.
Proof.
  destruct v as [| |[]|n|s|items|props];
    try (eexists _, _; split; reflexivity).
  cbn [stringifyValue].
  destruct n as [m e| |neg]; cbn [isFinite];
    try (eexists _, _; split; reflexivity).
  destruct (toString_head m e) as (c & r & -> & [->|Hc]);
    eexists _, _; (split; [reflexivity|]); [reflexivity|].
  unfold startsValue. rewrite Hc. now rewrite !orb_true_r.
Qed.

Lemma startsValue_not_space c :
  startsValue c = true ->
  isJsonWs c = false /\ Ascii.eqb c "]" = false /\ Ascii.eqb c "}" = false.
Proof.
  destruct c as [[] [] [] [] [] [] [] []]; intros H;
    try discriminate H; repeat split.
Qed.

Lemma skipWs_value v rest :
  skipWs (stringifyValue v ++ rest) = stringifyValue v ++ rest.
Proof.
  destruct (stringify_head v) as (c & r & -> & Hc).
  apply startsValue_not_space in Hc as (Hws & _). cbn. now rewrite Hws.
Qed.

Lemma skipWs_delimited rest : delimited rest = true -> skipWs rest = rest.
Proof.
  destruct rest as [|c r]; [reflexivity|]. simpl. intros H.
  destruct (delimiter_cases _ H) as [->|[->| ->]]; reflexivity.
Qed.

Lemma parseValue_number fuel c r :
  c = "-"%char \/ JsString.isDigit c = true ->
  parseValue (S fuel) (String c r)
  = match parseNumber (String c r) with
    | Some (num, rest) => Some (JNumber num, rest)
    | None => None
    end.
Proof.
  intros [->|H]; [reflexivity|].
  destruct c as [[] [] [] [] [] [] [] []]; try discriminate H; reflexivity.
Qed.

(** *** Fuel *)

Lemma cost_array items : cost (JArray items) = S (costItems items).
Proof. reflexivity. Qed.

Lemma cost_object props : cost (JObject props) = S (costProps props).
Proof. reflexivity. Qed.

Lemma join_cons2 sep a b l :
  JsString.join sep (a :: b :: l) = a ++ sep ++ JsString.join sep (b :: l).
Proof. reflexivity. Qed.

Lemma parseElements_text items :
  Forall readsBack items ->
  items <> [] ->
  forall fuel rest,
    (costItems items <= fuel)%nat ->
    parseElements fuel
      (JsString.join "," (map stringifyValue items) ++ String "]" rest)
    = Some (items, rest).
Proof.
  induction 1 as [|x r Hx Hr IH]; [congruence|]. intros _ fuel rest Hfuel.
  destruct fuel as [|f]; [simpl in Hfuel; lia|].
  cbn [costItems] in Hfuel.
  destruct r as [|y r'].
  - cbn [map JsString.join parseElements].
    rewrite Hx by (simpl; auto; lia). reflexivity.
  - cbn [map]. rewrite join_cons2, !append_assoc.
    cbn [parseElements append].
    rewrite Hx by (simpl; auto; lia).
    change (skipWs (String "," ?t)) with (String "," t).
    change (Ascii.eqb "," ",") with true. cbv iota.
    assert (Hskip : forall t,
               skipWs (JsString.join "," (map stringifyValue (y :: r')) ++ t)
               = JsString.join "," (map stringifyValue (y :: r')) ++ t).
    { intros t. destruct r'; cbn [map].
      - cbn [JsString.join]. apply skipWs_value.
      - rewrite join_cons2, append_assoc. apply skipWs_value. }
    change (stringifyValue y :: map stringifyValue r')
      with (map stringifyValue (y :: r')).
    rewrite Hskip.
    rewrite IH by (try discriminate; cbn [costItems] in *; lia).
    reflexivity.
Qed.

Lemma skipWs_member kv t :
  skipWs (memberText kv ++ t) = memberText kv ++ t.
Proof. unfold memberText. now rewrite quote_append. Qed.

Lemma skipWs_members props t :
  props <> [] ->
  skipWs (JsString.join "," (map memberText props) ++ t)
  = JsString.join "," (map memberText props) ++ t.
Proof.
  destruct props as [|kv [|kv' r]]; [congruence| |]; intros _; cbn [map].
  - cbn [JsString.join]. apply skipWs_member.
  - rewrite join_cons2, append_assoc. apply skipWs_member.
Qed.

Lemma parseMembers_text props :
  Forall (fun kv => readsBack (snd kv)) props ->
  props <> [] ->
  forall fuel rest,
    (costProps props <= fuel)%nat ->
    parseMembers fuel
      (JsString.join "," (map memberText props) ++ String "}" rest)
    = Some (props, rest).
Proof.
  induction 1 as [|[k x] r Hx Hr IH]; [congruence|]. intros _ fuel rest Hfuel.
  destruct fuel as [|f]; [simpl in Hfuel; lia|].
  cbn [costProps] in Hfuel. cbn [snd] in Hx.
  destruct r as [|kv r'].
  - cbn [map JsString.join]. unfold memberText at 1. cbn [fst snd].
    rewrite !append_assoc, quote_append. cbn [parseMembers].
    change (Ascii.eqb dquote dquote) with true. cbv iota.
    rewrite parseChars_quoteChars. cbn [append].
    change (skipWs (String ":" ?t)) with (String ":" t).
    change (Ascii.eqb ":" ":") with true. cbv iota.
    rewrite skipWs_value, Hx by (simpl; auto; lia). reflexivity.
  - cbn [map]. rewrite join_cons2. unfold memberText at 1. cbn [fst snd].
    rewrite !append_assoc, quote_append. cbn [parseMembers].
    change (Ascii.eqb dquote dquote) with true. cbv iota.
    rewrite parseChars_quoteChars. cbn [append].
    change (skipWs (String ":" ?t)) with (String ":" t).
    change (Ascii.eqb ":" ":") with true. cbv iota.
    rewrite skipWs_value, Hx by (simpl; auto; lia).
    change (skipWs (String "," ?t)) with (String "," t).
    change (Ascii.eqb "," ",") with true. cbv iota.
    change (memberText kv :: map memberText r')
      with (map memberText (kv :: r')).
    rewrite skipWs_members by discriminate.
    rewrite IH by (try discriminate; cbn [costProps] in *; lia).
    reflexivity.
Qed.

(** *** Objects built from distinct keys *)

Lemma fromEntries_distinct props :
  JsObject.uniqueKeys props = true -> JsObject.ordered props = true ->
  fromEntries props = props.
Proof.
  intros Hu Ho. unfold fromEntries. now rewrite JsObjectFacts.define_all.
Qed.

(** *** Values *)

Lemma readsBack_json v : isJson v = true -> readsBack v.
Proof.
  induction v as [| |b|n|s|items IH|props IH] using JSONValue_deep_ind;
    intros Hjson fuel rest Hfuel Hrest;
    (destruct fuel as [|f]; [simpl in Hfuel; lia|]).
  - discriminate.
  - reflexivity.
  - destruct b; reflexivity.
  - cbn [isJson] in Hjson. destruct n as [m e| |neg]; try discriminate.
    cbn [stringifyValue isFinite].
    destruct (toString_head m e) as (c & r & Heq & Hc).
    pose proof (parseNumber_toString m e rest Hjson Hrest) as Hparse.
    rewrite Heq in *. cbn [append] in *.
    rewrite (parseValue_number f c _ Hc), Hparse. reflexivity.
  - cbn [stringifyValue]. rewrite quote_append. cbn [parseValue].
    change (Ascii.eqb dquote dquote) with true. cbv iota.
    now rewrite parseChars_quoteChars.
  - rewrite stringify_array, cost_array in *.
    destruct items as [|x r]; [reflexivity|].
    rewrite !append_assoc. cbn [append parseValue].
    change (Ascii.eqb "[" dquote) with false.
    change (Ascii.eqb "[" "[") with true. cbv iota.
    destruct (stringify_head x) as (c & t & Hhead & Hc).
    assert (Hstart :
              exists u,
                JsString.join "," (map stringifyValue (x :: r)) ++ String "]" rest
                = String c u).
    { destruct r as [|y r']; cbn [map].
      - cbn [JsString.join]. rewrite Hhead. eexists. reflexivity.
      - rewrite join_cons2, Hhead. eexists. reflexivity. }
    destruct Hstart as (u & Hu).
    pose proof (parseElements_text (x :: r)) as Helems.
    apply startsValue_not_space in Hc as (Hws & Hclose & _).
    rewrite Hu. cbn [skipWs]. rewrite Hws, Hclose. rewrite <- Hu.
    rewrite Helems; [reflexivity | | discriminate | lia].
    apply isJson_array in Hjson.
    rewrite Forall_forall in *. auto.
  - rewrite stringify_object, cost_object in *.
    pose proof (isJson_ordered _ Hjson) as Hordered.
    apply isJson_object in Hjson as [Hunique Hvalues].
    rewrite (membersText_json _ Hvalues).
    destruct props as [|[k x] r]; [reflexivity|].
    fold memberText.
    change (map (fun kv => quote (fst kv) ++ ":" ++ stringifyValue (snd kv)))
      with (map memberText).
    rewrite !append_assoc. cbn [append parseValue].
    change (Ascii.eqb "{" dquote) with false.
    change (Ascii.eqb "{" "[") with false.
    change (Ascii.eqb "{" "{") with true. cbv iota.
    rewrite skipWs_members by discriminate.
    pose proof (parseMembers_text ((k, x) :: r)) as Hmembers.
    assert (Hstart :
              exists u,
                JsString.join "," (map memberText ((k, x) :: r))
                  ++ String "}" rest
                = String dquote u).
    { destruct r as [|y r']; cbn [map].
      - cbn [JsString.join]. unfold memberText.
        rewrite !append_assoc, quote_append. eexists. reflexivity.
      - rewrite join_cons2. unfold memberText at 1.
        rewrite !append_assoc, quote_append. eexists. reflexivity. }
    destruct Hstart as (u & Hu). rewrite Hu.
    change (Ascii.eqb dquote "}") with false. cbv iota. rewrite <- Hu.
    rewrite Hmembers; [| | discriminate | lia].
    + now rewrite (fromEntries_distinct _ Hunique Hordered).
    + rewrite Forall_forall in *. auto.
Qed.

(** *** Fuel is enough *)

Lemma length_join_items items :
  Forall (fun x => (cost x <= String.length (stringifyValue x))%nat) items ->
  (costItems items
   <= String.length (JsString.join "," (map stringifyValue items)) + 1)%nat.
Proof.
  induction 1 as [|x r Hx Hr IH]; [simpl; lia|].
  destruct r as [|y r'].
  - cbn [map JsString.join costItems]. lia.
  - cbn [map]. rewrite join_cons2, !length_app.
    cbn [map] in IH. cbn [costItems] in *.
    change (String.length ",") with 1%nat. lia.
Qed.

Lemma length_quote s : (2 <= String.length (quote s))%nat.
Proof. unfold quote. simpl. rewrite length_app. simpl. lia. Qed.

Lemma length_join_members props :
  Forall (fun kv => (cost (snd kv)
                     <= String.length (stringifyValue (snd kv)))%nat) props ->
  (costProps props
   <= String.length (JsString.join "," (map memberText props)) + 1)%nat.
Proof.
  induction 1 as [|[k x] r Hx Hr IH]; [simpl; lia|].
  simpl in Hx.
  assert (Hm : (cost x + 1 <= String.length (memberText (k, x)))%nat).
  { unfold memberText. rewrite !length_app. cbn [fst snd].
    pose proof (length_quote k). change (String.length ":") with 1%nat. lia. }
  destruct r as [|y r'].
  - cbn [map JsString.join costProps]. lia.
  - cbn [map]. rewrite join_cons2, !length_app.
    cbn [map] in IH. cbn [costProps] in *.
    change (String.length ",") with 1%nat. lia.
Qed.

Lemma cost_le_length v :
  isJson v = true -> (cost v <= String.length (stringifyValue v))%nat.
Proof.
  induction v as [| |b|n|s|items IH|props IH] using JSONValue_deep_ind;
    intros Hjson.
  - discriminate.
  - simpl. lia.
  - destruct b; simpl; lia.
  - destruct (stringify_head (JNumber n)) as (c & r & -> & _). simpl. lia.
  - pose proof (length_quote s). simpl in *. lia.
  - rewrite stringify_array, cost_array, !length_app.
    apply isJson_array in Hjson.
    assert (H : Forall (fun x => (cost x
                                  <= String.length (stringifyValue x))%nat)
                       items).
    { rewrite Forall_forall in *. auto. }
    apply length_join_items in H. simpl String.length. lia.
  - rewrite stringify_object, cost_object, !length_app.
    apply isJson_object in Hjson as [_ Hvalues].
    rewrite (membersText_json _ Hvalues). fold memberText.
    change (map (fun kv => quote (fst kv) ++ ":" ++ stringifyValue (snd kv)))
      with (map memberText).
    assert (H : Forall (fun kv => (cost (snd kv)
                                   <= String.length
                                        (stringifyValue (snd kv)))%nat)
                       props).
    { rewrite Forall_forall in *. auto. }
    apply length_join_members in H. simpl String.length. lia.
Qed.

(** [JSON.parse(JSON.stringify(v))] is [v] for every JSON value. *)
Theorem JSON_parse_stringify v :
  isJson v = true -> JSON_parse (stringifyValue v) = Some v.
Proof.
  intros Hjson. unfold JSON_parse.
  pose proof (skipWs_value v EmptyString) as Hskip.
  rewrite append_nil_r in Hskip. rewrite Hskip.
  pose proof (readsBack_json v Hjson (S (String.length (stringifyValue v)))
                EmptyString) as Hread.
  rewrite append_nil_r in Hread. rewrite Hread; [reflexivity| |reflexivity].
  pose proof (cost_le_length v Hjson). lia.
Qed.

End RoundTrip.

(** ** The body of a mutation carries its value *)

Module CarryFacts.
Import Notions.
Import JsNumber Json Body Generator Props JsObjectFacts BodyFacts
       GeneratorFacts NumberFacts RoundTrip.
Local Open Scope string_scope.

(** *** The deep set of a JSON value into a JSON object is a JSON object *)

Lemma isJson_define k v (o : JSONObject) :
  isJson (JObject o) = true -> isJson v = true ->
  isJson (JObject (JsObject.define k v o)) = true.
Proof.
  intros Ho Hv. pose proof (isJson_ordered _ Ho) as Hord.
  apply isJson_object in Ho as [Hu Hall].
  apply isJson_object_intro;
    [now apply uniqueKeys_define | now apply ordered_define|].
  now apply (Forall_define (fun x => isJson x = true)).
Qed.

Lemma isJson_put k v (o : JSONObject) :
  isJson (JObject o) = true -> isJson v = true ->
  isJson (JObject (JsObject.put k v o)) = true.
Proof.
  intros Ho Hv. destruct (put_cases k v o) as [->| ->];
    [exact Ho | now apply isJson_define].
Qed.

Lemma isJson_get k (o : JSONObject) x :
  isJson (JObject o) = true -> JsObject.get k o = Some x -> isJson x = true.
Proof.
  intros Ho. apply isJson_object in Ho as [_ Hall].
  induction Hall as [|[k' v'] r Hx Hr IH]; simpl; [discriminate|].
  destruct (String.eqb k k'); [now intros [= <-] | exact IH].
Qed.

(** The object the deep set goes down into is a JSON object. *)
Lemma isJson_spreadRead k (o : JSONObject) :
  isJson (JObject o) = true ->
  isJson (JObject (spreadRead (JsObject.read k o))) = true.
Proof.
  intros Ho. destruct (JsObject.read k o) as [x| | |] eqn:Hread;
    try reflexivity.
  apply read_is_own in Hread. pose proof (isJson_get _ _ _ Ho Hread) as Hx.
  destruct x; try reflexivity. exact Hx.
Qed.

Lemma isJson_setParts parts :
  forall (o : JSONObject) v,
    isJson (JObject o) = true -> isJson v = true ->
    isJson (JObject (setParts o parts v)) = true.
Proof.
  induction parts as [|part rest IH]; intros o v Ho Hv; [exact Ho|].
  destruct rest as [|part' rest'].
  - now apply isJson_put.
  - change (setParts o (part :: part' :: rest') v)
      with (JsObject.put part
              (JObject (setParts
                 (if negb (JsObject.isIn part o)
                     || negb (isRecordRead (JsObject.read part o))
                  then []
                  else spreadRead (JsObject.read part o))
                 (part' :: rest') v)) o).
    apply isJson_put; [exact Ho|]. apply IH; [|exact Hv].
    destruct (negb (JsObject.isIn part o)
              || negb (isRecordRead (JsObject.read part o)));
      [reflexivity | now apply isJson_spreadRead].
Qed.

(** *** The numbers the generator injects are canonical *)

Lemma normalized_ofParts neg ip fp ex :
  normalized (ofParts neg ip fp ex) = true.
Proof.
  unfold ofParts. destruct (0 <=? _)%Z; apply normalized_make.
Qed.

Lemma normalized_add a b : isFinite (add a b) = true -> normalized (add a b) = true.
Proof.
  destruct a as [m1 e1| |s], b as [m2 e2| |t]; simpl; try discriminate.
  - intros _. apply normalized_make.
  - destruct (Bool.eqb s t); discriminate.
Qed.

(** A text that starts with a brace or a bracket parses, if at all, to
    an object or an array. *)
Lemma JSON_parse_container text v :
  JSON_parse text = Some v ->
  JsString.startsWith text "{" = true \/ JsString.startsWith text "[" = true ->
  Generator.isPrimitive v = false.
Proof.
  unfold JSON_parse, JsString.startsWith. intros Hparse Hstart.
  destruct text as [|c r]; [destruct Hstart; discriminate|].
  assert (Hc : c = "{"%char \/ c = "["%char).
  { destruct Hstart as [H|H]; cbn [JsString.isPrefix] in H;
      apply andb_true_iff in H as [H _]; apply Ascii.eqb_eq in H; auto. }
  destruct Hc as [-> | ->].
  - change (skipWs (String "{" r)) with (String "{" r) in Hparse.
    cbn [parseValue] in Hparse.
    change (Ascii.eqb "{" dquote) with false in Hparse.
    change (Ascii.eqb "{" "[") with false in Hparse.
    change (Ascii.eqb "{" "{") with true in Hparse. cbv iota in Hparse.
    destruct (skipWs r) as [|d rest]; [discriminate|].
    destruct (Ascii.eqb d "}").
    + destruct (JsString.isEmpty _); [|discriminate].
      now injection Hparse as <-.
    + destruct (parseMembers _ _) as [[ms rest']|]; [|discriminate].
      destruct (JsString.isEmpty _); [|discriminate].
      now injection Hparse as <-.
  - change (skipWs (String "[" r)) with (String "[" r) in Hparse.
    cbn [parseValue] in Hparse.
    change (Ascii.eqb "[" dquote) with false in Hparse.
    change (Ascii.eqb "[" "[") with true in Hparse. cbv iota in Hparse.
    destruct (skipWs r) as [|d rest]; [discriminate|].
    destruct (Ascii.eqb d "]").
    + destruct (JsString.isEmpty _); [|discriminate].
      now injection Hparse as <-.
    + destruct (parseElements _ _) as [[ms rest']|]; [|discriminate].
      destruct (JsString.isEmpty _); [|discriminate].
      now injection Hparse as <-.
Qed.

(** *** What [JSON.parse] returns is a JSON value *)

Lemma isJson_array_intro items :
  Forall (fun x => isJson x = true) items -> isJson (JArray items) = true.
Proof.
  cbn [isJson]. induction 1 as [|x r Hx Hr IH]; [reflexivity|].
  now rewrite Hx.
Qed.

Lemma isJson_fromEntries ms :
  Forall (fun kv => isJson (snd kv) = true) ms ->
  isJson (JObject (fromEntries ms)) = true.
Proof.
  unfold fromEntries.
  assert (H : forall acc,
             isJson (JObject acc) = true ->
             Forall (fun kv => isJson (snd kv) = true) ms ->
             isJson (JObject
                       (fold_left
                          (fun o kv => JsObject.define (fst kv) (snd kv) o)
                          ms acc)) = true).
  { induction ms as [|[k v] r IH]; intros acc Hacc Hall; [exact Hacc|].
    apply Forall_cons_iff in Hall as [Hv Hr]. cbn [fold_left fst snd].
    apply IH; [now apply isJson_define | exact Hr]. }
  now apply H.
Qed.

Lemma parseNumber_normalized s num rest :
  parseNumber s = Some (num, rest) -> normalized num = true.
Proof.
  unfold parseNumber.
  destruct (match s with
            | String c r => if Ascii.eqb c "-" then (true, r) else (false, s)
            | EmptyString => (false, s)
            end) as [neg s1].
  destruct s1 as [|c r]; [discriminate|].
  destruct (JsString.isDigit c); [|discriminate].
  destruct (if Ascii.eqb c "0" then (String c EmptyString, r)
            else spanDigits (String c r)) as [ip s2].
  destruct (parseFraction s2) as [[fp s3]|]; [|discriminate].
  destruct (parseExponent s3) as [[ex s4]|]; [|discriminate].
  intros [= <- _]. apply normalized_ofParts.
Qed.

Lemma literal_value lit v s v' rest :
  literal lit v s = Some (v', rest) -> v' = v.
Proof.
  unfold literal. destruct (JsString.isPrefix lit s); [|discriminate].
  now intros [= <- _].
Qed.

(** Whatever the fuel, what the parser returns is a JSON value. *)
Lemma parse_sound fuel :
  (forall s v rest, parseValue fuel s = Some (v, rest) -> isJson v = true)
  /\ (forall s vs rest,
         parseElements fuel s = Some (vs, rest) ->
         Forall (fun x => isJson x = true) vs)
  /\ (forall s ms rest,
         parseMembers fuel s = Some (ms, rest) ->
         Forall (fun kv => isJson (snd kv) = true) ms).
Proof.
  induction fuel as [|f (IHv & IHe & IHm)];
    [repeat split; intros; discriminate|].
  split; [|split].
  - intros s v rest. cbn [parseValue].
    destruct s as [|c r]; [discriminate|].
    destruct (Ascii.eqb c dquote).
    { destruct (parseChars r) as [[str rest']|]; [|discriminate].
      now intros [= <- _]. }
    destruct (Ascii.eqb c "[").
    { destruct (skipWs r) as [|d rest']; [discriminate|].
      destruct (Ascii.eqb d "]"); [now intros [= <- _]|].
      destruct (parseElements f _) as [[items rest'']|] eqn:He;
        [|discriminate].
      intros [= <- _]. apply isJson_array_intro. exact (IHe _ _ _ He). }
    destruct (Ascii.eqb c "{").
    { destruct (skipWs r) as [|d rest']; [discriminate|].
      destruct (Ascii.eqb d "}"); [now intros [= <- _]|].
      destruct (parseMembers f _) as [[ms rest'']|] eqn:Hm;
        [|discriminate].
      intros [= <- _]. apply isJson_fromEntries. exact (IHm _ _ _ Hm). }
    destruct (Ascii.eqb c "t").
    { intros H. now rewrite (literal_value _ _ _ _ _ H). }
    destruct (Ascii.eqb c "f").
    { intros H. now rewrite (literal_value _ _ _ _ _ H). }
    destruct (Ascii.eqb c "n").
    { intros H. now rewrite (literal_value _ _ _ _ _ H). }
    destruct (parseNumber (String c r)) as [[num rest']|] eqn:Hn;
      [|discriminate].
    intros [= <- _]. cbn [isJson]. exact (parseNumber_normalized _ _ _ Hn).
  - intros s vs rest. cbn [parseElements].
    destruct (parseValue f s) as [[v r]|] eqn:Hv; [|discriminate].
    destruct (skipWs r) as [|c r']; [discriminate|].
    destruct (Ascii.eqb c ",").
    { destruct (parseElements f _) as [[vs' rest']|] eqn:He; [|discriminate].
      intros [= <- _]. constructor; [exact (IHv _ _ _ Hv)|].
      exact (IHe _ _ _ He). }
    destruct (Ascii.eqb c "]"); [|discriminate].
    intros [= <- _]. constructor; [exact (IHv _ _ _ Hv) | constructor].
  - intros s ms rest. cbn [parseMembers].
    destruct s as [|q r]; [discriminate|].
    destruct (Ascii.eqb q dquote); [|discriminate].
    destruct (parseChars r) as [[k r1]|]; [|discriminate].
    destruct (skipWs r1) as [|c r2]; [discriminate|].
    destruct (Ascii.eqb c ":"); [|discriminate].
    destruct (parseValue f _) as [[v r3]|] eqn:Hv; [|discriminate].
    destruct (skipWs r3) as [|d r4]; [discriminate|].
    destruct (Ascii.eqb d ",").
    { destruct (parseMembers f _) as [[ms' rest']|] eqn:Hm; [|discriminate].
      intros [= <- _]. constructor; [exact (IHv _ _ _ Hv)|].
      exact (IHm _ _ _ Hm). }
    destruct (Ascii.eqb d "}"); [|discriminate].
    intros [= <- _]. constructor; [exact (IHv _ _ _ Hv) | constructor].
Qed.

Lemma JSON_parse_sound text v : JSON_parse text = Some v -> isJson v = true.
Proof.
  unfold JSON_parse.
  destruct (parseValue _ _) as [[v' rest]|] eqn:Hv; [|discriminate].
  destruct (JsString.isEmpty _); [|discriminate].
  intros [= <-]. exact (proj1 (parse_sound _) _ _ _ Hv).
Qed.

(** *** The values the generator injects are JSON values *)

Lemma customValue_sound trimmed : sound (Fixed (customValue trimmed)).
Proof.
  unfold sound, customValue. intros Hdef Hfin. revert Hdef Hfin.
  destruct (String.eqb trimmed "true"); [reflexivity|].
  destruct (String.eqb trimmed "false"); [reflexivity|].
  destruct (String.eqb trimmed "null"); [discriminate|].
  destruct (matchDecimal trimmed) as [[[neg ip] fp]|].
  { cbn [numberOfMatch].
    destruct (isFinite (ofParts neg ip fp 0)); [|reflexivity].
    intros _ _. apply normalized_ofParts. }
  destruct (JsString.startsWith trimmed "{" && JsString.endsWith trimmed "}"
            || JsString.startsWith trimmed "[" && JsString.endsWith trimmed "]");
    [|reflexivity].
  unfold parseJsonValue.
  destruct (JSON_parse trimmed) as [v|] eqn:Hparse; [|reflexivity].
  intros _ _. exact (JSON_parse_sound _ _ Hparse).
Qed.

Lemma addCustom_sound customs :
  forall acc,
    Forall sound acc -> Forall sound (fold_left addCustom customs acc).
Proof.
  induction customs as [|custom r IH]; intros acc Hacc; simpl; [exact Hacc|].
  apply IH. unfold addCustom.
  destruct (JsString.isEmpty (JsString.trim custom)); [exact Hacc|].
  apply Forall_app. split; [exact Hacc|].
  constructor; [apply customValue_sound | constructor].
Qed.

Lemma valueCandidatesOf_sound config : Forall sound (valueCandidatesOf config).
Proof.
  unfold valueCandidatesOf.
  assert (H : Forall sound
                (fold_left addCustom (customValues config)
                   (map Fixed
                      ((if booleanTrue (valueModes config)
                        then [JBool true] else [])
                       ++ (if stringAdmin (valueModes config)
                           then [JString "admin"] else [])
                       ++ (if numberOne (valueModes config)
                           then [JNumber (ofZ 1)] else []))
                    ++ (if numberPlusOne (valueModes config)
                        then [NumericDelta 1] else [])
                    ++ (if numberMinusOne (valueModes config)
                        then [NumericDelta (-1)] else []))%list)).
  { apply addCustom_sound.
    destruct (booleanTrue _), (stringAdmin _), (numberOne _),
      (numberPlusOne _), (numberMinusOne _); simpl;
      repeat constructor. }
  cbv zeta. destruct (fold_left _ _ _); [|exact H].
  constructor; [intros _ _; reflexivity | constructor].
Qed.

Lemma resolve_json c existing :
  sound c ->
  isUndefined (resolve c existing) = false ->
  isNonFiniteNumber (resolve c existing) = false ->
  isJson (resolve c existing) = true.
Proof.
  destruct c as [v|delta]; [simpl; auto|]. intros _.
  destruct existing as [| |b|n|s|items|props];
    cbn [resolve isUndefined isNonFiniteNumber isJson];
    try discriminate.
  - intros _ Hfin. apply negb_false_iff in Hfin. now apply normalized_add.
  - destruct (isDigits s); [reflexivity | discriminate].
Qed.

(** C1, amended: for every baseline JSON object and every configuration
    within bounds, every emitted mutation has a body that parses as a
    JSON object; and when the value of the mutation is a string, a
    number or a boolean and no part of its field is [__proto__],
    [getPrimitiveDeep] at the field of the mutation finds in that
    object a value that stringifies as the value of the mutation. *)
Theorem primitive_value_carried original config m :
  isJson (JObject original) = true ->
  inBounds config = true ->
  In m (buildMutations original (maxMutations config) config) ->
  bodyCarriesPlainValue m.
Proof.
  intros Horig _ Hin.
  apply buildMutations_In in Hin
    as (f & _ & _ & Hfield & (c & Hc & Hvalue) & Hdefined & Hfinite & Hbody).
  assert (Hjson : isJson (value m) = true).
  { pose proof (valueCandidatesOf_sound config) as Hsound.
    rewrite Forall_forall in Hsound. specialize (Hsound c Hc).
    rewrite Hvalue in *. now apply resolve_json. }
  exists (setDeep original f (value m)). split.
  - rewrite Hbody. apply JSON_parse_stringify.
    unfold setDeep. now apply isJson_setParts.
  - intros Hprim Hplain. rewrite Hfield in *.
    rewrite getPrimitiveDeep_setDeep; [reflexivity | | exact Hplain].
    destruct (value m); try discriminate; reflexivity.
Qed.

End CarryFacts.

(** ** Carried values on concrete configurations *)

Module CarryExamples.
Import Notions.
Import JsNumber Json Body Generator Props GeneratorExamplesData CarryFacts.
Local Open Scope string_scope.

Lemma primitive_value_carried_witness :
  bodyCarriesPlainValue
    {| field := "role"; value := JString "admin";
       bodyText :=
         stringifyValue
           (JObject [("plan", JString "free"); ("role", JString "admin")]) |}.
Proof.
  apply (primitive_value_carried
           [("plan", JString "free")] (adminOnly ["plan"; "role"])).
  - reflexivity.
  - reflexivity.
  - vm_compute. left. reflexivity.
Defined.

(** A decimal custom value and a dotted field: the body parses and the
    value is found at the path. *)
Example decimal_at_dotted_path :
  map (fun m =>
         (field m, bodyText m,
          option_map (fun v => safeStringify (getPrimitiveDeep v (field m)))
                     (JSON_parse (bodyText m))))
      (buildMutations [("user", JObject [("id", JNumber (ofZ 7))])] 16
                      (customOnly ["user.credit"] ["-12.50"]))
  = [("user.credit",
      stringifyValue
        (JObject [("user", JObject [("id", JNumber (ofZ 7));
                                    ("credit", JNumber (Finite (-125) 1))])]),
      Some "-12.5")].
Proof. vm_compute. reflexivity. Qed.

End CarryExamples.

(** ** The stack loops never run out of fuel *)

Module StackFacts.
Import Notions.
Import JsNumber Json Body.

Lemma nodes_positive v : (1 <= nodes v)%nat.
Proof. destruct v; simpl; lia. Qed.

Lemma nodes_array items : nodes (JArray items) = S (stackNodes items).
Proof. reflexivity. Qed.

Lemma nodes_object o : nodes (JObject o) = S (stackNodes (values o)).
Proof.
  cbn [nodes]. f_equal. unfold values.
  induction o as [|[k x] r IH]; [reflexivity|]. cbn [map snd stackNodes].
  now rewrite IH.
Qed.

Lemma stackNodes_app a b :
  stackNodes (a ++ b) = (stackNodes a + stackNodes b)%nat.
Proof. induction a as [|v a IH]; simpl; [reflexivity | lia]. Qed.

Lemma stackNodes_rev a : stackNodes (rev a) = stackNodes a.
Proof.
  induction a as [|v a IH]; simpl; [reflexivity|].
  rewrite stackNodes_app, IH. simpl. lia.
Qed.

(** Popping a node and pushing its children leaves one node less. *)
Lemma stackNodes_push children rest :
  stackNodes (rev children ++ rest)
  = (stackNodes children + stackNodes rest)%nat.
Proof. now rewrite stackNodes_app, stackNodes_rev. Qed.

(** With at least as much fuel as there are nodes on the stack, the
    loop of [getPrimitiveDeep] ends because the stack is empty or a
    value is found: more fuel changes nothing. *)
Lemma getPrimitiveLoop_fuel key fuel1 :
  forall fuel2 stack,
    (stackNodes stack <= fuel1)%nat ->
    (stackNodes stack <= fuel2)%nat ->
    getPrimitiveLoop fuel1 stack key = getPrimitiveLoop fuel2 stack key.
Proof.
  induction fuel1 as [|f1 IH]; intros fuel2 stack H1 H2.
  - destruct stack as [|v r]; [now destruct fuel2|].
    pose proof (nodes_positive v). simpl in H1. lia.
  - destruct stack as [|v r]; [now destruct fuel2|].
    destruct fuel2 as [|f2];
      [pose proof (nodes_positive v); simpl in H2; lia|].
    cbn [stackNodes] in H1, H2.
    destruct v as [| |b|n|s|items|o]; cbn [getPrimitiveLoop];
      try (apply IH; simpl in *; lia).
    + apply IH; rewrite stackNodes_push; rewrite nodes_array in *; lia.
    + destruct (if JsObject.isIn key o
                then primitiveRead (JsObject.read key o) else None);
        [reflexivity|].
      apply IH; rewrite stackNodes_push; rewrite nodes_object in *; lia.
Qed.

Lemma containsKeyLoop_fuel key fuel1 :
  forall fuel2 stack,
    (stackNodes stack <= fuel1)%nat ->
    (stackNodes stack <= fuel2)%nat ->
    containsKeyLoop fuel1 stack key = containsKeyLoop fuel2 stack key.
Proof.
  induction fuel1 as [|f1 IH]; intros fuel2 stack H1 H2.
  - destruct stack as [|v r]; [now destruct fuel2|].
    pose proof (nodes_positive v). simpl in H1. lia.
  - destruct stack as [|v r]; [now destruct fuel2|].
    destruct fuel2 as [|f2];
      [pose proof (nodes_positive v); simpl in H2; lia|].
    cbn [stackNodes] in H1, H2.
    destruct v as [| |b|n|s|items|o]; cbn [containsKeyLoop];
      try (apply IH; simpl in *; lia).
    + apply IH; rewrite stackNodes_push; rewrite nodes_array in *; lia.
    + destruct (JsObject.isIn key o); [reflexivity|].
      apply IH; rewrite stackNodes_push; rewrite nodes_object in *; lia.
Qed.

(** The fuel [getPrimitiveDeep] and [containsKeyDeep] give their loops
    is enough: any larger amount gives the same answer. *)
Lemma deep_loops_total value key extra :
  getPrimitiveLoop (nodes value + extra) [value] key
  = getPrimitiveLoop (nodes value) [value] key
  /\ containsKeyLoop (nodes value + extra) [value] key
     = containsKeyDeep value key.
Proof.
  split; [apply getPrimitiveLoop_fuel | apply containsKeyLoop_fuel];
    simpl; lia.
Qed.

End StackFacts.

(** ** Deep search, flattening and deep set *)

Module DeepFacts.
Import Notions Terms.
Import JsNumber Json Body Props JsObjectFacts BodyFacts StackFacts.

Lemma keyInside_array key items :
  keyInside key (JArray items) = existsb (keyInside key) items.
Proof.
  cbn [keyInside]. induction items as [|x r IH]; [reflexivity|].
  cbn [existsb]. now rewrite IH.
Qed.

Lemma keyInside_object key o :
  keyInside key (JObject o)
  = JsObject.isIn key o || existsb (keyInside key) (values o).
Proof.
  cbn [keyInside]. f_equal. unfold values.
  induction o as [|[k x] r IH]; [reflexivity|].
  cbn [map snd existsb]. now rewrite IH.
Qed.

Lemma existsb_reverse {A} (f : A -> bool) l :
  existsb f (rev l) = existsb f l.
Proof.
  induction l as [|x r IH]; [reflexivity|].
  cbn [rev existsb]. rewrite existsb_app, IH. cbn [existsb].
  rewrite orb_false_r. apply orb_comm.
Qed.

Lemma existsb_push {A} (f : A -> bool) children rest :
  existsb f (rev children ++ rest) = existsb f children || existsb f rest.
Proof. now rewrite existsb_app, existsb_reverse. Qed.

(** With fuel for every node on the stack, the loop answers whether
    some value on the stack has the key inside. *)
Lemma containsKeyLoop_keyInside key fuel :
  forall stack,
    (stackNodes stack <= fuel)%nat ->
    containsKeyLoop fuel stack key = existsb (keyInside key) stack.
Proof.
  induction fuel as [|f IH]; intros stack Hfuel.
  - destruct stack as [|v r]; [reflexivity|].
    pose proof (nodes_positive v). simpl in Hfuel. lia.
  - destruct stack as [|v r]; [reflexivity|].
    cbn [stackNodes] in Hfuel. cbn [existsb].
    destruct v as [| |b|n|s|items|o]; cbn [containsKeyLoop];
      try (rewrite IH by (simpl in *; lia); reflexivity).
    + rewrite IH by (rewrite stackNodes_push; rewrite nodes_array in *; lia).
      now rewrite existsb_push, keyInside_array.
    + rewrite keyInside_object.
      destruct (JsObject.isIn key o); [reflexivity|].
      rewrite IH by (rewrite stackNodes_push; rewrite nodes_object in *; lia).
      now rewrite existsb_push.
Qed.

Lemma containsKeyDeep_stack value key :
  containsKeyDeep value key = existsb (keyInside key) [value].
Proof.
  unfold containsKeyDeep. apply containsKeyLoop_keyInside. simpl. lia.
Qed.

(** X1: [containsKeyDeep] answers true exactly when some object inside
    the value, at any depth and through arrays, has the key as an own
    key or inherits it from [Object.prototype], as every object does
    [constructor], [toString] or [__proto__]: the stack loop visits
    every node. *)
Theorem containsKeyDeep_keyInside value key :
  containsKeyDeep value key = keyInside key value.
Proof.
  rewrite containsKeyDeep_stack. cbn [existsb]. apply orb_false_r.
Qed.

Lemma primitiveRead_primitive r v :
  primitiveRead r = Some v -> isPrimitiveOrNull v = true.
Proof.
  destruct r as [x| | |]; cbn [primitiveRead]; try discriminate.
  destruct (isPrimitiveOrNull x) eqn:H; [|discriminate].
  now intros [= <-].
Qed.

(** What the loop of [getPrimitiveDeep] returns is a primitive, null or
    undefined, and when it is not undefined the key is inside a value
    of the stack. *)
Lemma getPrimitiveLoop_found key fuel :
  forall stack,
    let r := getPrimitiveLoop fuel stack key in
    (isPrimitiveOrNull r || isUndefined r = true)
    /\ (isUndefined r = false -> existsb (keyInside key) stack = true).
Proof.
  induction fuel as [|f IH]; intros stack; cbn zeta.
  - cbn [getPrimitiveLoop]. split; [reflexivity | discriminate].
  - destruct stack as [|v rest];
      [cbn [getPrimitiveLoop]; split; [reflexivity | discriminate]|].
    cbn [existsb].
    destruct v as [| |b|n|s|items|o]; cbn [getPrimitiveLoop];
      try exact (IH rest).
    + destruct (IH (rev items ++ rest)) as [H1 H2]. split; [exact H1|].
      intros H. apply H2 in H.
      now rewrite existsb_push, <- keyInside_array in H.
    + rewrite keyInside_object.
      destruct (JsObject.isIn key o) eqn:Hin; cbn [andb orb].
      * destruct (primitiveRead (JsObject.read key o)) as [x|] eqn:Hread.
        -- apply primitiveRead_primitive in Hread.
           split; [now rewrite Hread | reflexivity].
        -- destruct (IH (rev (values o) ++ rest)) as [H1 _].
           split; [exact H1 | reflexivity].
      * destruct (IH (rev (values o) ++ rest)) as [H1 H2].
        split; [exact H1|]. intros H. apply H2 in H.
        now rewrite existsb_push in H.
Qed.

(** X2: whatever the value and the key, dotted or not,
    [getPrimitiveDeep] returns a string, a number, a boolean, null or
    undefined, never an object or an array. *)
Theorem getPrimitiveDeep_primitive value key :
  isPrimitiveOrNull (getPrimitiveDeep value key)
  || isUndefined (getPrimitiveDeep value key) = true.
Proof.
  unfold getPrimitiveDeep.
  destruct (JsString.includesChar key ".").
  - destruct (walkParts (At value) (JsString.split "." key))
      as [[current| |]|]; try reflexivity.
    destruct (isPrimitiveOrNull current) eqn:H; [now rewrite H | reflexivity].
  - apply (getPrimitiveLoop_found key (nodes value) [value]).
Qed.

(** X3: for a key without a dot, [getPrimitiveDeep] finds a value only
    where [containsKeyDeep] finds the key. *)
Theorem getPrimitiveDeep_within_containsKeyDeep value key :
  JsString.includesChar key "." = false ->
  getPrimitiveDeep value key <> JUndefined ->
  containsKeyDeep value key = true.
Proof.
  intros Hdot Hfound. rewrite containsKeyDeep_stack.
  unfold getPrimitiveDeep in Hfound. rewrite Hdot in Hfound.
  destruct (getPrimitiveLoop_found key (nodes value) [value]) as [_ H].
  apply H.
  destruct (getPrimitiveLoop (nodes value) [value] key);
    try reflexivity. congruence.
Qed.

Lemma getPrimitiveDeep_within_containsKeyDeep_witness :
  containsKeyDeep
    (JObject [("user", JArray [JObject [("role", JString "admin")]])])
    "role" = true.
Proof.
  apply getPrimitiveDeep_within_containsKeyDeep;
    [reflexivity | vm_compute; discriminate].
Defined.

Lemma keys_set {V} k (v : V) o :
  keys (JsObject.set k v o)
  = if JsObject.has k o then keys o else (keys o ++ [k])%list.
Proof.
  unfold keys. induction o as [|[k' v'] o IH]; simpl; [reflexivity|].
  destruct (String.eqb k k'); simpl; [reflexivity|].
  rewrite IH. now destruct (JsObject.has k o).
Qed.

Lemma keys_insertIndex {V} n k (v : V) o :
  keys (JsObject.insertIndex n k v o) = placedAt n k (keys o).
Proof.
  unfold keys. induction o as [|[k' v'] o IH]; [reflexivity|].
  cbn [JsObject.insertIndex map fst placedAt].
  destruct (JsObject.arrayIndex k') as [n'|]; [|reflexivity].
  destruct (n' <? n)%N; [|reflexivity].
  cbn [map fst]. now rewrite IH.
Qed.

(** An assignment leaves the keys as they are, or puts one new key in
    its place. *)
Lemma keys_put {V} k (v : V) o :
  keys (JsObject.put k v o)
  = if JsObject.has k o || String.eqb k "__proto__" then keys o
    else placed k (keys o).
Proof.
  unfold JsObject.put, JsObject.define, placed.
  destruct (JsObject.has k o) eqn:Hhas; cbn [negb andb orb].
  - now rewrite keys_set, Hhas.
  - destruct (String.eqb k "__proto__"); [reflexivity|].
    destruct (JsObject.arrayIndex k) as [n|];
      [apply keys_insertIndex | now rewrite keys_set, Hhas].
Qed.

Lemma get_put_other {V} k k' (v : V) o :
  k' <> k -> JsObject.get k' (JsObject.put k v o) = JsObject.get k' o.
Proof.
  intros Hk. destruct (put_cases k v o) as [->| ->]; [reflexivity|].
  now apply get_define_other.
Qed.

(** The deep set makes one assignment to the clone: to the property
    named by the first part. *)
Lemma setParts_head part rest (o : JSONObject) v :
  exists x, setParts o (part :: rest) v = JsObject.put part x o.
Proof.
  destruct rest as [|part' rest']; eexists; reflexivity.
Qed.

(** X4: [setDeep] touches one top-level property only.  Every other
    property keeps its value.  The keys keep their order when the first
    part of the path is an own key, and when it is [__proto__], which
    the assignment hands to the accessor of [Object.prototype]; a new
    key is enumerated among the array indices, in ascending order, if
    it is one, and last if not. *)
Theorem setDeep_keeps_siblings (o : JSONObject) path v k :
  k <> firstPart path ->
  JsObject.get k (setDeep o path v) = JsObject.get k o
  /\ keys (setDeep o path v)
     = if JsObject.has (firstPart path) o
          || String.eqb (firstPart path) "__proto__"
       then keys o
       else placed (firstPart path) (keys o).
Proof.
  intros Hk. unfold setDeep, firstPart in *.
  destruct (JsString.split "." path) as [|part rest] eqn:Hsplit;
    [now apply split_not_nil in Hsplit|].
  cbn [hd] in *. destruct (setParts_head part rest o v) as [x ->].
  split; [now apply get_put_other | apply keys_put].
Qed.

Lemma setDeep_keeps_siblings_witness :
  JsObject.get "name"
    (setDeep [("name", JString "u"); ("profile", JNull)]
             "profile.role" (JString "admin"))
  = Some (JString "u")
  /\ keys (setDeep [("name", JString "u"); ("profile", JNull)]
                   "profile.role" (JString "admin"))
     = ["name"; "profile"].
Proof.
  apply (setDeep_keeps_siblings
           [("name", JString "u"); ("profile", JNull)]
           "profile.role" (JString "admin") "name").
  vm_compute. discriminate.
Defined.

(** A new key that is an array index goes before the other keys, and
    an assignment to [__proto__] adds no key. *)
Lemma setDeep_new_keys :
  keys (setDeep [("name", JString "u")] "7" (JBool true)) = ["7"; "name"]
  /\ keys (setDeep [("name", JString "u")] "__proto__" (JBool true))
     = ["name"]
  /\ keys (setDeep [("name", JString "u")] "role" (JBool true))
     = ["name"; "role"].
Proof. repeat split. Qed.

Lemma uniqueKeys_assign {V} (src acc : list (string * V)) :
  JsObject.uniqueKeys acc = true ->
  JsObject.uniqueKeys (JsObject.assign acc src) = true.
Proof.
  unfold JsObject.assign. revert acc.
  induction src as [|[k v] r IH]; intros acc H; [exact H|].
  cbn [fold_left fst snd]. apply IH. now apply uniqueKeys_put.
Qed.

(** X5: the flattening [getAllPrimitives] returns has pairwise
    distinct paths, whatever the value and the prefix: a path met twice
    keeps one entry. *)
Theorem getAllPrimitives_uniqueKeys value prefix :
  JsObject.uniqueKeys (getAllPrimitives value prefix) = true.
Proof.
  destruct value as [| |b|n|s|items|props]; try reflexivity;
    cbn [getAllPrimitives].
  - generalize O.
    assert (H : JsObject.uniqueKeys (@nil (string * string)) = true)
      by reflexivity.
    revert H. generalize (@nil (string * string)).
    induction items as [|x r IH]; intros result H i; [exact H|].
    apply IH. now apply uniqueKeys_assign.
  - assert (H : JsObject.uniqueKeys (@nil (string * string)) = true)
      by reflexivity.
    revert H. generalize (@nil (string * string)).
    induction props as [|[key val] r IH]; intros result H; [exact H|].
    apply IH. destruct (isPrimitiveOrNull val);
      [now apply uniqueKeys_put | now apply uniqueKeys_assign].
Qed.

End DeepFacts.

(** ** The generator: budget, candidate fields, values *)

Module BudgetFacts.
Import Notions Terms.
Import JsNumber Json Body Generator Props JsObjectFacts GeneratorFacts.
Local Open Scope string_scope.

Lemma eachCandidate_length original maxM config f cands :
  forall mutations,
    Z.of_nat (length mutations) <= Z.max 0 maxM ->
    Z.of_nat (length (eachCandidate original maxM config f cands mutations))
    <= Z.max 0 maxM.
Proof.
  induction cands as [|c rest IH]; intros mutations Hlen;
    cbn [eachCandidate]; [exact Hlen|].
  unfold full. destruct (Z.geb_spec (Z.of_nat (length mutations)) maxM);
    [exact Hlen|].
  destruct (isUndefined _); [now apply IH|].
  destruct (isNonFiniteNumber _); [now apply IH|].
  match goal with |- context [if ?b then _ else _] => destruct b end;
    [now apply IH|].
  apply IH. rewrite length_app. cbn [length]. lia.
Qed.

Lemma eachField_length original maxM config cands fields :
  forall mutations,
    Z.of_nat (length mutations) <= Z.max 0 maxM ->
    Z.of_nat (length (eachField original maxM config cands fields mutations))
    <= Z.max 0 maxM.
Proof.
  induction fields as [|f rest IH]; intros mutations Hlen;
    cbn [eachField]; [exact Hlen|].
  destruct (full maxM mutations); [exact Hlen|].
  destruct (negb (mutateExistingFields config) && JsObject.isIn f original);
    [now apply IH|].
  apply IH. now apply eachCandidate_length.
Qed.

Lemma buildMutations_length original maxM config :
  Z.of_nat (length (buildMutations original maxM config)) <= Z.max 0 maxM.
Proof. apply eachField_length. simpl. lia. Qed.

(** X6: [buildMutations] never returns more mutations than the budget
    it is given, and none when the budget is not positive. *)
Theorem buildMutations_within_budget original maxM config :
  Z.of_nat (length (buildMutations original maxM config)) <= Z.max 0 maxM.
Proof.
  unfold buildMutations. apply eachField_length. cbn [length]. lia.
Qed.

Lemma existsb_eqb_In x l : existsb (String.eqb x) l = true <-> In x l.
Proof.
  rewrite existsb_exists. split.
  - intros (y & Hy & Heq). apply String.eqb_eq in Heq. now subst.
  - intros H. exists x. split; [exact H | apply String.eqb_refl].
Qed.

Lemma isEmpty_false s : JsString.isEmpty s = false <-> s <> EmptyString.
Proof. destruct s; simpl; split; congruence. Qed.

Lemma addCandidate_cases seen cands raw :
  addCandidate (seen, cands) raw
  = if JsString.isEmpty (JsString.trim raw) then (seen, cands)
    else if existsb (String.eqb (JsString.trim raw)) seen then (seen, cands)
    else (JsString.trim raw :: seen, (cands ++ [JsString.trim raw])%list).
Proof. reflexivity. Qed.

(** The first loop keeps [seen] and [candidates] equal as sets, adds
    no duplicate, and adds exactly the non-empty trimmed raws. *)
Lemma fold_addCandidate raws :
  forall seen cands,
    (forall x, In x seen <-> In x cands) -> NoDup cands ->
    (forall x, In x (fst (fold_left addCandidate raws (seen, cands)))
               <-> In x (snd (fold_left addCandidate raws (seen, cands))))
    /\ NoDup (snd (fold_left addCandidate raws (seen, cands)))
    /\ (forall f,
           In f (snd (fold_left addCandidate raws (seen, cands)))
           <-> In f cands
               \/ (f <> EmptyString
                   /\ exists raw, In raw raws /\ f = JsString.trim raw)).
Proof.
  induction raws as [|raw rest IH]; intros seen cands Hsame Hnodup.
  - cbn [fold_left fst snd]. split; [exact Hsame|]. split; [exact Hnodup|].
    intros f. split; [auto|]. intros [H|(_ & raw & [] & _)]. exact H.
  - cbn [fold_left]. rewrite addCandidate_cases.
    destruct (JsString.isEmpty (JsString.trim raw)) eqn:Hempty.
    { destruct (IH seen cands Hsame Hnodup) as (H1 & H2 & H3).
      split; [exact H1|]. split; [exact H2|]. intros f. rewrite H3.
      split; intros [H|(Hf & r & Hr & Heq)]; auto.
      - right. split; [exact Hf|]. exists r. split; [now right | exact Heq].
      - destruct Hr as [<-|Hr].
        + subst f. destruct (JsString.trim raw); [congruence | discriminate].
        + right. split; [exact Hf|]. now exists r. }
    destruct (existsb (String.eqb (JsString.trim raw)) seen) eqn:Hseen.
    { destruct (IH seen cands Hsame Hnodup) as (H1 & H2 & H3).
      split; [exact H1|]. split; [exact H2|]. intros f. rewrite H3.
      split; intros [H|(Hf & r & Hr & Heq)]; auto.
      - right. split; [exact Hf|]. exists r. split; [now right | exact Heq].
      - destruct Hr as [<-|Hr].
        + left. subst f. now apply Hsame, existsb_eqb_In.
        + right. split; [exact Hf|]. now exists r. }
    assert (Hnew : ~ In (JsString.trim raw) cands).
    { intros H. apply Hsame, existsb_eqb_In in H. congruence. }
    destruct (IH (JsString.trim raw :: seen) (cands ++ [JsString.trim raw])%list)
      as (H1 & H2 & H3).
    + intros x. rewrite in_app_iff. cbn [In]. rewrite Hsame. tauto.
    + apply NoDup_app; [exact Hnodup | repeat constructor; auto | ].
      intros x Hx [<-|[]]. auto.
    + split; [exact H1|]. split; [exact H2|]. intros f. rewrite H3.
      rewrite in_app_iff. cbn [In].
      split.
      * intros [[H|[<-|[]]]|(Hf & r & Hr & Heq)]; auto.
        -- right. split; [now apply isEmpty_false|].
           exists raw. auto.
        -- right. split; [exact Hf|]. exists r. auto.
      * intros [H|(Hf & r & [<-|Hr] & Heq)]; auto.
        right. split; [exact Hf|]. now exists r.
Qed.

(** X7: the candidate fields the generator walks are exactly the
    non-empty trimmed raw candidates (built-in ones first when enabled,
    then the configured ones), each listed once. *)
Theorem candidatesOf_normal config :
  NoDup (candidatesOf config)
  /\ forall f,
       In f (candidatesOf config)
       <-> f <> EmptyString
           /\ exists raw, In raw (rawCandidates config)
                          /\ f = JsString.trim raw.
Proof.
  unfold candidatesOf.
  destruct (fold_addCandidate (rawCandidates config) [] [])
    as (_ & Hnodup & Hin); [tauto | constructor |].
  split; [exact Hnodup|]. intros f. rewrite Hin. cbn [In]. tauto.
Qed.

Lemma eachCandidate_sendable original maxM config f cands :
  forall mutations,
    forallb (sendable original config) mutations = true ->
    forallb (sendable original config)
            (eachCandidate original maxM config f cands mutations) = true.
Proof.
  induction cands as [|c rest IH]; intros mutations Hall;
    cbn [eachCandidate]; [exact Hall|].
  destruct (full maxM mutations); [exact Hall|].
  destruct (isUndefined _) eqn:Hu; [now apply IH|].
  destruct (isNonFiniteNumber _) eqn:Hn; [now apply IH|].
  match goal with
  | |- context [if ?b then _ else _] => destruct b eqn:Hsame
  end; [now apply IH|].
  apply IH. rewrite forallb_app, Hall. cbn [forallb andb].
  unfold sendable. cbn [value field]. now rewrite Hu, Hn, Hsame.
Qed.

Lemma eachField_sendable original maxM config cands fields :
  forall mutations,
    forallb (sendable original config) mutations = true ->
    forallb (sendable original config)
            (eachField original maxM config cands fields mutations) = true.
Proof.
  induction fields as [|f rest IH]; intros mutations Hall;
    cbn [eachField]; [exact Hall|].
  destruct (full maxM mutations); [exact Hall|].
  destruct (negb (mutateExistingFields config) && JsObject.isIn f original);
    [now apply IH|].
  apply IH. now apply eachCandidate_sendable.
Qed.

(** X8: no mutation of [buildMutations] carries the value undefined or
    a non-finite number and, when existing fields are mutated, none
    sets a field to the text of the primitive it already holds. *)
Theorem buildMutations_sendable original maxM config :
  forallb (sendable original config)
          (buildMutations original maxM config) = true.
Proof.
  unfold buildMutations. apply eachField_sendable. reflexivity.
Qed.

(** X9: a numeric delta is applied to existing fields only.  The value
    of a mutation whose field is not a key of the baseline is one of
    the fixed candidates. *)
Theorem absent_field_gets_fixed_value original maxM config m :
  In m (buildMutations original maxM config) ->
  JsObject.has (field m) original = false ->
  In (Fixed (value m)) (valueCandidatesOf config).
Proof.
  intros Hin Habsent.
  apply buildMutations_In in Hin
    as (f & _ & _ & Hf & (c & Hc & Hval) & Hu & _).
  subst f. unfold prop in Hval.
  destruct (JsObject.get (field m) original) eqn:Hget.
  - assert (JsObject.has (field m) original = true)
      by (apply has_get; congruence).
    congruence.
  - destruct c as [v|delta]; cbn [resolve] in Hval.
    + now rewrite Hval.
    + rewrite Hval in Hu. discriminate.
Qed.

Lemma absent_field_gets_fixed_value_witness :
  In (Fixed (JString "admin"))
     (valueCandidatesOf (GeneratorExamplesData.adminOnly ["role"])).
Proof.
  apply (absent_field_gets_fixed_value
           [("name", JString "u")] 16
           (GeneratorExamplesData.adminOnly ["role"])
           {| field := "role"; value := JString "admin";
              bodyText :=
                stringifyValue
                  (JObject [("name", JString "u");
                            ("role", JString "admin")]) |});
    [left; reflexivity | reflexivity].
Defined.

Lemma fold_addCustom_blank customs :
  forall acc,
    forallb blank customs = true -> fold_left addCustom customs acc = acc.
Proof.
  induction customs as [|c rest IH]; intros acc H; [reflexivity|].
  cbn [forallb] in H. apply andb_true_iff in H as [Hc Hrest].
  cbn [fold_left]. unfold addCustom at 2. unfold blank in Hc. rewrite Hc.
  now apply IH.
Qed.

(** X10: with every value mode off and no custom value that is not
    blank, the generator falls back to the single value [true]. *)
Theorem valueCandidatesOf_fallback config :
  valueModes config = GeneratorExamplesData.noModes ->
  forallb blank (customValues config) = true ->
  valueCandidatesOf config = [Fixed (JBool true)].
Proof.
  intros Hmodes Hblank. unfold valueCandidatesOf. rewrite Hmodes.
  cbn [GeneratorExamplesData.noModes booleanTrue stringAdmin numberOne
       numberPlusOne numberMinusOne app map].
  now rewrite fold_addCustom_blank.
Qed.

Lemma valueCandidatesOf_fallback_witness :
  valueCandidatesOf (GeneratorExamplesData.customOnly ["role"] ["  "; EmptyString])
  = [Fixed (JBool true)].
Proof.
  apply valueCandidatesOf_fallback; reflexivity.
Defined.

End BudgetFacts.

(** ** Request helpers *)

Module AdapterFacts.
Import Notions Terms.
Import JsNumber Json Http Adapter.
Local Open Scope string_scope.

Lemma length_take n s :
  String.length (JsString.take n s) = Nat.min n (String.length s).
Proof.
  revert s. induction n as [|n IH]; intros [|c r]; simpl; auto.
Qed.

Lemma isPrefix_refl s : JsString.isPrefix s s = true.
Proof.
  induction s as [|c r IH]; simpl; [reflexivity|].
  now rewrite Ascii.eqb_refl.
Qed.

Lemma isPrefix_take n s : JsString.isPrefix (JsString.take n s) s = true.
Proof.
  revert s. induction n as [|n IH]; intros [|c r]; simpl; auto.
  rewrite Ascii.eqb_refl. apply IH.
Qed.

(** X11: [truncateText] returns a prefix of the text, of the length of
    the text or [max], whichever is smaller. *)
Theorem truncateText_prefix t max :
  exists u,
    truncateText (Some t) max = Some u
    /\ String.length u = Nat.min (String.length t) max
    /\ JsString.isPrefix u t = true.
Proof.
  unfold truncateText.
  destruct (Nat.leb_spec (String.length t) max) as [Hle|Hgt].
  - exists t. repeat split; [lia | apply isPrefix_refl].
  - exists (JsString.take max t). repeat split;
      [rewrite length_take; lia | apply isPrefix_take].
Qed.

(** X12: [headersToPairs] lists, in order, one pair for every value of
    every header whose name is not Content-Length, Transfer-Encoding or
    Host in some letter case, and nothing else. *)
Theorem headersToPairs_spec headers name v :
  In (name, v) (headersToPairs headers)
  <-> isHopHeader (JsString.toLowerCase name) = false
      /\ exists values, In (name, values) headers /\ In v values.
Proof.
  induction headers as [|[n vs] rest IH]; cbn [headersToPairs In].
  - split; [intros [] | intros (_ & values & [] & _)].
  - destruct (isHopHeader (JsString.toLowerCase n)) eqn:Hhop.
    + rewrite IH. split.
      * intros (H & values & Hin & Hv). split; [exact H|].
        exists values. auto.
      * intros (H & values & [Heq|Hin] & Hv).
        -- injection Heq as -> ->. congruence.
        -- split; [exact H|]. now exists values.
    + rewrite in_app_iff, IH, in_map_iff. split.
      * intros [(x & Heq & Hx)|(H & values & Hin & Hv)].
        -- injection Heq as -> ->. split; [exact Hhop|]. exists vs. auto.
        -- split; [exact H|]. exists values. auto.
      * intros (H & values & [Heq|Hin] & Hv).
        -- injection Heq as -> ->. left. now exists v.
        -- right. split; [exact H|]. now exists values.
Qed.

Lemma lowerChar_colon c : JsString.lowerChar c = ":"%char -> c = ":"%char.
Proof.
  destruct c as [[] [] [] [] [] [] [] []]; vm_compute; congruence.
Qed.

Lemma lowerChar_slash c : JsString.lowerChar c = "/"%char -> c = "/"%char.
Proof.
  destruct c as [[] [] [] [] [] [] [] []]; vm_compute; congruence.
Qed.

(** A string with a scheme is the scheme, the separator and the rest. *)
Lemma schemeLength_parts s n :
  schemeLength s = Some n ->
  s = JsString.take n s ++ "://" ++ JsString.drop (n + 3) s.
Proof.
  unfold schemeLength.
  destruct (String.eqb_spec
              (JsString.toLowerCase (JsString.take 8 s)) "https://")
    as [H8|_].
  - intros [= <-].
    destruct s as [|c1 [|c2 [|c3 [|c4 [|c5 [|c6 [|c7 [|c8 r]]]]]]]];
      try discriminate.
    cbn [JsString.take JsString.toLowerCase] in H8.
    injection H8 as _ _ _ _ _ H6 H7 H8.
    apply lowerChar_colon in H6. apply lowerChar_slash in H7.
    apply lowerChar_slash in H8. subst. reflexivity.
  - destruct (String.eqb_spec
                (JsString.toLowerCase (JsString.take 7 s)) "http://")
      as [H7|_]; [|discriminate].
    intros [= <-].
    destruct s as [|c1 [|c2 [|c3 [|c4 [|c5 [|c6 [|c7 r]]]]]]];
      try discriminate.
    cbn [JsString.take JsString.toLowerCase] in H7.
    injection H7 as _ _ _ _ H5 H6 H7.
    apply lowerChar_colon in H5. apply lowerChar_slash in H6.
    apply lowerChar_slash in H7. subst. reflexivity.
Qed.

(** The scheme is [http] or [https] in some letter case. *)
Lemma schemeLength_scheme s n :
  schemeLength s = Some n ->
  JsString.toLowerCase (JsString.take n s) = "http"
  \/ JsString.toLowerCase (JsString.take n s) = "https".
Proof.
  unfold schemeLength.
  destruct (String.eqb_spec
              (JsString.toLowerCase (JsString.take 8 s)) "https://")
    as [H8|_].
  - intros [= <-]. right.
    destruct s as [|c1 [|c2 [|c3 [|c4 [|c5 [|c6 [|c7 [|c8 r]]]]]]]];
      try discriminate.
    cbn [JsString.take JsString.toLowerCase] in *.
    injection H8 as H1 H2 H3 H4 H5 _ _ _. now rewrite H1, H2, H3, H4, H5.
  - destruct (String.eqb_spec
                (JsString.toLowerCase (JsString.take 7 s)) "http://")
      as [H7|_]; [|discriminate].
    intros [= <-]. left.
    destruct s as [|c1 [|c2 [|c3 [|c4 [|c5 [|c6 [|c7 r]]]]]]];
      try discriminate.
    cbn [JsString.take JsString.toLowerCase] in *.
    injection H7 as H1 H2 H3 H4 _ _ _. now rewrite H1, H2, H3, H4.
Qed.

(** The authority is the longest prefix without a slash, a question
    mark or a hash. *)
Lemma authority_split s :
  exists rest,
    s = authority s ++ rest
    /\ authorityOnly (authority s) = true
    /\ afterAuthority rest = true.
Proof.
  induction s as [|c r (rest & Heq & Honly & Hafter)].
  - exists EmptyString. repeat split.
  - cbn [authority]. destruct (isAuthorityEnd c) eqn:Hc.
    + exists (String c r). repeat split. exact Hc.
    + exists rest. cbn [append authorityOnly]. rewrite Hc, Honly.
      repeat split; [now rewrite <- Heq | exact Hafter].
Qed.

(** What [matchBase] extracts is the scheme and the whole authority of
    the base URL. *)
Lemma matchBase_parts baseUrl scheme hostPort :
  matchBase baseUrl = Some (scheme, hostPort) ->
  exists rest,
    baseUrl = scheme ++ "://" ++ hostPort ++ rest
    /\ (JsString.toLowerCase scheme = "http"
        \/ JsString.toLowerCase scheme = "https")
    /\ hostPort <> EmptyString
    /\ authorityOnly hostPort = true
    /\ afterAuthority rest = true.
Proof.
  unfold matchBase.
  destruct (schemeLength baseUrl) as [n|] eqn:Hn; [|discriminate].
  destruct (JsString.isEmpty _) eqn:Hempty; [discriminate|].
  intros [= <- <-].
  destruct (authority_split (JsString.drop (n + 3) baseUrl))
    as (rest & Heq & Honly & Hafter).
  exists rest. split; [|split; [|split; [|split]]].
  - rewrite <- Heq. now apply schemeLength_parts.
  - now apply schemeLength_scheme.
  - intros H. rewrite H in Hempty. discriminate.
  - exact Honly.
  - exact Hafter.
Qed.

Lemma Ok_inj {T} (a b : T) : Ok a = Ok b -> a = b.
Proof. congruence. Qed.

(** X13: a verification URL that resolves is either the trimmed input
    itself, when that is a full http or https URL, or the origin of the
    baseline URL followed by the trimmed input as a path, a slash put
    in front if it has none.  The origin is the scheme of the baseline
    URL, [http] or [https] in some letter case, the separator and its
    whole authority: the characters, at least one, up to the first
    slash, question mark or hash or to the end.  Path and query of the
    baseline URL are dropped. *)
Theorem resolveUrl_shape input baseUrl resolved :
  resolveUrl input baseUrl = Ok resolved ->
  (isFullUrl (JsString.trim input) = true /\ resolved = JsString.trim input)
  \/ (exists scheme hostPort rest,
        baseUrl = scheme ++ "://" ++ hostPort ++ rest
        /\ (JsString.toLowerCase scheme = "http"
            \/ JsString.toLowerCase scheme = "https")
        /\ hostPort <> EmptyString
        /\ authorityOnly hostPort = true
        /\ afterAuthority rest = true
        /\ resolved
           = (scheme ++ "://" ++ hostPort)
               ++ (if JsString.startsWith (JsString.trim input) "/"
                   then JsString.trim input
                   else "/" ++ JsString.trim input)).
Proof.
  unfold resolveUrl.
  destruct (JsString.isEmpty (JsString.trim input)); [discriminate|].
  destruct (isFullUrl (JsString.trim input)) eqn:Hfull.
  { intros [= <-]. now left. }
  destruct (matchBase baseUrl) as [[scheme hostPort]|] eqn:Hbase;
    [|discriminate].
  intros H. apply Ok_inj in H. subst resolved. right.
  destruct (matchBase_parts _ _ _ Hbase)
    as (rest & Heq & Hscheme & Hhost & Honly & Hafter).
  exists scheme, hostPort, rest. repeat split; assumption.
Qed.

Lemma resolveUrl_shape_witness :
  (isFullUrl (JsString.trim " me ") = true
   /\ "http://lab.test:3001/me" = JsString.trim " me ")
  \/ (exists scheme hostPort rest,
        "http://lab.test:3001/users/profile?x=1"
        = scheme ++ "://" ++ hostPort ++ rest
        /\ (JsString.toLowerCase scheme = "http"
            \/ JsString.toLowerCase scheme = "https")
        /\ hostPort <> EmptyString
        /\ authorityOnly hostPort = true
        /\ afterAuthority rest = true
        /\ "http://lab.test:3001/me"
           = (scheme ++ "://" ++ hostPort)
               ++ (if JsString.startsWith (JsString.trim " me ") "/"
                   then JsString.trim " me "
                   else "/" ++ JsString.trim " me ")).
Proof.
  apply (resolveUrl_shape " me " "http://lab.test:3001/users/profile?x=1").
  reflexivity.
Defined.

End AdapterFacts.

(** ** The raw request parser: what a parsed spec looks like *)

Module RawShape.
Import Notions Terms.
Import JsNumber Json Http Raw.
Local Open Scope string_scope.

Lemma fold_setHeader_fixed pairs :
  forall spec,
    let spec' :=
      fold_left (fun sp nv => setHeader (fst nv) (snd nv) sp) pairs spec in
    specUrl spec' = specUrl spec
    /\ specMethod spec' = specMethod spec
    /\ specBody spec' = specBody spec.
Proof.
  induction pairs as [|[n v] r IH]; intros spec; cbn zeta;
    [repeat split|].
  cbn [fold_left fst snd]. destruct (IH (setHeader n v spec)) as (H1 & H2 & H3).
  rewrite H1, H2, H3. repeat split.
Qed.

(** X14: a request spec [parseRawRequestSpec] returns always has an
    http or https URL and always has a body set, the empty text when
    the raw request has none. *)
Theorem parseRawRequestSpec_shape (input : SaveRawRequestInput) spec :
  parseRawRequestSpec input = Ok spec ->
  JsString.startsWith (specUrl spec) "http://"
  || JsString.startsWith (specUrl spec) "https://" = true
  /\ specBody spec <> None.
Proof.
  unfold parseRawRequestSpec.
  destruct (JsString.isEmpty (JsString.trim (host input)));
    [discriminate|].
  destruct ((port input <? 1)%Z || (port input >? 65535)%Z);
    [discriminate|].
  cbv zeta.
  destruct (filter _ _) as [|requestLine headerRest]; [discriminate|].
  destruct (JsString.splitWs requestLine) as [|methodRaw [|targetRaw ?]];
    try discriminate.
  intros H. apply AdapterFacts.Ok_inj in H. subst spec.
  cbn [setBody specUrl specBody]. split; [|discriminate].
  match goal with
  | |- context [fold_left ?f ?pairs ?s] =>
      destruct (fold_setHeader_fixed pairs s) as (-> & _ & _)
  end.
  cbn [setMethod newRequestSpec specUrl].
  destruct (JsString.startsWith targetRaw "http://"
            || JsString.startsWith targetRaw "https://") eqn:Habs;
    [exact Habs|].
  remember (JsString.trim (host input) ++ ":" ++ toString (ofZ (port input)))
    as tail.
  destruct (isTls input), (JsString.startsWith targetRaw "/"); reflexivity.
Qed.

Lemma parseRawRequestSpec_shape_witness :
  JsString.startsWith "https://example.com:443/users" "http://"
  || JsString.startsWith "https://example.com:443/users" "https://" = true
  /\ Some EmptyString <> None.
Proof.
  apply (parseRawRequestSpec_shape
           {| host := "example.com"; port := 443; isTls := true;
              raw := "GET users HTTP/1.1" |}
           {| specUrl := "https://example.com:443/users";
              specMethod := "GET"; specHeaders := [];
              specBody := Some EmptyString |}).
  reflexivity.
Defined.

End RawShape.

(** ** What a scan sends and what it reports *)

Module TraceFacts.
Import Notions Terms.
Import JsNumber Json Body Generator Http Adapter Scan Props JsObjectFacts.
Local Open Scope string_scope.

Lemma sentSpecs_app a b :
  sentSpecs (a ++ b) = (sentSpecs a ++ sentSpecs b)%list.
Proof.
  induction a as [|ev a IH]; [reflexivity|].
  destruct ev; cbn [app sentSpecs]; try exact IH. now rewrite IH.
Qed.

Lemma mutatedSends_app a b :
  mutatedSends (a ++ b) = (mutatedSends a + mutatedSends b)%nat.
Proof.
  unfold mutatedSends. now rewrite sentSpecs_app, filter_app, length_app.
Qed.

Lemma markerOf_makeSpec request body marker :
  markerOf (makeSpec request body marker) = Some marker.
Proof.
  unfold markerOf, makeSpec. cbn [specHeaders setHeader].
  now rewrite get_set_same.
Qed.

Lemma markerOf_verifySpec url method body headers marker :
  markerOf (verifySpec url method body headers marker) = Some marker.
Proof.
  unfold markerOf, verifySpec. cbn [specHeaders setHeader setBody].
  now rewrite get_set_same.
Qed.

(** A marked spec gives a request that counts as plugin generated. *)
Lemma marked_hidden spec : marked spec = true -> hidden spec.
Proof.
  unfold marked, markerOf, hidden, Rpc.listed, Rpc.isPluginGeneratedRequest,
    firstHeader.
  intros H createdAtText id response. cbn [savedRequest requestOf getHeaders].
  destruct (JsObject.get PluginMarkerHeader (specHeaders spec))
    as [[|marker [|? ?]]|]; try discriminate.
  reflexivity.
Qed.

Section WithSdk.
Variable sdk : SDK.
Implicit Types (st : State sdk) (ctx : Context) (m : Mutation).

Local Arguments truncateText : simpl never.
Local Arguments safeStringify : simpl never.
Local Arguments getPrimitiveDeep : simpl never.

Ltac no_send :=
  split; [reflexivity|]; split;
  [reflexivity | unfold mutatedSends; simpl; lia].

Lemma tally_refl n st : tally n st st.
Proof. exists []. rewrite app_nil_r. no_send. Qed.

Lemma tally_trans a b st1 st2 st3 :
  tally a st1 st2 -> tally b st2 st3 -> tally (a + b) st1 st3.
Proof.
  intros (e1 & H1 & M1 & C1) (e2 & H2 & M2 & C2). exists (e1 ++ e2)%list.
  rewrite H2, H1, app_assoc, sentSpecs_app, forallb_app, M1, M2,
    mutatedSends_app.
  repeat split. lia.
Qed.

Lemma tally_weaken a b st st' :
  (a <= b)%nat -> tally a st st' -> tally b st st'.
Proof.
  intros Hle (evs & H & Hm & Hc). exists evs. repeat split; auto. lia.
Qed.

Lemma sends_ret {A} n (Q : A -> Prop) a : Q a -> sends n Q (@ret sdk A a).
Proof. intros H st. split; [apply tally_refl | exact H]. Qed.

Lemma sends_throw {A} n (Q : A -> Prop) e : sends n Q (@throw sdk A e).
Proof. intros st. split; [apply tally_refl | exact I]. Qed.

Lemma sends_bind {A B} a b (P : A -> Prop) (Q : B -> Prop)
      (m : M sdk A) (k : A -> M sdk B) :
  sends a P m -> (forall x, P x -> sends b Q (k x)) ->
  sends (a + b) Q (bind m k).
Proof.
  intros Hm Hk st. unfold bind. destruct (Hm st) as [Ht Hq].
  destruct (m st) as [[x|e] st1]; cbn [fst snd] in *.
  - destruct (Hk x Hq st1) as [Ht2 Hq2].
    split; [eapply tally_trans; eassumption | exact Hq2].
  - split; [|exact I]. apply (tally_weaken a); [lia | exact Ht].
Qed.

Lemma sends_weaken {A} a b (P Q : A -> Prop) (m : M sdk A) :
  (a <= b)%nat -> (forall x, P x -> Q x) -> sends a P m -> sends b Q m.
Proof.
  intros Hle Himp Hm st. destruct (Hm st) as [Ht Hq].
  split; [now apply (tally_weaken a)|].
  destruct (fst (m st)); auto.
Qed.

Lemma sends_get id : sends 0 (fun _ => True) (@get sdk id).
Proof.
  intros st. unfold get.
  destruct (requests_get sdk (world st) id) as [answer w].
  split; [|exact I]. exists [EvGet id answer]. no_send.
Qed.

Lemma sends_sleep ms : sends 0 (fun _ => True) (@sleep sdk ms).
Proof.
  intros st. split; [|exact I]. exists [EvSleep ms]. no_send.
Qed.

Lemma sends_readStop : sends 0 (fun _ => True) (@readStop sdk).
Proof. intros st. split; [apply tally_refl | exact I]. Qed.

Lemma sends_writeStop b : sends 0 (fun _ => True) (@writeStop sdk b).
Proof.
  intros st. split; [|exact I]. exists []. cbn [snd writeStop trace].
  rewrite app_nil_r. no_send.
Qed.

Lemma sends_send spec marker :
  markerOf spec = Some marker ->
  existsb (String.eqb marker) markers = true ->
  sends (if String.eqb marker "mutated" then 1 else 0) (fun _ => True)
        (@send sdk spec).
Proof.
  intros Hmarker Hin st. unfold send.
  destruct (requests_send sdk (world st) spec) as [answer w].
  split; [|exact I]. exists [EvSend spec answer].
  split; [reflexivity|]. unfold mutatedSends.
  cbn [sentSpecs forallb filter]. unfold marked, isMutated.
  rewrite Hmarker, Hin. split; [reflexivity|].
  destruct (String.eqb marker "mutated"); simpl; lia.
Qed.

Lemma sends_makeSpec request body marker :
  existsb (String.eqb marker) markers = true ->
  sends (if String.eqb marker "mutated" then 1 else 0) (fun _ => True)
        (@send sdk (makeSpec request body marker)).
Proof. apply sends_send, markerOf_makeSpec. Qed.

Lemma sends_verifySpec url method body headers marker :
  existsb (String.eqb marker) markers = true ->
  sends (if String.eqb marker "mutated" then 1 else 0) (fun _ => True)
        (@send sdk (verifySpec url method body headers marker)).
Proof. apply sends_send, markerOf_verifySpec. Qed.

Lemma sends_pause (delay : Z) :
  sends 0 (fun _ => True)
        (if (delay >? 0)%Z then @sleep sdk delay else ret tt).
Proof.
  destruct (delay >? 0)%Z; [apply sends_sleep | now apply sends_ret].
Qed.

(** Every finding the loop makes for [m] is attributed to it. *)
Lemma attributed_makeFinding ctx m all kind r1 r2 r3 i1 i2 i3 i4 s1 s2 s3
      details :
  In m all ->
  attributed (baselineId ctx) all
    (Finding.makeFinding (baselineId ctx) (field m) (value m) kind
       r1 r2 r3 i1 i2 i3 i4 s1 s2 s3 details).
Proof.
  intros Hin. unfold attributed, Finding.makeFinding.
  cbn [Finding.requestId Finding.field Finding.value Finding.id Finding.kind].
  split; [reflexivity|]. split; [|reflexivity]. now exists m.
Qed.

Ltac kept_or_added :=
  apply sends_ret;
  first [ assumption
        | apply Forall_app; split;
          [ assumption
          | constructor;
            [ now apply attributed_makeFinding | constructor ] ] ].

Lemma followUp_sends ctx m all mutatedId findings :
  In m all ->
  Forall (attributed (baselineId ctx) all) findings ->
  sends 0 (Forall (attributed (baselineId ctx) all))
        (followUp sdk ctx m mutatedId findings).
Proof.
  intros Hin Hall. unfold followUp.
  destruct (verification (config ctx)) as [|url method body delayMs];
    [kept_or_added|].
  destruct (verifyBaselineJson ctx) as [baselineObject|]; [|kept_or_added].
  destruct (verifyUrlResolved ctx) as [resolved|]; [|kept_or_added].
  destruct (verifyBaselineRequestId ctx) as [baselineVerifyId|];
    [|kept_or_added].
  apply (sends_bind 0 0 (fun _ => True)); [apply sends_pause|]. intros _ _.
  apply (sends_bind 0 0 (fun _ => True));
    [exact (sends_verifySpec _ _ _ _ "verify-mutated" eq_refl)|].
  intros [sent|] _; [|kept_or_added].
  destruct (sentResponse sent) as [response|]; [|kept_or_added].
  destruct (responseToText (Some response)) as [verifyText|];
    [|kept_or_added].
  destruct (parseJsonValue verifyText) as [e|[| | | | | |parsed]];
    try kept_or_added.
  destruct (changedPaths _ _); kept_or_added.
Qed.

Lemma persistenceProbe_sends ctx m all response mutatedId snippet findings :
  In m all ->
  Forall (attributed (baselineId ctx) all) findings ->
  sends 0 (Forall (attributed (baselineId ctx) all))
        (persistenceProbe sdk ctx m response mutatedId snippet findings).
Proof.
  intros Hin Hall. unfold persistenceProbe.
  apply (sends_bind 0 0 (fun _ => True)); [apply sends_pause|]. intros _ _.
  apply (sends_bind 0 0 (fun _ => True));
    [exact (sends_makeSpec _ _ "persisted" eq_refl)|].
  intros [sent|] _; [|kept_or_added].
  destruct (responseToText (sentResponse sent)) as [text|];
    [|kept_or_added].
  destruct (parseJsonValue text) as [e|persistedJson]; [kept_or_added|].
  destruct (negb _ && _); kept_or_added.
Qed.

Lemma bodyDiff_sends ctx m all response mutatedId findings :
  In m all ->
  Forall (attributed (baselineId ctx) all) findings ->
  sends 0 (Forall (attributed (baselineId ctx) all))
        (bodyDiff sdk ctx m response mutatedId findings).
Proof.
  intros Hin Hall. unfold bodyDiff.
  destruct (responseToText (Some response)) as [text|]; [|kept_or_added].
  destruct (parseJsonValue text) as [e|mutatedJson]; [kept_or_added|].
  destruct (negb _ && _); [|kept_or_added].
  destruct (confirmPersistence (config ctx)); [|kept_or_added].
  apply persistenceProbe_sends; [exact Hin|].
  apply Forall_app. split; [exact Hall|].
  constructor; [now apply attributed_makeFinding | constructor].
Qed.

Lemma processMutation_sends ctx m all findings :
  In m all ->
  Forall (attributed (baselineId ctx) all) findings ->
  sends 1 (Forall (attributed (baselineId ctx) all))
        (processMutation sdk ctx m findings).
Proof.
  intros Hin Hall. unfold processMutation.
  apply (sends_bind 1 0 (fun _ => True));
    [exact (sends_makeSpec _ _ "mutated" eq_refl)|].
  intros [s|] _; [|kept_or_added].
  destruct (sentResponse s) as [mutatedResponse|]; [|apply sends_throw].
  apply (sends_bind 0 0 (Forall (attributed (baselineId ctx) all))).
  - apply followUp_sends; [exact Hin|].
    destruct (option_map getCode (baselineResponse ctx)) as [code|];
      [|exact Hall].
    destruct (negb _); [|exact Hall].
    apply Forall_app. split; [exact Hall|].
    constructor; [now apply attributed_makeFinding | constructor].
  - intros findings2 H2. now apply bodyDiff_sends.
Qed.

Lemma mutationLoop_sends ctx all mutations :
  forall findings,
    incl mutations all ->
    Forall (attributed (baselineId ctx) all) findings ->
    sends (length mutations) (Forall (attributed (baselineId ctx) all))
          (mutationLoop sdk ctx mutations findings).
Proof.
  induction mutations as [|m rest IH]; intros findings Hincl Hall;
    cbn [mutationLoop length].
  - now apply sends_ret.
  - apply (sends_bind 0 (S (length rest)) (fun _ => True));
      [apply sends_readStop|].
    intros [|] _; [now apply sends_ret|].
    apply (sends_bind 1 (length rest)
             (Forall (attributed (baselineId ctx) all))).
    + apply processMutation_sends; [|exact Hall]. apply Hincl. now left.
    + intros findings' H'. apply IH; [|exact H'].
      intros x Hx. apply Hincl. now right.
Qed.

Lemma ensureBaseline_sends request body stored :
  sends 0 (fun _ => True) (ensureBaseline sdk request body stored).
Proof.
  unfold ensureBaseline. destruct stored; [now apply sends_ret|].
  apply (sends_bind 0 0 (fun _ => True));
    [exact (sends_makeSpec _ _ "baseline" eq_refl)|].
  intros [s|] _; now apply sends_ret.
Qed.

Lemma verifyBaseline_sends config baseUrl pairs :
  sends 0 (fun _ => True) (verifyBaseline sdk config baseUrl pairs).
Proof.
  unfold verifyBaseline.
  destruct (verification config) as [|url method body delayMs];
    [now apply sends_ret|].
  destruct (resolveUrl url baseUrl) as [e|resolved]; [now apply sends_ret|].
  apply (sends_bind 0 0 (fun _ => True));
    [exact (sends_verifySpec _ _ _ _ "verify-baseline" eq_refl)|].
  intros [sent|] _; [|now apply sends_ret].
  destruct (sentResponse sent); now apply sends_ret.
Qed.

(** A scan sends marked requests only, at most as many stamped
    [mutated] as its budget allows, and reports findings attributed to
    the target and to the mutations of its body. *)
Lemma runScan_sends target config :
  sends (budget config) (scanned target config) (runScan sdk target config).
Proof.
  unfold runScan.
  apply (sends_bind 0 (budget config) (fun _ => True));
    [apply sends_writeStop|].
  intros _ _.
  destruct (configError config); [now apply sends_ret|].
  destruct (JsString.isEmpty _); [now apply sends_ret|].
  apply (sends_bind 0 (budget config) (fun _ => True)); [apply sends_get|].
  intros [saved|] _; [|now apply sends_ret].
  destruct (negb (isJsonRequest (savedRequest saved)));
    [now apply sends_ret|].
  destruct (getBodyText (savedRequest saved)) as [bodyText|];
    [|now apply sends_ret].
  destruct (parseJsonValue bodyText) as [e|[| | | | | |originalJson]];
    try now apply sends_ret.
  apply (sends_bind 0 (budget config) (fun _ => True));
    [apply ensureBaseline_sends|].
  intros [e|baselineResponse] _; [now apply sends_ret|].
  apply (sends_bind 0 (budget config) (fun _ => True));
    [apply verifyBaseline_sends|].
  intros [e|vb] _; [now apply sends_ret|].
  pose proof (BudgetFacts.buildMutations_length originalJson
                (maxMutations config) config) as Hlen.
  destruct (buildMutations originalJson (maxMutations config) config)
    as [|m0 rest] eqn:Hbuild; [now apply sends_ret|].
  rewrite <- Hbuild in *.
  match goal with
  | |- context [mutationLoop sdk ?c _ _] => set (ctx := c)
  end.
  apply (sends_weaken
           (length (buildMutations originalJson (maxMutations config) config)
            + 0)
           _ (scanned target config) (scanned target config));
    [unfold budget; lia | auto |].
  apply (sends_bind _ 0
           (Forall (attributed (baselineId ctx)
                      (buildMutations originalJson (maxMutations config)
                                      config)))).
  - apply mutationLoop_sends; [apply incl_refl | constructor].
  - intros findings Hall. apply sends_ret. cbn [scanned baselineRequestId
      Scan.findings]. split; [reflexivity|]. now exists originalJson.
Qed.

(** X15: whatever the host answers, every request [runScan] sends
    carries the marker header with exactly one value, one of
    [baseline], [verify-baseline], [mutated], [verify-mutated] and
    [persisted]; a request saved from it is therefore left out by
    [listJsonRequests]. *)
Theorem runScan_requests_marked target config st :
  exists evs,
    trace (snd (runScan sdk target config st)) = (trace st ++ evs)%list
    /\ Forall (fun spec => marked spec = true /\ hidden spec)
              (sentSpecs evs).
Proof.
  destruct (runScan_sends target config st) as [(evs & Htrace & Hm & _) _].
  exists evs. split; [exact Htrace|].
  apply Forall_forall. intros spec Hin.
  rewrite forallb_forall in Hm. specialize (Hm spec Hin).
  split; [exact Hm | now apply marked_hidden].
Qed.

(** X16: whatever the host answers, [runScan] sends at most
    [maxMutations] requests stamped [mutated]. *)
Theorem runScan_mutated_sends_within_budget target config st :
  exists evs,
    trace (snd (runScan sdk target config st)) = (trace st ++ evs)%list
    /\ Z.of_nat (mutatedSends evs) <= Z.max 0 (maxMutations config).
Proof.
  destruct (runScan_sends target config st) as [(evs & Htrace & _ & Hc) _].
  exists evs. split; [exact Htrace|]. unfold budget in Hc. lia.
Qed.

(** X17: every finding of a scan that answers [Ok] names the trimmed
    id of the target as its request, one of the candidate fields of the
    configuration as its field, and has the id
    [<requestId>:<kind>:<field>:<value>]. *)
Theorem runScan_findings_attributed target config st result :
  fst (runScan sdk target config st) = Return (Ok result) ->
  baselineRequestId result = JsString.trim (requestId target)
  /\ Forall (fun f =>
               Finding.requestId f = JsString.trim (requestId target)
               /\ In (Finding.field f) (candidatesOf config)
               /\ Finding.id f
                  = Finding.requestId f ++ ":"
                      ++ Finding.kindName (Finding.kind f) ++ ":"
                      ++ Finding.field f ++ ":" ++ Finding.value f)
            (findings result).
Proof.
  intros Hrun. destruct (runScan_sends target config st) as [_ Hq].
  rewrite Hrun in Hq. destruct Hq as (Hid & original & Hall).
  split; [exact Hid|]. eapply Forall_impl; [|exact Hall].
  intros f (Hreq & (m & Hin & Hfield & _) & Hfid).
  split; [exact Hreq|]. split; [|now rewrite Hreq].
  apply GeneratorFacts.buildMutations_In in Hin as (f' & Hcand & _ & Hf & _).
  rewrite Hfield, Hf. exact Hcand.
Qed.

End WithSdk.

Lemma runScan_findings_attributed_witness :
  exists result,
    fst labScan = Return (Ok result)
    /\ baselineRequestId result = "1"
    /\ Forall (fun f =>
                 Finding.requestId f = "1"
                 /\ In (Finding.field f) (candidatesOf labConfig)
                 /\ Finding.id f
                    = Finding.requestId f ++ ":"
                        ++ Finding.kindName (Finding.kind f) ++ ":"
                        ++ Finding.field f ++ ":" ++ Finding.value f)
              (findings result).
Proof.
  eexists. split; [vm_compute; reflexivity|].
  apply (runScan_findings_attributed labSdk {| requestId := " 1 " |}
           labConfig labStart).
  vm_compute. reflexivity.
Defined.

End TraceFacts.

(** ** The verification baseline *)

Module BaselineFacts.
Import Notions Terms.
Import JsNumber Json Body Generator Http Adapter Scan Props TraceFacts.
Local Open Scope string_scope.


Lemma calm_quiet marker evs :
  calm evs = true ->
  marker = "verify-baseline" \/ marker = "verify-mutated" ->
  existsb (stamped marker) evs = false.
Proof.
  intros Hcalm Hmarker. induction evs as [|ev r IH]; [reflexivity|].
  cbn [calm forallb] in Hcalm. apply andb_true_iff in Hcalm as [Hev Hr].
  apply andb_true_iff in Hev as [H1 H2].
  cbn [existsb]. rewrite (IH Hr), orb_false_r.
  destruct Hmarker as [-> | ->];
    [now apply negb_true_iff in H1 | now apply negb_true_iff in H2].
Qed.

Section Steady.
Variable sdk : SDK.
Variable baselineObject : option JSONObject.
Variable baselineVerifyId : option string.
Implicit Types (st : State sdk) (fs : list Finding.ScanFinding).




(** Events other than verification requests are steady. *)
Lemma calm_steady fs evs :
  calm evs = true -> steady baselineObject baselineVerifyId fs evs.
Proof.
  intros Hcalm. split; [|split].
  - apply calm_quiet; auto.
  - intros _. apply calm_quiet; auto.
  - apply Forall_forall. intros ev Hin. unfold calm in Hcalm.
    rewrite forallb_forall in Hcalm. specialize (Hcalm ev Hin).
    apply andb_true_iff in Hcalm as [_ H2]. apply negb_true_iff in H2.
    destruct ev as [| spec [sent|] | |]; cbn [reported]; auto.
    intros Hmarker. cbn [stamped] in H2. rewrite Hmarker in H2.
    discriminate.
Qed.

Lemma compares_ret {A} fs (out : A -> list Finding.ScanFinding) a :
  incl fs (out a) ->
  compares baselineObject baselineVerifyId fs out (@ret sdk A a).
Proof.
  intros Hincl st a' st' [= <- <-]. split; [exact Hincl|].
  exists []. rewrite app_nil_r. split; [reflexivity|]. now apply calm_steady.
Qed.

(** Returning the findings, with or without a new one. *)
Lemma compares_kept fs fs' :
  incl fs fs' ->
  compares baselineObject baselineVerifyId fs (fun l => l) (@ret sdk _ fs').
Proof. apply (compares_ret fs (fun l => l)). Qed.






End Steady.


Section Loop.
Variable sdk : SDK.
Implicit Types (st : State sdk) (ctx : Context) (m : Mutation)
         (fs : list Finding.ScanFinding).

Local Arguments truncateText : simpl never.
Local Arguments safeStringify : simpl never.
Local Arguments getPrimitiveDeep : simpl never.
Local Arguments getAllPrimitives : simpl never.

Ltac kept := apply compares_kept, incl_refl.






End Loop.

Section WithSdk.
Variable sdk : SDK.
Implicit Types (st : State sdk).




End WithSdk.


(** On the lab server the first mutation changes the plan for good;
    the second, which does not touch the plan, is reported as
    StateChanged all the same, against the baseline captured before
    the loop. *)
Example labVerifyScan_kinds :
  map (fun f => (Finding.kind f, Finding.field f,
                 Finding.verifyBaselineRequestId f))
      (findingsOf labVerifyScan)
  = [(Finding.StateChanged, "plan", Some "verify-1");
     (Finding.Reflected, "plan", None);
     (Finding.StateChanged, "role", Some "verify-1");
     (Finding.Reflected, "role", None)].
Proof. vm_compute. reflexivity. Qed.

End BaselineFacts.

(** ** Cancellation and transport failures in the loop *)

Module StopFacts.
Import Notions Terms.
Import JsNumber Json Body Generator Http Adapter Scan Props.
Local Open Scope string_scope.

Section WithSdk.
Variable sdk : SDK.
Implicit Types (st : State sdk) (ctx : Context) (m : Mutation).

(** X18: cancellation is honoured at the next iteration.  Once the
    loop has ended on some mutations with the stop flag raised, no
    mutation put after them is processed: the findings and the host
    calls are the same. *)
Theorem mutationLoop_stops ctx pre rest :
  forall findings st findings1 st1,
    mutationLoop sdk ctx pre findings st = (Return findings1, st1) ->
    shouldStopScan st1 = true ->
    mutationLoop sdk ctx (pre ++ rest) findings st = (Return findings1, st1).
Proof.
  induction pre as [|m pre' IH]; intros findings st findings1 st1 Hrun Hstop.
  - cbn [mutationLoop] in Hrun. unfold ret in Hrun.
    injection Hrun as <- <-. destruct rest as [|m rest']; [reflexivity|].
    cbn [app mutationLoop]. unfold bind, readStop. now rewrite Hstop.
  - cbn [app mutationLoop] in *. unfold bind, readStop in *.
    destruct (shouldStopScan st); [exact Hrun|].
    destruct (processMutation sdk ctx m findings st) as [[findings'|e] st'];
      [now apply IH | exact Hrun].
Qed.

(** X19: on a host that rejects every send while nobody asks to stop,
    the loop goes through all the mutations and adds exactly one
    NoResponse finding for each, in order. *)
Theorem unreachable_host_reports_each ctx mutations :
  forall findings st,
    unreachable sdk ->
    shouldStopScan st = false ->
    exists new st',
      mutationLoop sdk ctx mutations findings st
      = (Return (findings ++ new)%list, st')
      /\ map Finding.kind new
         = repeat Finding.NoResponse (length mutations)
      /\ map Finding.field new = map field mutations
      /\ shouldStopScan st' = false.
Proof.
  induction mutations as [|m rest IH]; intros findings st Hhost Hflag.
  - exists [], st. cbn [mutationLoop]. rewrite app_nil_r. now repeat split.
  - cbn [mutationLoop]. unfold bind at 1. unfold readStop. rewrite Hflag.
    unfold bind at 1. unfold processMutation, bind at 1. unfold send.
    pose proof (proj1 Hhost (world st)
                  (makeSpec (baseline ctx) (bodyText m) "mutated")) as Hsend.
    destruct (requests_send sdk (world st) _) as [answer w].
    cbn [fst] in Hsend. subst answer. unfold ret at 1.
    match goal with
    | |- context [mutationLoop sdk ctx rest ?fs ?s] =>
        destruct (IH fs s Hhost) as (new & st' & Hrun & Hk & Hf & Hs)
    end.
    { cbn [shouldStopScan resumed]. rewrite Hflag. apply (proj2 Hhost). }
    rewrite Hrun, <- app_assoc. eexists _, st'. split; [reflexivity|].
    cbn [app map length repeat]. rewrite Hk, Hf. now repeat split.
Qed.

End WithSdk.

Lemma mutationLoop_stops_witness :
  exists findings1 st1,
    mutationLoop hastySdk labContext (labFirst ++ [labSecond]) []
                 (Build_State hastySdk false tt [])
    = (Return findings1, st1)
    /\ length findings1 = 1%nat.
Proof.
  eexists. eexists. split.
  - apply (mutationLoop_stops hastySdk labContext labFirst [labSecond] []
             (Build_State hastySdk false tt [])).
    + vm_compute. reflexivity.
    + reflexivity.
  - reflexivity.
Defined.

Lemma unreachable_host_reports_each_witness :
  exists new st',
    mutationLoop silentSdk labContext labMutations [] (silentState false)
    = (Return ([] ++ new)%list, st')
    /\ map Finding.kind new
       = repeat Finding.NoResponse (length labMutations)
    /\ map Finding.field new = map field labMutations
    /\ shouldStopScan st' = false.
Proof.
  apply (unreachable_host_reports_each silentSdk labContext labMutations []
           (silentState false)).
  - split; intros; reflexivity.
  - reflexivity.
Defined.

End StopFacts.

(** ** The follow-up diff *)

Module DiffFacts.
Import Notions Terms.
Import JsNumber Json Http Scan.
Local Open Scope string_scope.

(** X20: every line of the follow-up diff names a path of the mutated
    side that is not noisy (neither one of [id], [createdAt],
    [updatedAt], [timestamp], [time], [iat], [exp], [nonce], [imageUrl]
    nor a path ending in a dot and one of them), with the text that
    [baselinePrimitives[path]] reads: the text of the baseline side at
    that path, which differs from the text of the mutated side; or,
    when the baseline side has no such path and the path is the name of
    a member of [Object.prototype] such as [constructor], the text of
    that member. *)
Theorem changedPaths_sound text baselinePrimitives mutatedPrimitives line :
  In line (changedPaths text baselinePrimitives mutatedPrimitives) ->
  exists path old new,
    line = path ++ ": " ++ old ++ " -> " ++ new
    /\ In (path, new) mutatedPrimitives
    /\ isNoisy path = false
    /\ ((JsObject.get path baselinePrimitives = Some old /\ old <> new)
        \/ (JsObject.get path baselinePrimitives = None
            /\ JsObject.inherited path = true
            /\ old = if String.eqb path "__proto__" then "[object Object]"
                     else text path)).
Proof.
  induction mutatedPrimitives as [|[path val] rest IH];
    cbn [changedPaths]; [intros []|].
  assert (Hrest : In line (changedPaths text baselinePrimitives rest) ->
                  exists path0 old new,
                    line = path0 ++ ": " ++ old ++ " -> " ++ new
                    /\ In (path0, new) ((path, val) :: rest)
                    /\ isNoisy path0 = false
                    /\ ((JsObject.get path0 baselinePrimitives = Some old
                         /\ old <> new)
                        \/ (JsObject.get path0 baselinePrimitives = None
                            /\ JsObject.inherited path0 = true
                            /\ old = if String.eqb path0 "__proto__"
                                     then "[object Object]"
                                     else text path0))).
  { intros H. destruct (IH H) as (p & old & new & ? & ? & ? & ?).
    exists p, old, new. repeat split; auto. now right. }
  unfold JsObject.read.
  destruct (JsObject.get path baselinePrimitives) as [baselineVal|] eqn:Hget.
  - destruct (String.eqb_spec baselineVal val) as [|Hneq]; [exact Hrest|].
    destruct (isNoisy path) eqn:Hnoisy; [exact Hrest|].
    cbn [negb andb]. intros [<-|H]; [|now apply Hrest].
    exists path, baselineVal, val.
    split; [reflexivity|]. split; [now left|]. split; [exact Hnoisy|].
    left. now split.
  - destruct (String.eqb path "__proto__") eqn:Hproto.
    + destruct (isNoisy path) eqn:Hnoisy; [exact Hrest|].
      cbn [negb]. intros [<-|H]; [|now apply Hrest].
      exists path, "[object Object]", val.
      split; [reflexivity|]. split; [now left|]. split; [exact Hnoisy|].
      right. split; [exact Hget|]. rewrite Hproto. split; [|reflexivity].
      apply String.eqb_eq in Hproto. now subst path.
    + destruct (JsObject.inherited path) eqn:Hinh; [|exact Hrest].
      destruct (isNoisy path) eqn:Hnoisy; [exact Hrest|].
      cbn [negb]. intros [<-|H]; [|now apply Hrest].
      exists path, (text path), val.
      split; [reflexivity|]. split; [now left|]. split; [exact Hnoisy|].
      right. split; [exact Hget|]. rewrite Hproto. now split.
Qed.

Lemma changedPaths_sound_witness :
  exists path old new,
    "plan: free -> pro" = path ++ ": " ++ old ++ " -> " ++ new
    /\ In (path, new) [("id", "2"); ("plan", "pro")]
    /\ isNoisy path = false
    /\ ((JsObject.get path [("id", "1"); ("plan", "free")] = Some old
         /\ old <> new)
        \/ (JsObject.get path [("id", "1"); ("plan", "free")] = None
            /\ JsObject.inherited path = true
            /\ old = if String.eqb path "__proto__" then "[object Object]"
                     else Props.nativeText path)).
Proof.
  apply (changedPaths_sound Props.nativeText
                            [("id", "1"); ("plan", "free")]
                            [("id", "2"); ("plan", "pro")]).
  vm_compute. left. reflexivity.
Defined.

(** A response with a key [constructor] makes a line against a
    baseline that has no such key. *)
Lemma changedPaths_inherited :
  changedPaths Props.nativeText [("plan", "free")]
               [("plan", "free"); ("constructor", "x")]
  = ["constructor: function constructor() { [native code] } -> x"].
Proof. reflexivity. Qed.

End DiffFacts.

(** ** The findings writer: validation and what it creates *)

Module WriterFacts.
Import Notions Terms.
Import JsNumber Json Http Sink Props SinkFacts.
Local Open Scope string_scope.

Lemma createdIssues_app a b :
  createdIssues (a ++ b) = (createdIssues a ++ createdIssues b)%list.
Proof.
  induction a as [|ev a IH]; [reflexivity|].
  destruct ev; cbn [app createdIssues]; try exact IH. now rewrite IH.
Qed.

Section WithSdk.
Variable sdk : SDK.
Implicit Types (st : State sdk).

(** X21: [createFindings] rejects a blank request id, an empty list
    and a list of more than 200 findings without any host call. *)
Theorem createFindings_rejects input st :
  JsString.isEmpty (JsString.trim (requestId input)) = true
  \/ findings input = []
  \/ (200 < length (findings input))%nat ->
  snd (createFindings sdk input st) = st
  /\ exists e,
       fst (createFindings sdk input st) = Return (Error e)
       /\ In e ["requestId is required"; "findings is empty";
                "too many findings"].
Proof.
  unfold createFindings. intros H.
  destruct (JsString.isEmpty (JsString.trim (requestId input))).
  { split; [reflexivity|]. eexists. split; [reflexivity|]. cbn; auto. }
  destruct (findings input) as [|f rest] eqn:Hf.
  { split; [reflexivity|]. eexists. split; [reflexivity|]. cbn; auto. }
  destruct H as [H|[H|H]]; try discriminate.
  apply Nat.ltb_lt in H. rewrite H.
  split; [reflexivity|]. eexists. split; [reflexivity|]. cbn; auto.
Qed.

(** One iteration makes lookups, then hands one issue to the sink. *)
Lemma createOne_trace trimmedRequestId saved finding st :
  exists thrown st' issue gets,
    createOne sdk trimmedRequestId saved finding st = (Return thrown, st')
    /\ trace st' = (trace st ++ gets ++ [EvCreate issue thrown])%list
    /\ createdIssues gets = []
    /\ sentSpecs gets = []
    /\ title issue = issueTitle finding
    /\ reporter issue = "Mass Assignment Radar".
Proof.
  unfold createOne, bind. cbv zeta. rewrite attachRequest_run.
  destruct (chosenId finding) as [id|].
  - rewrite lookupOr_run. unfold create.
    destruct (findings_create sdk _ _) as [thrown w'] eqn:Hc.
    eexists _, _, _, [_]. split; [reflexivity|]. cbn [trace resumed].
    rewrite <- app_assoc. repeat split.
  - unfold create.
    destruct (findings_create sdk _ _) as [thrown w'] eqn:Hc.
    eexists _, _, _, []. split; [reflexivity|]. repeat split.
Qed.

(** The loop creates one issue for each finding it gets through, in
    order, and sends nothing. *)
Lemma createLoop_trace trimmedRequestId saved todo :
  forall n st,
    exists evs,
      trace (snd (createLoop sdk trimmedRequestId saved todo n st))
      = (trace st ++ evs)%list
      /\ sentSpecs evs = []
      /\ Forall (fun issue => reporter issue = "Mass Assignment Radar")
                (createdIssues evs)
      /\ match fst (createLoop sdk trimmedRequestId saved todo n st) with
         | Return (Ok r) =>
             created r = (n + length todo)%nat
             /\ map title (createdIssues evs) = map issueTitle todo
         | Return (Error _) =>
             (length (createdIssues evs) <= length todo)%nat
         | Throw _ => False
         end.
Proof.
  induction todo as [|finding rest IH]; intros n st.
  - exists []. cbn [createLoop ret fst snd created length map].
    rewrite app_nil_r. repeat split; [constructor | lia].
  - cbn [createLoop]. unfold bind.
    destruct (createOne_trace trimmedRequestId saved finding st)
      as (thrown & st1 & issue & gets & Hrun & Htrace & Hnone & Hsent
          & Htitle & Hreporter).
    rewrite Hrun. destruct thrown as [e|].
    + exists (gets ++ [EvCreate issue (Some e)])%list.
      cbn [ret fst snd]. rewrite Htrace, createdIssues_app, Hnone,
        TraceFacts.sentSpecs_app, Hsent.
      cbn [createdIssues sentSpecs app length]. repeat split.
      * constructor; [exact Hreporter | constructor].
      * lia.
    + destruct (IH (S n) st1) as (evs & Ht & Hs & Hall & Hres).
      exists ((gets ++ [EvCreate issue None]) ++ evs)%list.
      rewrite Ht, Htrace, !createdIssues_app, Hnone,
        !TraceFacts.sentSpecs_app, Hsent, Hs.
      cbn [createdIssues sentSpecs app]. rewrite <- !app_assoc.
      split; [reflexivity|]. split; [reflexivity|].
      split; [constructor; assumption|].
      destruct (fst (createLoop sdk trimmedRequestId saved rest (S n) st1))
        as [[e|r]|e]; cbn [length map] in *.
      * lia.
      * destruct Hres as [Hc Hm]. rewrite Hm, Htitle. split; [lia|reflexivity].
      * exact Hres.
Qed.

(** X22: when [createFindings] answers [Ok], the count it reports is
    the number of findings it was given, between 1 and 200; it handed
    the sink exactly one issue for each finding, in order, with the
    title of that finding and the plugin as reporter, and it sent no
    request. *)
Theorem createFindings_creates_each input st result :
  fst (createFindings sdk input st) = Return (Ok result) ->
  created result = length (findings input)
  /\ (1 <= created result <= 200)%nat
  /\ exists evs,
       trace (snd (createFindings sdk input st)) = (trace st ++ evs)%list
       /\ sentSpecs evs = []
       /\ map title (createdIssues evs) = map issueTitle (findings input)
       /\ Forall (fun issue => reporter issue = "Mass Assignment Radar")
                 (createdIssues evs).
Proof.
  unfold createFindings.
  destruct (JsString.isEmpty (JsString.trim (requestId input)));
    [discriminate|].
  destruct (findings input) as [|f rest] eqn:Hf; [discriminate|].
  rewrite <- Hf.
  destruct (Nat.ltb_spec 200 (length (findings input))) as [|Hle];
    [discriminate|].
  unfold bind, get.
  destruct (requests_get sdk (world st) _) as [[saved|] w] eqn:Hget;
    [|discriminate].
  cbn [fst snd]. intros Hrun.
  match goal with
  | |- context [createLoop sdk ?i ?s ?t ?n ?s0] =>
      destruct (createLoop_trace i s t n s0) as (evs & Ht & Hs & Hall & Hres)
  end.
  rewrite Hrun in Hres. destruct Hres as [Hc Hm]. cbn [plus] in Hc.
  split; [exact Hc|]. split; [rewrite Hc, Hf in *; cbn [length] in *; lia|].
  eexists (_ :: evs). rewrite Ht. cbn [trace resumed].
  rewrite <- app_assoc. split; [reflexivity|].
  cbn [sentSpecs createdIssues]. now repeat split.
Qed.

End WithSdk.

Lemma createFindings_rejects_witness :
  snd (createFindings silentSdk {| requestId := "  "; findings := [] |}
                      (silentState false))
  = silentState false
  /\ exists e,
       fst (createFindings silentSdk {| requestId := "  "; findings := [] |}
                           (silentState false))
       = Return (Error e)
       /\ In e ["requestId is required"; "findings is empty";
                "too many findings"].
Proof.
  apply (createFindings_rejects silentSdk
           {| requestId := "  "; findings := [] |} (silentState false)).
  left. reflexivity.
Defined.

Lemma createFindings_creates_each_witness :
  let input :=
    {| requestId := " base ";
       findings :=
         [{| field := "role"; value := "admin"; kind := Finding.Reflected;
             message := "role=admin";
             mutatedRequestId := Some "mut";
             persistedRequestId := None;
             verifyRequestId := None |}] |} in
  let st := Build_State (storeSdk [stored "base"; stored "mut"]) false [] [] in
  created {| created := 1 |} = length (findings input)
  /\ (1 <= created {| created := 1 |} <= 200)%nat
  /\ exists evs,
       trace (snd (createFindings (storeSdk [stored "base"; stored "mut"])
                                  input st))
       = (trace st ++ evs)%list
       /\ sentSpecs evs = []
       /\ map title (createdIssues evs) = map issueTitle (findings input)
       /\ Forall (fun issue => reporter issue = "Mass Assignment Radar")
                 (createdIssues evs).
Proof.
  cbv zeta.
  apply (createFindings_creates_each (storeSdk [stored "base"; stored "mut"])).
  reflexivity.
Defined.

End WriterFacts.

(** ** The other entry points *)

Module RpcFacts.
Import Notions Terms.
Import JsNumber Json Http Adapter Raw Rpc Props.
Local Open Scope string_scope.

Lemma In_defined {A} (x : A) l : In x (defined l) <-> In (Some x) l.
Proof.
  induction l as [|[y|] r IH]; cbn [defined In].
  - tauto.
  - rewrite IH. split; intros [H|H]; auto; left; congruence.
  - rewrite IH. split; [auto | intros [H|H]; [discriminate | exact H]].
Qed.

Lemma In_firstn {A} (x : A) n l : In x (firstn n l) -> In x l.
Proof.
  intros H. rewrite <- (firstn_skipn n l). apply in_or_app. now left.
Qed.

Section WithSdk.
Variable sdk : SDK.
Variable createdAtText : Request -> string.
Variable responseHeaders : Response -> Headers.
Implicit Types (st : State sdk).

(** X23: [getRequestPreview] and [getRequestSummary] treat the request
    id alike: from the same state they make the same host call, one
    lookup of the trimmed id or none when it is blank, and they fail
    together with the same message; a preview names the trimmed id. *)
Theorem preview_and_summary_agree requestId st :
  snd (buildRequestPreview sdk responseHeaders requestId st)
  = snd (getRequestSummary sdk createdAtText requestId st)
  /\ match fst (buildRequestPreview sdk responseHeaders requestId st),
           fst (getRequestSummary sdk createdAtText requestId st) with
     | Return (Ok preview), Return (Ok summary) =>
         Rpc.requestId preview = JsString.trim requestId
         /\ lookedUp (trace (snd (getRequestSummary sdk createdAtText
                                                    requestId st)))
            = (lookedUp (trace st) ++ [JsString.trim requestId])%list
     | Return (Error e1), Return (Error e2) => e1 = e2
     | _, _ => False
     end.
Proof.
  unfold buildRequestPreview, getRequestSummary.
  destruct (JsString.isEmpty (JsString.trim requestId));
    [split; reflexivity|].
  unfold bind, get.
  destruct (requests_get sdk (world st) _) as [[saved|] w];
    [|split; reflexivity].
  assert (Hlook : forall a b, lookedUp (a ++ b)
                              = (lookedUp a ++ lookedUp b)%list).
  { intros a b. induction a as [|ev a IH]; [reflexivity|].
    destruct ev; cbn [app lookedUp]; try exact IH. now rewrite IH. }
  destruct (savedResponse saved); cbn [fst snd ret Rpc.requestId trace resumed];
    rewrite Hlook; repeat split.
Qed.

(** X24: [saveRequestFromRaw] makes at most one host call, the send of
    the spec parsed from the trimmed raw text; it makes none, and
    answers an error, when the raw text is blank or does not parse. *)
Theorem saveRequestFromRaw_sends_once input st :
  let run := saveRequestFromRaw sdk createdAtText input st in
  let parsed :=
    parseRawRequestSpec
      {| host := host input; port := port input; isTls := isTls input;
         raw := JsString.trim (raw input) |} in
  (snd run = st /\ exists e, fst run = Return (Error e))
  \/ (exists spec answer,
        trace (snd run) = (trace st ++ [EvSend spec answer])%list
        /\ JsString.isEmpty (JsString.trim (raw input)) = false
        /\ parsed = Ok spec
        /\ match answer with
           | Some sent =>
               exists summary,
                 fst run = Return (Ok summary)
                 /\ id summary = getId (sentRequest sent)
           | None => fst run = Return (Error "failed to send request")
           end).
Proof.
  cbv zeta. unfold saveRequestFromRaw.
  destruct (JsString.isEmpty (JsString.trim (raw input)));
    [left; split; [reflexivity | eexists; reflexivity]|].
  destruct (parseRawRequestSpec _) as [e|spec];
    [left; split; [reflexivity | eexists; reflexivity]|].
  right. unfold bind, send.
  destruct (requests_send sdk (world st) spec) as [[sent|] w];
    exists spec; eexists; (split; [reflexivity|]);
    repeat (split; [reflexivity|]).
  - eexists. split; reflexivity.
  - reflexivity.
Qed.

(** X25: [listJsonRequests] refuses a limit outside 1..5000; when it
    answers [Ok], it lists at most [limit] summaries, each the summary
    of an item the query returned whose request is a JSON request and
    does not carry the marker header of the plugin. *)
Theorem listJsonRequests_lists execute filter limit items :
  listJsonRequests createdAtText execute filter limit = Ok items ->
  1 <= limit <= 5000
  /\ Z.of_nat (length items) <= limit
  /\ exists query results,
       execute query = Ok results
       /\ Forall (fun summary =>
                    exists item,
                      In item results
                      /\ isPluginGeneratedRequest (savedRequest item) = false
                      /\ isJsonRequest (savedRequest item) = true
                      /\ summary
                         = summaryOf createdAtText (savedRequest item)
                                     (Sink.isDefined (savedResponse item)))
                 items.
Proof.
  unfold listJsonRequests.
  destruct (Z.ltb_spec limit 1) as [|Hlow]; [discriminate|].
  rewrite Z.gtb_ltb.
  destruct (Z.ltb_spec 5000 limit) as [|Hhigh]; [discriminate|].
  cbv zeta.
  match goal with
  | |- context [execute ?q] => destruct (execute q) as [e|results] eqn:Hq
  end; [discriminate|].
  intros H. apply AdapterFacts.Ok_inj in H. subst items.
  split; [lia|]. split; [rewrite length_firstn; lia|].
  eexists _, results. split; [exact Hq|].
  apply Forall_forall. intros summary Hin.
  apply In_firstn, In_defined, in_map_iff in Hin as (item & Hitem & Hin).
  exists item. split; [exact Hin|]. unfold listed in Hitem.
  destruct (isPluginGeneratedRequest (savedRequest item)); [discriminate|].
  destruct (isJsonRequest (savedRequest item)); [|discriminate].
  cbn [negb] in Hitem. injection Hitem as <-. repeat split.
Qed.

End WithSdk.

Lemma listJsonRequests_lists_witness :
  let createdAtText := fun _ : Request => "2024-01-01T00:00:00.000Z" in
  let execute :=
    fun _ : option string =>
      Ok [{| savedRequest := labBaseline; savedResponse := None |};
          {| savedRequest :=
               requestOf "2" (Scan.makeSpec labBaseline labBody "mutated");
             savedResponse := None |}] in
  exists items,
    listJsonRequests createdAtText execute " " 10 = Ok items
    /\ 1 <= 10 <= 5000
    /\ Z.of_nat (length items) <= 10
    /\ exists query results,
         execute query = Ok results
         /\ Forall (fun summary =>
                      exists item,
                        In item results
                        /\ isPluginGeneratedRequest (savedRequest item) = false
                        /\ isJsonRequest (savedRequest item) = true
                        /\ summary
                           = summaryOf createdAtText (savedRequest item)
                                       (Sink.isDefined (savedResponse item)))
                   items.
Proof.
  cbv zeta. eexists. split; [vm_compute; reflexivity|].
  apply (listJsonRequests_lists
           (fun _ : Request => "2024-01-01T00:00:00.000Z")
           (fun _ : option string =>
              Ok [{| savedRequest := labBaseline; savedResponse := None |};
                  {| savedRequest :=
                       requestOf "2"
                         (Scan.makeSpec labBaseline labBody "mutated");
                     savedResponse := None |}])
           " " 10).
  vm_compute. reflexivity.
Defined.

End RpcFacts.

(** ** The frontend form and the generator *)

Module FormFacts.
Import Notions Terms.
Import JsNumber Json Generator Frontend BudgetFacts.
Local Open Scope string_scope.

Lemma trimEnd_idempotent s :
  JsString.trimEnd (JsString.trimEnd s) = JsString.trimEnd s.
Proof.
  induction s as [|c r IH]; [reflexivity|]. cbn [JsString.trimEnd].
  destruct (JsString.isWhiteSpace c && JsString.isEmpty (JsString.trimEnd r))
    eqn:Hend; [reflexivity|].
  cbn [JsString.trimEnd]. now rewrite IH, Hend.
Qed.

(** What [trimStart] leaves is empty or starts with a character that
    is not white space, and so does what [trimEnd] makes of it. *)
Lemma trimStart_trimEnd_trimStart s :
  JsString.trimStart (JsString.trimEnd (JsString.trimStart s))
  = JsString.trimEnd (JsString.trimStart s).
Proof.
  induction s as [|c r IH]; [reflexivity|]. cbn [JsString.trimStart].
  destruct (JsString.isWhiteSpace c) eqn:Hc; [exact IH|].
  cbn [JsString.trimEnd]. rewrite Hc. cbn [andb JsString.trimStart].
  now rewrite Hc.
Qed.

Lemma trim_idempotent s : JsString.trim (JsString.trim s) = JsString.trim s.
Proof.
  unfold JsString.trim.
  now rewrite trimStart_trimEnd_trimStart, trimEnd_idempotent.
Qed.

(** The loop of the form keeps [seen] and [result] equal as sets and
    adds no duplicate and nothing but items of the list. *)
Lemma fold_pushUnseen (P : string -> Prop) parts :
  forall seen result,
    (forall x, In x seen <-> In x result) -> NoDup result ->
    Forall P result -> Forall P parts ->
    NoDup (snd (fold_left pushUnseen parts (seen, result)))
    /\ Forall P (snd (fold_left pushUnseen parts (seen, result))).
Proof.
  induction parts as [|item rest IH];
    intros seen result Hsame Hnodup Hres Hparts; [now split|].
  apply Forall_cons_iff in Hparts as [Hitem Hrest].
  cbn [fold_left pushUnseen].
  destruct (existsb (String.eqb item) seen) eqn:Hseen; [now apply IH|].
  apply IH; [| | |exact Hrest].
  - intros x. rewrite in_app_iff. cbn [In]. rewrite Hsame. tauto.
  - apply NoDup_app; [exact Hnodup | repeat constructor; auto|].
    intros x Hx [<-|[]]. apply Hsame, existsb_eqb_In in Hx. congruence.
  - apply Forall_app. split; [exact Hres | now repeat constructor].
Qed.

(** On a list without duplicates of trimmed non-empty strings none of
    which was seen, the first loop of the generator appends the list. *)
Lemma fold_addCandidate_normal fields :
  forall seen cands,
    (forall x, In x seen <-> In x cands) ->
    NoDup fields ->
    Forall (fun f => JsString.trim f = f /\ f <> EmptyString) fields ->
    (forall f, In f fields -> ~ In f cands) ->
    snd (fold_left addCandidate fields (seen, cands))
    = (cands ++ fields)%list.
Proof.
  induction fields as [|f rest IH];
    intros seen cands Hsame Hnodup Hall Hfresh;
    [cbn; now rewrite app_nil_r|].
  apply Forall_cons_iff in Hall as [[Htrim Hne] Hall].
  apply NoDup_cons_iff in Hnodup as [Hnotin Hnodup].
  cbn [fold_left]. rewrite addCandidate_cases, Htrim.
  destruct (JsString.isEmpty f) eqn:He;
    [destruct f; [congruence | discriminate]|].
  destruct (existsb (String.eqb f) seen) eqn:Hseen.
  { apply existsb_eqb_In, Hsame in Hseen.
    exfalso. apply (Hfresh f); [now left | exact Hseen]. }
  rewrite IH; [now rewrite <- app_assoc | | exact Hnodup | exact Hall |].
  - intros x. rewrite in_app_iff. cbn [In]. rewrite Hsame. tauto.
  - intros x Hx Hin. apply in_app_or in Hin as [Hin|[<-|[]]].
    + apply (Hfresh x); [now right | exact Hin].
    + exact (Hnotin Hx).
Qed.

Lemma parseCandidateFields_clean text :
  NoDup (parseCandidateFields text)
  /\ Forall (fun f => JsString.trim f = f /\ f <> EmptyString)
            (parseCandidateFields text).
Proof.
  unfold parseCandidateFields.
  apply fold_pushUnseen; [tauto | constructor | constructor |].
  apply Forall_forall. intros f Hin.
  apply filter_In in Hin as [Hin Hne]. apply in_map_iff in Hin as (x & <- & _).
  split; [apply trim_idempotent|].
  apply isEmpty_false. now apply negb_true_iff in Hne.
Qed.

(** X26: the generator takes the candidate fields the form sends as
    they are.  When the built-in candidates are off and the candidate
    fields are what [parseCandidateFields] made of a text, the fields
    the generator walks are that very list: already trimmed, without
    empty entries and without duplicates. *)
Theorem form_fields_are_walked text config :
  includeBuiltInCandidates config = false ->
  candidateFields config = parseCandidateFields text ->
  candidatesOf config = parseCandidateFields text.
Proof.
  intros Hbuiltin Hfields. unfold candidatesOf, rawCandidates.
  rewrite Hbuiltin, Hfields. cbn [app].
  destruct (parseCandidateFields_clean text) as [Hnodup Hall].
  rewrite fold_addCandidate_normal; auto. tauto.
Qed.

Lemma form_fields_are_walked_witness :
  candidatesOf
    (GeneratorExamplesData.adminOnly
       (parseCandidateFields " role, isAdmin ,,role"))
  = parseCandidateFields " role, isAdmin ,,role".
Proof.
  apply form_fields_are_walked; reflexivity.
Defined.

(** The loop of [displayedRequests] keeps [seen] equal to the ids of
    [merged], which stay pairwise distinct. *)
Lemma fold_mergeUnseen items :
  forall seen merged,
    (forall x, In x seen <-> In x (map Rpc.id merged)) ->
    NoDup (map Rpc.id merged) ->
    NoDup (map Rpc.id (snd (fold_left mergeUnseen items (seen, merged))))
    /\ (forall x,
           In x (map Rpc.id (snd (fold_left mergeUnseen items (seen, merged))))
           <-> In x (map Rpc.id merged) \/ In x (map Rpc.id items))
    /\ exists more,
         snd (fold_left mergeUnseen items (seen, merged))
         = (merged ++ more)%list.
Proof.
  induction items as [|item rest IH]; intros seen merged Hsame Hnodup.
  - cbn [fold_left snd map In]. split; [exact Hnodup|].
    split; [tauto|]. exists []. now rewrite app_nil_r.
  - cbn [fold_left mergeUnseen].
    destruct (existsb (String.eqb (Rpc.id item)) seen) eqn:Hseen.
    + destruct (IH seen merged Hsame Hnodup) as (H1 & H2 & H3).
      split; [exact H1|]. split; [|exact H3]. intros x. rewrite H2.
      cbn [map In]. split; [tauto|]. intros [H|[<-|H]]; auto.
      left. now apply Hsame, existsb_eqb_In.
    + destruct (IH (Rpc.id item :: seen) (merged ++ [item])%list)
        as (H1 & H2 & more & H3).
      * intros x. rewrite map_app, in_app_iff. cbn [map In].
        rewrite Hsame. tauto.
      * rewrite map_app. apply NoDup_app;
          [exact Hnodup | repeat constructor; auto|].
        intros x Hx [<-|[]]. apply Hsame, existsb_eqb_In in Hx. congruence.
      * split; [exact H1|]. split.
        -- intros x. rewrite H2, map_app, in_app_iff. cbn [map In]. tauto.
        -- exists (item :: more). now rewrite H3, <- app_assoc.
Qed.

(** X27: the requests the form displays have pairwise distinct ids,
    and their ids are exactly those of the pinned and of the listed
    requests. *)
Theorem displayedRequests_distinct pinnedRequests requests :
  NoDup (map Rpc.id (displayedRequests pinnedRequests requests))
  /\ forall x,
       In x (map Rpc.id (displayedRequests pinnedRequests requests))
       <-> In x (map Rpc.id pinnedRequests) \/ In x (map Rpc.id requests).
Proof.
  unfold displayedRequests.
  destruct (fold_mergeUnseen (pinnedRequests ++ requests) [] [])
    as (H1 & H2 & _); [cbn; tauto | constructor |].
  split; [exact H1|]. intros x. rewrite H2, map_app, in_app_iff.
  cbn [map In]. tauto.
Qed.

(** X28: pinning a request puts it first and keeps the pinned ids
    pairwise distinct; the pinned request is then the first one
    displayed. *)
Theorem upsertPinnedRequest_first summary pinnedRequests requests :
  NoDup (map Rpc.id pinnedRequests) ->
  NoDup (map Rpc.id (upsertPinnedRequest summary pinnedRequests))
  /\ hd_error (displayedRequests
                 (upsertPinnedRequest summary pinnedRequests) requests)
     = Some summary.
Proof.
  intros Hnodup. unfold upsertPinnedRequest. split.
  - cbn [map]. constructor.
    + rewrite in_map_iff. intros (r & Hid & Hin).
      apply filter_In in Hin as [_ Hneq].
      rewrite Hid, String.eqb_refl in Hneq. discriminate.
    + induction pinnedRequests as [|r rest IH]; [constructor|].
      cbn [map] in Hnodup. apply NoDup_cons_iff in Hnodup as [Hnotin Hrest].
      cbn [filter]. destruct (negb _); [|now apply IH].
      cbn [map]. constructor; [|now apply IH].
      rewrite in_map_iff. intros (r' & Hid & Hin).
      apply filter_In in Hin as [Hin _]. apply Hnotin.
      rewrite <- Hid. now apply in_map.
  - unfold displayedRequests. cbn [app fold_left mergeUnseen existsb].
    match goal with
    | |- context [fold_left mergeUnseen ?items (?seen, ?merged)] =>
        destruct (fold_mergeUnseen items seen merged) as (_ & _ & more & ->)
    end; [cbn; tauto | repeat constructor; auto | reflexivity].
Qed.

Lemma upsertPinnedRequest_first_witness :
  let summary i :=
    {| Rpc.id := i; Rpc.method := "POST"; Rpc.url := "http://lab.test/";
       Rpc.createdAt := EmptyString; Rpc.hasResponse := true |} in
  NoDup (map Rpc.id (upsertPinnedRequest (summary "2")
                                         [summary "1"; summary "2"]))
  /\ hd_error (displayedRequests
                 (upsertPinnedRequest (summary "2")
                                      [summary "1"; summary "2"])
                 [summary "3"; summary "1"])
     = Some (summary "2").
Proof.
  cbv zeta. apply upsertPinnedRequest_first.
  repeat constructor; cbn; intuition discriminate.
Defined.

End FormFacts.

(** ** Targets a scan refuses *)

Module TargetFacts.
Import Notions Terms.
Import JsNumber Json Body Generator Http Adapter Scan Props.
Local Open Scope string_scope.

Section WithSdk.
Variable sdk : SDK.
Implicit Types (st : State sdk).

(** X29: a scan whose configuration and id pass validation and whose
    target resolves to a request that is not a JSON request, or whose
    body does not parse to an object, answers an error after a single
    host call, the lookup of the trimmed id: nothing is sent. *)
Theorem runScan_unfit_target_sends_nothing target config st saved :
  configError config = None ->
  JsString.isEmpty (JsString.trim (requestId target)) = false ->
  fst (requests_get sdk (world st) (JsString.trim (requestId target)))
  = Some saved ->
  isJsonRequest (savedRequest saved) = false
  \/ bodyObject (savedRequest saved) = None ->
  (exists e, fst (runScan sdk target config st) = Return (Error e))
  /\ trace (snd (runScan sdk target config st))
     = (trace st
        ++ [EvGet (JsString.trim (requestId target)) (Some saved)])%list.
Proof.
  intros Hconfig Hid Hget Hunfit.
  unfold runScan, bind, writeStop, get. rewrite Hconfig, Hid.
  cbn [world].
  destruct (requests_get sdk (world st) _) as [answer w].
  cbn [fst] in Hget. subst answer.
  destruct (isJsonRequest (savedRequest saved));
    [|split; [eexists|]; reflexivity].
  destruct Hunfit as [|Hbody]; [discriminate|]. unfold bodyObject in Hbody.
  cbn [negb].
  destruct (getBodyText (savedRequest saved)) as [bodyText|];
    [|split; [eexists|]; reflexivity].
  destruct (parseJsonValue bodyText) as [e|[| | | | | |o]];
    try discriminate; split; try eexists; reflexivity.
Qed.

End WithSdk.

Lemma runScan_unfit_target_sends_nothing_witness :
  let sdk := storeSdk [stored "base"] in
  let st := Build_State sdk false [] [] in
  (exists e,
      fst (runScan sdk {| requestId := " base " |} labConfig st)
      = Return (Error e))
  /\ trace (snd (runScan sdk {| requestId := " base " |} labConfig st))
     = (trace st ++ [EvGet "base" (Some (snd (stored "base")))])%list.
Proof.
  cbv zeta.
  apply (runScan_unfit_target_sends_nothing (storeSdk [stored "base"])
           {| requestId := " base " |} labConfig
           (Build_State (storeSdk [stored "base"]) false [] [])
           (snd (stored "base")));
    [reflexivity | reflexivity | reflexivity | left; reflexivity].
Defined.

End TargetFacts.
